(** * SO101 leader teleoperation: a model of [src/teleop/main.py]

    The script opens one leader-arm device and, depending on the mode given
    on the command line, calibrates it, displays its joint angles in the
    terminal, or streams them as JSON to websocket subscribers at a fixed
    rate.  The development embeds the script function by function:

    - [Py]: the Python built-ins the script relies on ([str.replace],
      [str.join], insertion-ordered [dict], [max], true division);
    - [Json]: [json.dumps] with Python's default settings, and a reader for
      the text it writes;
    - [Teleop]: the script itself, written in a small monad that threads the
      world (the log of calls made to the outside, the set of connected
      clients) and the three ways a Python block ends: it returns, it
      raises, or it is still running when the observation stops.

    A Python float is an IEEE 754 binary64 number, [PrimFloat.float]; its
    arithmetic rounds as the processor's does.  The textual form of a float
    ([repr] and the [.Nf] format) is an interface of the Python runtime,
    [FloatText]. *)

From stdpp Require Import base gmap list strings pretty.
From Stdlib Require Import Ascii String QArith Qround Qabs ZArith Lia Floats.

Close Scope Q_scope.

(* ===================================================================== *)
(** ** Python built-ins *)
(* ===================================================================== *)

Module Py.

(** *** Strings *)

(** [s[n:]] *)
Fixpoint str_drop (n : nat) (s : string) : string :=
  match n, s with
  | O, _ => s
  | S _, EmptyString => EmptyString
  | S k, String _ s' => str_drop k s'
  end.

(** [sub in s] *)
Fixpoint str_contains (sub s : string) : bool :=
  String.prefix sub s ||
  match s with
  | EmptyString => false
  | String _ s' => str_contains sub s'
  end.

(** The scan of [str.replace] for a non-empty [old]: left to right, each
    occurrence found is replaced and the scan resumes after it, so the
    occurrences replaced do not overlap.  [skip] counts the characters of
    the occurrence just replaced that are still to be passed over. *)
Fixpoint replace_from (old new : string) (skip : nat) (s : string) : string :=
  match s with
  | EmptyString => EmptyString
  | String c s' =>
      match skip with
      | S k => replace_from old new k s'
      | O =>
          if String.prefix old s
          then new +:+ replace_from old new (String.length old - 1) s'
          else String c (replace_from old new 0 s')
      end
  end.

(** With an empty [old], [str.replace] puts [new] before every character
    and at the end. *)
Fixpoint replace_empty (new : string) (s : string) : string :=
  match s with
  | EmptyString => new
  | String c s' => new +:+ String c (replace_empty new s')
  end.

(** [s.replace(old, new)] *)
Definition str_replace (old new s : string) : string :=
  match old with
  | EmptyString => replace_empty new s
  | String _ _ => replace_from old new 0 s
  end.

(** [s.removesuffix(suffix)] *)
Definition str_removesuffix (suffix s : string) : string :=
  let n := String.length s - String.length suffix in
  if (String.length suffix <=? String.length s)%nat
     && String.eqb (str_drop n s) suffix
  then String.substring 0 n s
  else s.

(** [sep.join(parts)] *)
Definition str_join (sep : string) (parts : list string) : string :=
  String.concat sep parts.

(** [s * n] *)
Fixpoint str_mul (s : string) (n : nat) : string :=
  match n with
  | O => EmptyString
  | S k => s +:+ str_mul s k
  end.

(** [s.rjust(width)], the alignment [>width] of a format specification *)
Definition str_rjust (width : nat) (s : string) : string :=
  str_mul " " (width - String.length s) +:+ s.

(** *** Dictionaries

    A [dict] keeps its entries in insertion order, one entry per key.
    Assigning to a key that is present replaces the value and leaves the
    entry where it is; assigning to a new key appends an entry. *)

Section Dict.
Context {K V : Type} `{EqDecision K}.

(** [d.get(k)] *)
Fixpoint dict_get (k : K) (d : list (K * V)) : option V :=
  match d with
  | [] => None
  | (k', v) :: d' => if decide (k = k') then Some v else dict_get k d'
  end.

(** [d[k] = v] *)
Fixpoint dict_set (k : K) (v : V) (d : list (K * V)) : list (K * V) :=
  match d with
  | [] => [(k, v)]
  | (k', v') :: d' =>
      if decide (k = k') then (k', v) :: d' else (k', v') :: dict_set k v d'
  end.

(** [list(d.keys())] *)
Definition dict_keys (d : list (K * V)) : list K := map fst d.

(** [{key(x): val(x) for x in xs}] *)
Definition dict_comp {X : Type} (key : X → K) (val : X → V) (xs : list X)
  : list (K * V) :=
  fold_left (λ d x, dict_set (key x) (val x) d) xs [].
End Dict.

(** *** Exceptions *)

(** The exception classes the script can meet.  [Error name] stands for any
    other class derived from [Exception] (a device or connection error);
    [KeyboardInterrupt] derives from [BaseException] only. *)
Inductive exn :=
| KeyboardInterrupt
| ZeroDivisionError
| OverflowError
| ValueError
| Error (name : string).

#[export] Instance exn_eq_dec : EqDecision exn.
Proof. solve_decision. Defined.

(** [isinstance(e, Exception)] *)
Definition is_exception (e : exn) : bool :=
  match e with
  | KeyboardInterrupt => false
  | _ => true
  end.

(** The value of an expression: it evaluates to [a] or raises [e]. *)
Inductive result (A : Type) :=
| Ok (a : A)
| Raise (e : exn).
Arguments Ok {A} a.
Arguments Raise {A} e.

(** *** Numbers

    A float is a binary64 number; [+], [-], [*], [/] and the comparisons on
    floats are those of IEEE 754, which [PrimFloat] provides. *)

(** [a > b] on floats; comparing the integer [0] with a float compares
    [0.0] with it. *)
Definition float_gt (a b : float) : bool := (b <? a)%float.

(** [max(a, b)]: the first argument unless the second is greater. *)
Definition py_max (a b : float) : float :=
  if float_gt b a then b else a.

(** [max(xs)] of a sequence of integers; [ValueError] when it is empty. *)
Definition py_max_seq (xs : list nat) : result nat :=
  match xs with
  | [] => Raise ValueError
  | x :: xs' => Ok (fold_left (λ m y, if (m <? y)%nat then y else m) xs' x)
  end.

(** An integer as the operand of a division: sign, magnitude, exponent 0. *)
Definition int_operand (a : Z) : spec_float :=
  match a with
  | Z0 => S754_zero false
  | Zpos p => S754_finite false p 0
  | Zneg p => S754_finite true p 0
  end.

(** The least magnitude that rounds beyond the largest float. *)
Definition float_overflow : Z := 2 ^ 1024 - 2 ^ 970.

(** [a / b] on integers: true division.  The exact quotient is rounded
    once, to the nearest float; a quotient too large for a float is an
    [OverflowError]. *)
Definition int_truediv (a b : Z) : result float :=
  if (b =? 0)%Z then Raise ZeroDivisionError
  else if (float_overflow * Z.abs b <=? Z.abs a)%Z then Raise OverflowError
  else Ok (SF2Prim (SFdiv prec emax (int_operand a) (int_operand b))).

(** [a / b] on floats. *)
Definition float_truediv (a b : float) : result float :=
  if (b =? 0)%float then Raise ZeroDivisionError
  else Ok (a / b)%float.

(** [float(x)] of a float is [x]. *)
Definition py_float (x : float) : float := x.

End Py.

(* ===================================================================== *)
(** ** The text of a float *)
(* ===================================================================== *)

(** How the Python runtime writes a float: [repr(x)], which [json.dumps]
    uses for a finite float, and the fixed-point format [format(x, ".Nf")]
    of the f-strings. *)
Class FloatText := {
  float_repr : float → string;
  float_fixed : nat → float → string;
}.

(* ===================================================================== *)
(** ** JSON *)
(* ===================================================================== *)

Module Json.

(** The values the script serialises: objects with string keys, floats and
    strings. *)
#[warning="-register-all"]
Inductive json :=
| JFloat (x : float)
| JString (s : string)
| JObject (members : list (string * json)).

(** *** [json.dumps] *)

Definition quote : ascii := "034"%char.
Definition backslash : ascii := "092"%char.

(** One lower-case hexadecimal digit. *)
Definition hex_digit (n : N) : ascii :=
  if (n <? 10)%N then ascii_of_N (48 + n) else ascii_of_N (87 + n).

(** [ensure_ascii=True]: the quote and the backslash are escaped, the
    control characters with a short form use it, and every other character
    outside the printable range [0x20..0x7e] becomes a [\uXXXX] escape. *)
Definition escape_char (c : ascii) : string :=
  let n := N_of_ascii c in
  if (n =? 34)%N then String backslash (String quote EmptyString)
  else if (n =? 92)%N then String backslash (String backslash EmptyString)
  else if (n =? 8)%N then String backslash "b"
  else if (n =? 12)%N then String backslash "f"
  else if (n =? 10)%N then String backslash "n"
  else if (n =? 13)%N then String backslash "r"
  else if (n =? 9)%N then String backslash "t"
  else if (32 <=? n)%N && (n <=? 126)%N then String c EmptyString
  else String backslash
         ("u00" +:+ String (hex_digit (n / 16)) (String (hex_digit (n mod 16)) EmptyString)).

Fixpoint escape (s : string) : string :=
  match s with
  | EmptyString => EmptyString
  | String c s' => escape_char c +:+ escape s'
  end.

Definition encode_string (s : string) : string :=
  String quote (escape s +:+ String quote EmptyString).

Section Dumps.
Context `{FloatText}.

(** The text of a float: with [allow_nan=True], the default, a float that
    is not a number or is infinite is written as a JavaScript constant;
    every other float by its [repr]. *)
Definition float_json (o : float) : string :=
  if negb (o =? o)%float then "NaN"
  else if (o =? infinity)%float then "Infinity"
  else if (o =? neg_infinity)%float then "-Infinity"
  else float_repr o.

(** [json.dumps(j)] with the default separators [", "] and [": "]. *)
Fixpoint dumps (j : json) : string :=
  match j with
  | JFloat x => float_json x
  | JString s => encode_string s
  | JObject members =>
      "{" +:+ Py.str_join ", "
                (map (λ kv, encode_string kv.1 +:+ ": " +:+ dumps kv.2) members)
          +:+ "}"
  end.
End Dumps.

(** *** Reading JSON text

    [json.loads] on objects, strings and numbers: the grammar of RFC 8259
    and, as Python reads them, the constants [NaN], [Infinity] and
    [-Infinity].  A number is kept as the text that denotes it. *)

#[warning="-register-all"]
Inductive tree :=
| TNumber (lexeme : string)
| TString (s : string)
| TObject (members : list (string * tree)).

Definition is_digit (c : ascii) : bool :=
  (48 <=? N_of_ascii c)%N && (N_of_ascii c <=? 57)%N.

Definition is_ws (c : ascii) : bool :=
  let n := N_of_ascii c in
  (n =? 32)%N || (n =? 9)%N || (n =? 10)%N || (n =? 13)%N.

Fixpoint skip_ws (s : string) : string :=
  match s with
  | String c s' => if is_ws c then skip_ws s' else s
  | EmptyString => EmptyString
  end.

(** The longest run of digits at the head of [s], and what follows it. *)
Fixpoint span_digits (s : string) : string * string :=
  match s with
  | String c s' =>
      if is_digit c
      then (String c (span_digits s').1, (span_digits s').2)
      else (EmptyString, s)
  | EmptyString => (EmptyString, EmptyString)
  end.

(** [int = "0" | digit1-9 digit*] *)
Definition scan_int (s : string) : option (string * string) :=
  match s with
  | String c s' =>
      if (c =? "0")%char then Some ("0", s')
      else if is_digit c
           then Some (String c (span_digits s').1, (span_digits s').2)
           else None
  | EmptyString => None
  end.

(** [frac = "." digit+], optional *)
Definition scan_frac (s : string) : string * string :=
  match s with
  | String c s' =>
      if (c =? ".")%char then
        match (span_digits s').1 with
        | EmptyString => (EmptyString, s)
        | ds => (String c ds, (span_digits s').2)
        end
      else (EmptyString, s)
  | EmptyString => (EmptyString, s)
  end.

(** The sign of an exponent, optional. *)
Definition scan_sign (s : string) : string * string :=
  match s with
  | String c s' =>
      if (c =? "+")%char || (c =? "-")%char then (String c EmptyString, s')
      else (EmptyString, s)
  | EmptyString => (EmptyString, s)
  end.

(** [exp = ("e" | "E") ["+" | "-"] digit+], optional *)
Definition scan_exp (s : string) : string * string :=
  match s with
  | String c s' =>
      if (c =? "e")%char || (c =? "E")%char then
        let sg := scan_sign s' in
        match (span_digits sg.2).1 with
        | EmptyString => (EmptyString, s)
        | ds => (String c (sg.1 +:+ ds), (span_digits sg.2).2)
        end
      else (EmptyString, s)
  | EmptyString => (EmptyString, s)
  end.

(** [number = ["-"] int [frac] [exp]]: the number at the head of [s] and what
    follows it. *)
Definition scan_number (s : string) : option (string * string) :=
  let sg :=
    match s with
    | String c s' => if (c =? "-")%char then (String c EmptyString, s') else (EmptyString, s)
    | EmptyString => (EmptyString, s)
    end in
  match scan_int sg.2 with
  | None => None
  | Some (ip, s2) =>
      let fr := scan_frac s2 in
      let ex := scan_exp fr.2 in
      Some (sg.1 +:+ ip +:+ fr.1 +:+ ex.1, ex.2)
  end.

(** [s] is a JSON number, whole. *)
Definition is_number (s : string) : bool :=
  match scan_number s with
  | Some (_, EmptyString) => true
  | _ => false
  end.

(** A character that could carry a number on. *)
Definition continues_number (c : ascii) : bool :=
  is_digit c || (c =? ".")%char || (c =? "e")%char || (c =? "E")%char
  || (c =? "+")%char || (c =? "-")%char.

(** [rest] cannot carry on a number that ends where it starts. *)
Definition number_end (rest : string) : bool :=
  match rest with
  | EmptyString => true
  | String c _ => negb (continues_number c)
  end.

(** The value of a hexadecimal digit. *)
Definition hex_value (c : ascii) : option N :=
  let n := N_of_ascii c in
  if (48 <=? n)%N && (n <=? 57)%N then Some (n - 48)%N
  else if (97 <=? n)%N && (n <=? 102)%N then Some (n - 87)%N
  else if (65 <=? n)%N && (n <=? 70)%N then Some (n - 55)%N
  else None.

(** The character a one-letter escape stands for. *)
Definition unescape_char (c : ascii) : option ascii :=
  let n := N_of_ascii c in
  if (n =? 34)%N then Some quote
  else if (n =? 92)%N then Some backslash
  else if (n =? 47)%N then Some "/"%char
  else if (n =? 98)%N then Some "008"%char
  else if (n =? 102)%N then Some "012"%char
  else if (n =? 110)%N then Some "010"%char
  else if (n =? 114)%N then Some "013"%char
  else if (n =? 116)%N then Some "009"%char
  else None.

(** The characters of a string up to its closing quote, escapes decoded, and
    what follows the quote.  A [\uXXXX] escape is read when it names one of
    the characters [0..255] of the model. *)
Fixpoint scan_string (s : string) : option (string * string) :=
  match s with
  | EmptyString => None
  | String c s' =>
      if (c =? quote)%char then Some (EmptyString, s')
      else if (c =? backslash)%char then
        match s' with
        | EmptyString => None
        | String e s'' =>
            if (e =? "u")%char then
              match s'' with
              | String h1 (String h2 (String h3 (String h4 s4))) =>
                  match hex_value h1, hex_value h2, hex_value h3, hex_value h4 with
                  | Some 0%N, Some 0%N, Some a, Some b =>
                      match scan_string s4 with
                      | Some (str, r) => Some (String (ascii_of_N (16 * a + b)) str, r)
                      | None => None
                      end
                  | _, _, _, _ => None
                  end
              | _ => None
              end
            else
              match unescape_char e, scan_string s'' with
              | Some d, Some (str, r) => Some (String d str, r)
              | _, _ => None
              end
        end
      else if (N_of_ascii c <? 32)%N then None
      else
        match scan_string s' with
        | Some (str, r) => Some (String c str, r)
        | None => None
        end
  end.

(** The constants that Python's reader accepts beside the numbers of
    RFC 8259; as a number, each is kept as its text. *)
Definition scan_constant (s : string) : option (tree * string) :=
  if String.prefix "NaN" s then Some (TNumber "NaN", Py.str_drop 3 s)
  else if String.prefix "Infinity" s then Some (TNumber "Infinity", Py.str_drop 8 s)
  else if String.prefix "-Infinity" s then Some (TNumber "-Infinity", Py.str_drop 9 s)
  else None.

(** A value at the head of [s], and what follows it.  [fuel] bounds the
    number of values and members read. *)
Fixpoint parse_value (fuel : nat) (s : string) : option (tree * string) :=
  match fuel with
  | O => None
  | S n =>
      match s with
      | EmptyString => None
      | String c s' =>
          if (c =? "{")%char then
            match skip_ws s' with
            | String d s'' =>
                if (d =? "}")%char then Some (TObject [], s'')
                else
                  match parse_members n (skip_ws s') with
                  | Some (ms, r) => Some (TObject ms, r)
                  | None => None
                  end
            | EmptyString => None
            end
          else if (c =? quote)%char then
            match scan_string s' with
            | Some (str, r) => Some (TString str, r)
            | None => None
            end
          else
            match scan_number s with
            | Some (lexeme, r) => Some (TNumber lexeme, r)
            | None => scan_constant s
            end
      end
  end
with parse_members (fuel : nat) (s : string) : option (list (string * tree) * string) :=
  match fuel with
  | O => None
  | S n =>
      match s with
      | String c s' =>
          if (c =? quote)%char then
            match scan_string s' with
            | Some (key, r) =>
                match skip_ws r with
                | String d r' =>
                    if (d =? ":")%char then
                      match parse_value n (skip_ws r') with
                      | Some (v, r'') =>
                          match skip_ws r'' with
                          | String e t =>
                              if (e =? ",")%char then
                                match parse_members n (skip_ws t) with
                                | Some (ms, u) => Some ((key, v) :: ms, u)
                                | None => None
                                end
                              else if (e =? "}")%char then Some ([(key, v)], t)
                              else None
                          | EmptyString => None
                          end
                      | None => None
                      end
                    else None
                | EmptyString => None
                end
            | None => None
            end
          else None
      | EmptyString => None
      end
  end.

(** [json.loads(s)], on the fragment read: the whole of [s] is one value. *)
Definition loads (s : string) : option tree :=
  match parse_value (S (String.length s)) (skip_ws s) with
  | Some (t, r) =>
      match skip_ws r with
      | EmptyString => Some t
      | String _ _ => None
      end
  | None => None
  end.


Section Tree.
Context `{FloatText}.

(** What reading the text of [j] yields. *)
Fixpoint tree_of (j : json) : tree :=
  match j with
  | JFloat x => TNumber (float_json x)
  | JString s => TString s
  | JObject members => TObject (map (λ kv, (kv.1, tree_of kv.2)) members)
  end.
End Tree.

(** Fuel that reads the text of [j]: one unit for each value and each
    member. *)
Fixpoint fuel_of (j : json) : nat :=
  match j with
  | JObject members => S (list_sum (map (λ kv, S (fuel_of kv.2)) members))
  | _ => 1%nat
  end.

(** What [json.dumps] relies on: the [repr] of a finite float is a JSON
    number. *)
Class FloatJson `{FloatText} :=
  float_repr_number : ∀ x, is_finite x = true → is_number (float_repr x) = true.

End Json.

(* ===================================================================== *)
(** ** The script *)
(* ===================================================================== *)

Module Teleop.
Import Py Json.

(** *** The device configuration *)

Record SO101LeaderConfig := {
  port : string;
  id : string;
}.

Definition PORT_LEADER : string := "/dev/tty.usbmodem5A4B0479861".

Definition get_leader_config : SO101LeaderConfig :=
  {| port := PORT_LEADER; id := "my_awesome_leader_arm" |}.

(** *** The world outside the script *)

(** A websocket connection, by identity. *)
Definition client := positive.

(** What [get_action] returns: motor name to angle, in the device's order. *)
Definition action := list (string * float).

(** The calls the script makes to the outside, in the order it makes them. *)
Inductive event :=
| ESO101Leader (config : SO101LeaderConfig)
| EConnect (calibrate : option bool)
| ECalibrate
| EGetAction
| EActionFeatures
| EDisconnect
| EPerfCounter
| ETime
| EPrint (line : string)
| EWrite (text : string)
| EFlush
| ETimeSleep (seconds : float)
| EAsyncSleep (seconds : float)
| ESend (ws : client) (message : string)
| EGather (n : nat)
| EServe (host : string) (tcp_port : Z)
| EServeClose.

(** A connection is opened or closed while the broadcast loop is suspended. *)
Inductive conn_event :=
| Opened (ws : client)
| Closed (ws : client).

(** The environment answers the call at position [i] of the trace: whether
    it raises (a device error, [KeyboardInterrupt]), the value it returns
    ([clock_at] for [time.perf_counter], [time_at] for [time.time], two
    clocks of the system), whether a send started there fails, and which
    connections are opened and closed while the script is suspended
    there. *)
Record env := {
  raises : nat → option exn;
  action_at : nat → action;
  features_at : nat → list string;
  clock_at : nat → float;
  time_at : nat → float;
  send_error : nat → option string;
  arrivals : nat → list conn_event;
}.

(** *** Running a block of the script *)

(** A block returns a value, raises, or is still inside a [while True] loop
    when the observation ends. *)
Inductive outcome (A : Type) :=
| Returned (a : A)
| Raised (e : exn)
| StillRunning.
Arguments Returned {A} a.
Arguments Raised {A} e.
Arguments StillRunning {A}.

(** What a block did: how it ended, the calls it made, in order, and the set
    [connected_clients] it leaves. *)
Record run (A : Type) := Run {
  out : outcome A;
  calls : list event;
  clients : gset client;
}.
Arguments Run {A} out calls clients.
Arguments out {A} r.
Arguments calls {A} r.
Arguments clients {A} r.

(** A block is run from a position of the trace and a set of connected
    clients. *)
Definition M (A : Type) : Type := nat → gset client → run A.

#[export] Instance M_ret : MRet M := λ A a i cs, Run (Returned a) [] cs.

#[export] Instance M_bind : MBind M := λ A B k m i cs,
  match m i cs with
  | Run (Returned a) tr cs' =>
      match k a (i + List.length tr) cs' with
      | Run o tr' cs'' => Run o (tr ++ tr') cs''
      end
  | Run (Raised e) tr cs' => Run (Raised e) tr cs'
  | Run StillRunning tr cs' => Run StillRunning tr cs'
  end.

Definition raise {A} (e : exn) : M A := λ i cs, Run (Raised e) [] cs.

Definition lift {A} (r : result A) : M A :=
  match r with
  | Ok a => mret a
  | Raise e => raise e
  end.

(** [try: body finally: final]: [final] runs however [body] ends; what it
    raises replaces the outcome of [body]. *)
Definition try_finally {A} (body : M A) (final : M unit) : M A := λ i cs,
  match body i cs with
  | Run StillRunning tr cs' => Run StillRunning tr cs'
  | Run o tr cs' =>
      match final (i + List.length tr) cs' with
      | Run (Returned _) tr' cs'' => Run o (tr ++ tr') cs''
      | Run (Raised e) tr' cs'' => Run (Raised e) (tr ++ tr') cs''
      | Run StillRunning tr' cs'' => Run StillRunning (tr ++ tr') cs''
      end
  end.

(** [try: body except <handles>: handler] *)
Definition try_except {A} (body : M A) (handles : exn → bool) (handler : M A)
  : M A := λ i cs,
  match body i cs with
  | Run (Raised e) tr cs' =>
      if handles e then
        match handler (i + List.length tr) cs' with
        | Run o tr' cs'' => Run o (tr ++ tr') cs''
        end
      else Run (Raised e) tr cs'
  | r => r
  end.

(** [while True: body], observed for [ticks] iterations. *)
Fixpoint while_true (ticks : nat) (body : M unit) : M unit :=
  match ticks with
  | O => λ i cs, Run StillRunning [] cs
  | S n => body ;; while_true n body
  end.

Definition get_clients : M (gset client) := λ i cs, Run (Returned cs) [] cs.

Definition set_clients (cs : gset client) : M unit := λ i _, Run (Returned tt) [] cs.

(** Makes a call: the call is appended to the trace; its position is
    returned. *)
Definition log (ev : event) : M nat := λ i cs, Run (Returned i) [ev] cs.

(** The script starts with an empty trace. *)
Definition start {A} (m : M A) : run A := m 0%nat ∅.

(** *** Names

    The broadcast names a joint by the motor name with [.pos] replaced by
    nothing; the display shortens the name further. *)
Definition joint_name (motor : string) : string :=
  str_replace ".pos" "" motor.

Definition short_name (motor : string) : string :=
  str_replace "wrist_" "w_"
    (str_replace "elbow_" "e_"
       (str_replace "shoulder_" "s_"
          (str_replace ".pos" "" motor))).

(** The [actions] dictionary of the broadcast. *)
Definition actions_of (a : action) : list (string * float) :=
  dict_comp (λ mv, joint_name mv.1) (λ mv, py_float mv.2) a.

(** The dictionary handed to [json.dumps]. *)
Definition action_data (now : float) (a : action) : json :=
  JObject [("timestamp", JFloat now);
           ("actions", JObject (map (λ kv, (kv.1, JFloat kv.2)) (actions_of a)))].

(** Carriage return, then the ANSI sequence that clears the line. *)
Definition clear_line : string := String "013" (String "027" "[K").

Definition newline : string := String "010" "".

(** [max(0, 1 / fps - dt_s)] *)
Definition sleep_time (fps : Z) (dt_s : float) : result float :=
  match int_truediv 1 fps with
  | Ok period => Ok (py_max 0 (period - dt_s)%float)
  | Raise e => Raise e
  end.

(** The command line: the mode and the flags, as [argparse] hands them over
    ([--fps] and [--port] are any integers). *)
Inductive mode := Calibrate | Test | Websocket.

Record args := {
  arg_mode : mode;
  arg_fps : Z;
  arg_host : string;
  arg_port : Z;
}.

Definition default_args (m : mode) : args :=
  {| arg_mode := m; arg_fps := 30; arg_host := "localhost"; arg_port := 8765 |}.

Section Script.
Context `{FloatText} (E : env).

(** The call at position [i] raises if the environment says so. *)
Definition check (i : nat) : M unit :=
  match raises E i with
  | Some e => raise e
  | None => mret tt
  end.

Definition call (ev : event) : M nat :=
  i ← log ev; check i;; mret i.

Definition perf_counter : M float := i ← call EPerfCounter; mret (clock_at E i).
Definition time_time : M float := i ← call ETime; mret (time_at E i).
Definition get_action : M action := i ← call EGetAction; mret (action_at E i).
Definition action_features : M (list string) :=
  i ← call EActionFeatures; mret (features_at E i).
Definition print (line : string) : M unit := call (EPrint line);; mret tt.
Definition stdout_write (text : string) : M unit := call (EWrite text);; mret tt.
Definition stdout_flush : M unit := call EFlush;; mret tt.

(** *** [handle_client]

    The coroutine runs up to [await websocket.wait_closed()] when the
    connection is opened and resumes from it when the connection is closed.
    Its [print]s go to the terminal; an exception there would end the
    handler's task, not the broadcast loop. *)
Definition handle_client (ev : conn_event) : M unit :=
  match ev with
  | Opened websocket =>
      cs ← get_clients;
      set_clients ({[websocket]} ∪ cs);;
      log (EPrint ("Client connected. Total clients: "
                   +:+ pretty (size ({[websocket]} ∪ cs))));;
      mret tt
  | Closed websocket =>
      cs ← get_clients;
      if decide (websocket ∈ cs) then
        set_clients (cs ∖ {[websocket]});;
        log (EPrint ("Client disconnected. Total clients: "
                     +:+ pretty (size (cs ∖ {[websocket]}))));;
        mret tt
      else mret tt
  end.

(** While the loop is suspended at position [i], the event loop runs the
    handlers of the connections opened and closed in the meantime. *)
Definition suspended (i : nat) : M unit :=
  mapM handle_client (arrivals E i);; mret tt.

(** [await asyncio.sleep(seconds)] *)
Definition asyncio_sleep (seconds : float) : M unit :=
  i ← log (EAsyncSleep seconds); suspended i;; check i.

(** [time.sleep(seconds)] *)
Definition time_sleep (seconds : float) : M unit :=
  call (ETimeSleep seconds);; mret tt.

(** [client.send(message)], started as a task: [None] when the message was
    sent, the error otherwise. *)
Definition send (ws : client) (message : string) : M (option exn) :=
  i ← log (ESend ws message); mret (Error <$> send_error E i).

(** [await asyncio.gather] over [tasks] with [return_exceptions]: every task is
    started; with [return_exceptions] an exception raised by a task is
    its result, without it the first one is raised to the caller. *)
Definition gather (return_exceptions : bool) (tasks : list (M (option exn)))
  : M (list (option exn)) :=
  results ← mapM (λ task, task) tasks;
  i ← log (EGather (List.length tasks));
  suspended i;;
  check i;;
  if return_exceptions then mret results
  else match omap (λ r, r) results with
       | e :: _ => raise e
       | [] => mret results
       end.

(** *** The display line *)

Definition action_str (a : action) : string :=
  str_join " | "
    (map (λ mv, short_name mv.1 +:+ ":" +:+ str_rjust 6 (float_fixed 2 mv.2)) a).

Definition timing_str (loop_s : float) : result string :=
  match float_truediv 1 loop_s with
  | Ok hz =>
      Ok ("[" +:+ float_fixed 1 (loop_s * 1000)%float +:+ "ms, "
              +:+ float_fixed 0 hz +:+ "Hz]")
  | Raise e => Raise e
  end.

(** *** [calibrate_leader] *)

Definition calibrate_leader : M unit :=
  let config := get_leader_config in
  call (ESO101Leader config);;
  call (EConnect (Some false));;
  call ECalibrate;;
  call EDisconnect;;
  mret tt.

(** *** [test_leader] *)

(** One iteration of the display loop. *)
Definition test_tick (fps : Z) : M unit :=
  loop_start ← perf_counter;
  a ← get_action;
  t ← perf_counter;
  let loop_s := (t - loop_start)%float in
  timing ← lift (timing_str loop_s);
  stdout_write (clear_line +:+ action_str a +:+ " " +:+ timing);;
  stdout_flush;;
  t' ← perf_counter;
  let dt_s := (t' - loop_start)%float in
  sleep ← lift (sleep_time fps dt_s);
  if float_gt sleep 0 then time_sleep sleep else mret tt.

Definition test_leader (fps : Z) (ticks : nat) : M unit :=
  let config := get_leader_config in
  call (ESO101Leader config);;
  call (EConnect None);;
  print ("Leader device connected on " +:+ PORT_LEADER);;
  print ("Displaying joint angles at " +:+ pretty fps +:+ " fps (Ctrl+C to stop)");;
  print (str_mul "-" 80);;
  try_finally
    (try_except (while_true ticks (test_tick fps))
       (λ e, bool_decide (e = KeyboardInterrupt))
       (print (newline +:+ newline +:+ "Shutting down...")))
    (call EDisconnect;;
     print "Leader device disconnected").

(** *** [teleop_websocket] *)

(** The broadcast of one iteration: nothing unless a client is connected. *)
Definition broadcast (json_dumps : json → string) (data : json) : M unit :=
  clients ← get_clients;
  if decide (clients ≠ ∅) then
    let message := json_dumps data in
    gather true ((λ ws, send ws message) <$> elements clients);;
    mret tt
  else mret tt.

(** The rest of an iteration: the pause that keeps the rate, then the
    display line. *)
Definition pace_and_display (fps : Z) (loop_start : float) (a : action) : M unit :=
  t ← perf_counter;
  let dt_s := (t - loop_start)%float in
  sleep ← lift (sleep_time fps dt_s);
  (if float_gt sleep 0 then asyncio_sleep sleep else mret tt);;
  t' ← perf_counter;
  let loop_s := (t' - loop_start)%float in
  timing ← lift (timing_str loop_s);
  clients ← get_clients;
  let client_str := "clients:" +:+ pretty (size clients) in
  stdout_write (clear_line +:+ action_str a +:+ " " +:+ timing +:+ " " +:+ client_str);;
  stdout_flush.

(** One iteration of the broadcast loop. *)
Definition broadcast_tick_with (json_dumps : json → string) (fps : Z) : M unit :=
  loop_start ← perf_counter;
  a ← get_action;
  now ← time_time;
  broadcast json_dumps (action_data now a);;
  pace_and_display fps loop_start a.

Definition broadcast_tick : Z → M unit := broadcast_tick_with dumps.

Definition broadcast_actions (fps : Z) (ticks : nat) : M unit :=
  features ← action_features;
  display_len ← lift (py_max_seq (String.length <$> features));
  while_true ticks (broadcast_tick fps).

(** Leaving an [async with websockets.serve] block closes the server and
    waits for it: the connections still open are closed, and the handler
    of each resumes from its [wait_closed] and runs its [finally]. *)
Definition serve_close : M unit :=
  i ← log EServeClose;
  clients ← get_clients;
  mapM handle_client (Closed <$> elements clients);;
  check i.

(** [async with websockets.serve(handle_client, host, port): body] *)
Definition with_serve {A} (host : string) (tcp_port : Z) (body : M A) : M A :=
  call (EServe host tcp_port);;
  try_finally body serve_close.

Definition main (fps : Z) (host : string) (tcp_port : Z) (ticks : nat) : M unit :=
  with_serve host tcp_port
    (print ("WebSocket server started on ws://" +:+ host +:+ ":" +:+ pretty tcp_port);;
     print ("Streaming actions at " +:+ pretty fps +:+ " fps");;
     print (str_mul "-" 50);;
     broadcast_actions fps ticks).

(** [asyncio.run(coro)] runs the coroutine to its end; what it raises,
    [asyncio.run] raises. *)
Definition asyncio_run {A} (coro : M A) : M A := coro.

Definition teleop_websocket (fps : Z) (host : string) (tcp_port : Z) (ticks : nat)
  : M unit :=
  set_clients ∅;;
  let teleop_config := get_leader_config in
  call (ESO101Leader teleop_config);;
  call (EConnect None);;
  print ("Leader device connected on " +:+ PORT_LEADER);;
  try_finally
    (try_except (asyncio_run (main fps host tcp_port ticks))
       (λ e, bool_decide (e = KeyboardInterrupt))
       (print (newline +:+ "Shutting down...")))
    (call EDisconnect;;
     print "Leader device disconnected").

(** *** The [__main__] block *)

Definition script (a : args) (ticks : nat) : M unit :=
  match arg_mode a with
  | Calibrate => calibrate_leader
  | Test => test_leader (arg_fps a) ticks
  | Websocket => teleop_websocket (arg_fps a) (arg_host a) (arg_port a) ticks
  end.
End Script.

(** *** Reading a trace *)

(** The messages sent, with the client each was sent to. *)
Definition sends_of (tr : list event) : list (client * string) :=
  omap (λ ev, match ev with ESend ws m => Some (ws, m) | _ => None end) tr.

(** The durations slept, by [time.sleep] or [asyncio.sleep]. *)
Definition sleeps_of (tr : list event) : list float :=
  omap (λ ev, match ev with
              | ETimeSleep d | EAsyncSleep d => Some d
              | _ => None
              end) tr.

(** The configurations devices were built from. *)
Definition devices_of (tr : list event) : list SO101LeaderConfig :=
  omap (λ ev, match ev with ESO101Leader c => Some c | _ => None end) tr.

(** The texts written to the terminal by [sys.stdout.write]. *)
Definition writes_of (tr : list event) : list string :=
  omap (λ ev, match ev with EWrite s => Some s | _ => None end) tr.

Definition is_get_action (ev : event) : bool :=
  match ev with EGetAction => true | _ => false end.

Definition is_connect (ev : event) : bool :=
  match ev with EConnect _ => true | _ => false end.

Definition is_disconnect (ev : event) : bool :=
  match ev with EDisconnect => true | _ => false end.

(** How many calls of a kind a trace holds. *)
Definition count (kind : event → bool) (tr : list event) : nat :=
  List.length (List.filter kind tr).

End Teleop.

Import Py Json Teleop.

(* ===================================================================== *)
(** ** Reading runs and values *)
(* ===================================================================== *)

Section Comprehension.
Context {K V X : Type} `{EqDecision K} (key : X → K) (val : X → V).

(** The value a dictionary comprehension over [xs] holds at [k]: that of
    the last element whose key is [k]. *)
Definition last_value (k : K) (xs : list X) : option V :=
  fold_left (λ acc x, if decide (key x = k) then Some (val x) else acc) xs None.
End Comprehension.

(** The joint name as the description of the wire format words it: the
    motor name with its [.pos] suffix removed. *)
Definition suffix_name (motor : string) : string := str_removesuffix ".pos" motor.

Section Written.
Context `{FloatText}.

(** The text of one member of an object. *)
Definition member_text (kv : string * json) : string :=
  encode_string kv.1 +:+ ": " +:+ dumps kv.2.

(** What reading a value back means: its text, followed by anything that
    does not carry a number on, is read as its tree, and what follows is
    left. *)
Definition reads_back (j : json) : Prop :=
  ∀ rest, number_end rest = true →
          parse_value (fuel_of j) (dumps j +:+ rest) = Some (tree_of j, rest).
End Written.

(** Calls that are all [print]s. *)
Definition prints_only (tr : list event) : Prop :=
  Forall (λ ev, ∃ line, ev = EPrint line) tr.

(** Calls that are all of kind [P]. *)
Definition only (P : event → bool) (tr : list event) : Prop :=
  Forall (λ ev, P ev = true) tr.

(** [emits P m]: whatever [m] is run from, it makes only calls of kind [P]. *)
Definition emits (P : event → bool) {A} (m : M A) : Prop :=
  ∀ i cs, only P (calls (m i cs)).

(** The calls of the pause and the display line. *)
Definition display_event (ev : event) : bool :=
  match ev with
  | EPerfCounter | EAsyncSleep _ | EPrint _ | EWrite _ | EFlush => true
  | _ => false
  end.

(** The calls of the broadcast block. *)
Definition broadcast_event (ev : event) : bool :=
  match ev with
  | EPrint _ | ESend _ _ | EGather _ => true
  | _ => false
  end.

(** The calls of an iteration of either loop. *)
Definition tick_event (ev : event) : bool :=
  match ev with
  | EPerfCounter | EGetAction | ETime | EPrint _ | EWrite _ | EFlush
  | ETimeSleep _ | EAsyncSleep _ | ESend _ _ | EGather _ => true
  | _ => false
  end.

(** The calls of a session: those of the iterations, and those of the
    websocket server around them. *)
Definition session_event (ev : event) : bool :=
  match ev with
  | EActionFeatures | EServe _ _ | EServeClose => true
  | _ => tick_event ev
  end.

(** Every call but the construction of a device. *)
Definition not_device (ev : event) : bool :=
  match ev with
  | ESO101Leader _ => false
  | _ => true
  end.

Section Shutdown.
Context (E : env).

(** The run of the [finally] block from position [n], after calls [tr]
    that ended with [o]. *)
Definition finish {A} (o : outcome A) (tr : list event) (cs : gset client) (n : nat)
  : run A :=
  match raises E n with
  | Some e => Run (Raised e) (tr ++ [EDisconnect]) cs
  | None =>
      match raises E (n + 1) with
      | Some e =>
          Run (Raised e) (tr ++ [EDisconnect; EPrint "Leader device disconnected"]) cs
      | None => Run o (tr ++ [EDisconnect; EPrint "Leader device disconnected"]) cs
      end
  end.

(** The [try] statement both modes end with, around a body and with the
    goodbye [msg]. *)
Definition shutdown (body : M unit) (msg : string) : M unit :=
  try_finally
    (try_except body (λ e, bool_decide (e = KeyboardInterrupt)) (print E msg))
    (call E EDisconnect;; print E "Leader device disconnected").
End Shutdown.

(** The calls of [test_leader] before its loop. *)
Definition test_startup (fps : Z) : list event :=
  [ESO101Leader get_leader_config; EConnect None;
   EPrint ("Leader device connected on " +:+ PORT_LEADER);
   EPrint ("Displaying joint angles at " +:+ pretty fps +:+ " fps (Ctrl+C to stop)");
   EPrint (str_mul "-" 80)].

(** The calls of [teleop_websocket] before [asyncio.run]. *)
Definition websocket_startup : list event :=
  [ESO101Leader get_leader_config; EConnect None;
   EPrint ("Leader device connected on " +:+ PORT_LEADER)].

Definition test_goodbye : string := newline +:+ newline +:+ "Shutting down...".

Definition websocket_goodbye : string := newline +:+ "Shutting down...".

Section Idle.
Context `{FloatText} (E : env).

(** The iteration of the broadcast loop with its broadcast block left out. *)
Definition tick_without_broadcast (fps : Z) : M unit :=
  loop_start ← perf_counter E;
  a ← get_action E;
  now ← time_time E;
  pace_and_display E fps loop_start a.
End Idle.

(* ===================================================================== *)
(** ** Environments *)
(* ===================================================================== *)

(** The environment [E] with other answers to the sends. *)
Definition with_send_error (E : env) (f : nat → option string) : env :=
  {| raises := raises E; action_at := action_at E; features_at := features_at E;
     clock_at := clock_at E; time_at := time_at E; send_error := f; arrivals := arrivals E |}.

(** The environment [E] with other actions returned by the device. *)
Definition with_action_at (E : env) (f : nat → action) : env :=
  {| raises := raises E; action_at := f; features_at := features_at E;
     clock_at := clock_at E; time_at := time_at E; send_error := send_error E; arrivals := arrivals E |}.

(** [E], with Ctrl+C pressed during the call at position [n]. *)
Definition interrupted_at (n : nat) (E : env) : env :=
  {| raises := λ k, if (k =? n)%nat then Some KeyboardInterrupt else raises E k;
     action_at := action_at E; features_at := features_at E;
     clock_at := clock_at E; time_at := time_at E; send_error := send_error E; arrivals := arrivals E |}.

(** The float nearest to a natural number. *)
Definition float_of_nat (n : nat) : float :=
  SF2Prim (binary_normalize prec emax (Z.of_nat n) 0 false).

(** An environment in which nothing fails, the device returns [a] and the
    clocks advance by a hundredth of a second per call. *)
Definition calm (a : action) : env :=
  {| raises := λ _, None;
     action_at := λ _, a;
     features_at := λ _, a.*1;
     clock_at := λ n, (float_of_nat n / 100)%float;
     time_at := λ n, (1700000000 + float_of_nat n / 100)%float;
     send_error := λ _, None;
     arrivals := λ _, [] |}.

(** Three joints of the arm. *)
Definition arm_action : action :=
  [("shoulder_pan.pos"%string, 12.5%float); ("elbow_flex.pos"%string, (-30)%float);
   ("gripper.pos"%string, 0.25%float)].

(* ===================================================================== *)
(** ** Floats *)
(* ===================================================================== *)

(** [1 / fps] for an [fps] that is not zero: the float nearest to the
    quotient. *)
Definition period (fps : Z) : float :=
  SF2Prim (SFdiv prec emax (int_operand 1) (int_operand fps)).

(** *** The text of a float

    An instance of [FloatText] to run the script on.  [format(x, ".Nf")] is
    the exact value of [x] rounded to [N] places, halves to the even digit;
    [repr(x)] is the shortest decimal that reads back as [x], written with
    an exponent when its point is far from its digits. *)

(** The sign and the exact magnitude of a finite float. *)
Definition float_parts (x : float) : option (bool * Q) :=
  match Prim2SF x with
  | S754_zero s => Some (s, 0%Q)
  | S754_finite s m e => Some (s, Qred (inject_Z (Z.pos m) * (2 # 1) ^ e)%Q)
  | _ => None
  end.

(** The integer nearest to [q], the even one of two equally near. *)
Definition round_half_even (q : Q) : Z :=
  let n := Qfloor q in
  match (q - inject_Z n ?= 1 # 2)%Q with
  | Lt => n
  | Gt => (n + 1)%Z
  | Eq => if Z.even n then n else (n + 1)%Z
  end.

(** The digits of [n], in [width] places at least. *)
Definition zero_padded (width : nat) (n : Z) : string :=
  str_mul "0" (width - String.length (pretty n)) +:+ pretty n.

(** [format(x, ".Nf")]: the exact value of [x], rounded to [places] places. *)
Definition decimal_fixed (places : nat) (x : float) : string :=
  match float_parts x with
  | None => if is_nan x then "nan" else if (x <? 0)%float then "-inf" else "inf"
  | Some (sign, q) =>
      let scale := (10 ^ Z.of_nat places)%Z in
      let n := round_half_even (q * inject_Z scale)%Q in
      (if sign then "-" else "") +:+ pretty (n / scale)%Z +:+
      match places with
      | O => ""
      | S _ => "." +:+ zero_padded places (n mod scale)%Z
      end
  end.

(** Digits after the last one that is not a zero are dropped. *)
Fixpoint trim_zeros (s : string) : string :=
  match s with
  | EmptyString => EmptyString
  | String c s' =>
      match trim_zeros s' with
      | EmptyString => if (c =? "0")%char then EmptyString else String c EmptyString
      | t => String c t
      end
  end.

(** The least [j] from which [q * 10 ^ j] reaches [1]. *)
Fixpoint scale_up (fuel : nat) (q : Q) (j : Z) : Z :=
  match fuel with
  | O => j
  | S fuel' => if Qle_bool 1 q then j else scale_up fuel' (q * 10)%Q (j + 1)%Z
  end.

(** The place of the decimal point of [q > 0]: the [k] with
    [10 ^ (k - 1) <= q < 10 ^ k]. *)
Definition decimal_point (q : Q) : Z :=
  if Qle_bool 1 q then Z.of_nat (String.length (pretty (Qfloor q)))
  else (1 - scale_up 400 q 0)%Z.

(** [10 ^ k] for an integer [k] of either sign. *)
Definition pow10 (k : Z) : Q := ((10 # 1) ^ k)%Q.

(** The float nearest to [n * 10 ^ k]. *)
Definition read_decimal (n k : Z) : float :=
  if (0 <=? k)%Z
  then SF2Prim (SFdiv prec emax (int_operand (n * 10 ^ k)) (int_operand 1))
  else SF2Prim (SFdiv prec emax (int_operand n) (int_operand (10 ^ (- k)))).

(** The decimal of [digits] digits nearest to [q] that reads back as [x],
    if one of the two decimals next to [q] does: its digits as an integer,
    and the exponent of its last digit. *)
Definition decimal_of_length (x : float) (q : Q) (point : Z) (digits : nat)
  : option (Z * Z) :=
  let k := (point - Z.of_nat digits)%Z in
  let scaled := (q * pow10 (- k))%Q in
  let near := round_half_even scaled in
  let far := if (near =? Qfloor scaled)%Z then (Qfloor scaled + 1)%Z else Qfloor scaled in
  if (read_decimal near k =? x)%float then Some (near, k)
  else if (read_decimal far k =? x)%float then Some (far, k)
  else None.

(** The shortest decimal that reads back as [x]: of [digits] digits, or
    more when none of that length does, up to 17. *)
Fixpoint shortest_decimal (fuel : nat) (x : float) (q : Q) (point : Z) (digits : nat)
  : Z * Z :=
  match fuel with
  | O => (round_half_even (q * pow10 (Z.of_nat digits - point))%Q,
          (point - Z.of_nat digits)%Z)
  | S fuel' =>
      match decimal_of_length x q point digits with
      | Some d => d
      | None => shortest_decimal fuel' x q point (S digits)
      end
  end.

(** [repr] of a float of magnitude [q > 0]: the digits of its shortest
    decimal, with a decimal point, or with an exponent when the point is
    far from the digits. *)
Definition repr_positive (x : float) (q : Q) : string :=
  let '(n, k) := shortest_decimal 16 x q (decimal_point q) 1 in
  let digits := match trim_zeros (pretty n) with
                | EmptyString => "0"%string
                | t => t
                end in
  let len := Z.of_nat (String.length digits) in
  let point := (k + Z.of_nat (String.length (pretty n)))%Z in
  if (point <=? -4)%Z || (16 <? point)%Z then
    let e := (point - 1)%Z in
    String.substring 0 1 digits +:+
    (if (1 <? len)%Z then "." +:+ str_drop 1 digits else "") +:+
    "e" +:+ (if (e <? 0)%Z then "-" else "+") +:+ zero_padded 2 (Z.abs e)
  else if (point <=? 0)%Z then
    "0." +:+ str_mul "0" (Z.to_nat (- point)) +:+ digits
  else if (len <=? point)%Z then
    digits +:+ str_mul "0" (Z.to_nat (point - len)) +:+ ".0"
  else
    String.substring 0 (Z.to_nat point) digits +:+ "." +:+ str_drop (Z.to_nat point) digits.

(** [text] if it is a JSON number. *)
Definition as_number (text : string) : string :=
  if is_number text then text else "0.0"%string.

(** [repr(x)] *)
Definition decimal_repr (x : float) : string :=
  match float_parts x with
  | None => if is_nan x then "nan" else if (x <? 0)%float then "-inf" else "inf"
  | Some (sign, q) =>
      as_number ((if sign then "-" else "") +:+
                 (if Qeq_bool q 0 then "0.0" else repr_positive (abs x) q))
  end.

#[export] Instance decimal_text : FloatText :=
  {| float_repr := decimal_repr; float_fixed := decimal_fixed |}.

(* ===================================================================== *)
(** ** Further observations *)
(* ===================================================================== *)

(** The calls of [main] before the loop of [broadcast_actions]. *)
Definition session_startup (fps : Z) (host : string) (tcp_port : Z) : list event :=
  [EServe host tcp_port;
   EPrint ("WebSocket server started on ws://" +:+ host +:+ ":" +:+ pretty tcp_port);
   EPrint ("Streaming actions at " +:+ pretty fps +:+ " fps");
   EPrint (str_mul "-" 50);
   EActionFeatures].

(** How an [async with websockets.serve] block ends once its body has:
    the server is closed, the handlers of the connections still open end,
    and what closing raises replaces the outcome. *)
Definition serve_exit {A} (E : env) (o : outcome A) (tr : list event)
    (cs : gset client) (n : nat) : run A :=
  match o with
  | StillRunning => Run StillRunning tr cs
  | _ =>
      let closing := mapM handle_client (Closed <$> elements cs) (n + 1) cs in
      Run (match raises E n with Some e => Raised e | None => o end)
          (tr ++ EServeClose :: calls closing) (clients closing)
  end.

(** [E], with the call at position [n] raising [e]. *)
Definition failing_at (n : nat) (e : exn) (E : env) : env :=
  {| raises := λ k, if (k =? n)%nat then Some e else raises E k;
     action_at := action_at E; features_at := features_at E;
     clock_at := clock_at E; time_at := time_at E; send_error := send_error E; arrivals := arrivals E |}.

(** What a connection event does to the connected set. *)
Definition arrive (cs : gset client) (ev : conn_event) : gset client :=
  match ev with
  | Opened ws => {[ws]} ∪ cs
  | Closed ws => cs ∖ {[ws]}
  end.

(** A client whose connection was opened at some point. *)
Definition opened (E : env) (ws : client) : Prop := ∃ k, Opened ws ∈ arrivals E k.

(** A connected set of opened clients. *)
Definition known (E : env) (cs : gset client) : Prop := ∀ ws, ws ∈ cs → opened E ws.

(** [keeps E m]: run from a set of opened clients, [m] sends to opened
    clients only and leaves a set of opened clients. *)
Definition keeps (E : env) {A} (m : M A) : Prop :=
  ∀ i cs, known E cs →
          (∀ ws msg, (ws, msg) ∈ sends_of (calls (m i cs)) → opened E ws)
          ∧ known E (clients (m i cs)).

(** [E], with the connections [evs] opened and closed while the script is
    suspended at position [n]. *)
Definition arriving_at (n : nat) (evs : list conn_event) (E : env) : env :=
  {| raises := raises E; action_at := action_at E; features_at := features_at E;
     clock_at := clock_at E; time_at := time_at E; send_error := send_error E;
     arrivals := λ k, if (k =? n)%nat then evs else arrivals E k |}.

(** The environment [E] with another reading of [time.perf_counter]. *)
Definition with_clock (E : env) (f : nat → float) : env :=
  {| raises := raises E; action_at := action_at E; features_at := features_at E;
     clock_at := f; time_at := time_at E; send_error := send_error E; arrivals := arrivals E |}.

(** A printable ASCII character. *)
Definition printable (c : ascii) : bool :=
  (32 <=? N_of_ascii c)%N && (N_of_ascii c <=? 126)%N.

(** A text of printable ASCII characters: no control character, so no line
    break, and no character outside ASCII. *)
Fixpoint plain_text (s : string) : bool :=
  match s with
  | EmptyString => true
  | String c s' => printable c && plain_text s'
  end.

(** The calls of the event loop: a send, a gather, the server, a pause of
    [asyncio]. *)
Definition network_event (ev : event) : bool :=
  match ev with
  | ESend _ _ | EGather _ | EServe _ _ | EServeClose | EAsyncSleep _ => true
  | _ => false
  end.

(** The calls that would block the event loop or recalibrate the arm. *)
Definition blocking_event (ev : event) : bool :=
  match ev with
  | ETimeSleep _ | ECalibrate => true
  | _ => false
  end.

(** [time.perf_counter] tells the calls at the positions from [lo] and
    below [hi] apart: between two of them it measures a time that is not
    zero. *)
Definition advancing (E : env) (lo hi : nat) : Prop :=
  ∀ j k, (lo ≤ j)%nat → (j < k)%nat → (k < hi)%nat →
         (clock_at E k - clock_at E j =? 0)%float = false.

(* ===================================================================== *)
(** ** Facts about the built-ins *)
(* ===================================================================== *)

#[local] Arguments String.append !_ _ : simpl nomatch.

Section StrFacts.

Lemma str_app_assoc (a b c : string) : (a +:+ b) +:+ c = a +:+ (b +:+ c).
Proof. induction a as [|x a IH]; simpl; [done | by rewrite IH]. Qed.

Lemma str_app_nil_r (a : string) : a +:+ "" = a.
Proof. induction a as [|x a IH]; simpl; [done | by rewrite IH]. Qed.

Lemma str_length_app (a b : string) :
String.length (a +:+ b) = (String.length a + String.length b)%nat.
Proof. induction a as [|x a IH]; simpl; [done | by rewrite IH]. Qed.

Lemma str_drop_app (a b : string) : str_drop (String.length a) (a +:+ b) = b.
Proof. induction a as [|x a IH]; simpl; [by destruct b | done]. Qed.

Lemma replace_from_skip old new k s :
replace_from old new k s = replace_from old new 0 (str_drop k s).
Proof.
revert k. induction s as [|c s IH]; intros [|k]; simpl; auto.
Qed.

Lemma prefix_app (p s : string) : String.prefix p (p +:+ s) = true.
Proof.
induction p as [|c p IH]; simpl; [by destruct s |].
destruct (ascii_dec c c); [done | congruence].
Qed.

Lemma prefix_split (p s : string) :
String.prefix p s = true → s = p +:+ str_drop (String.length p) s.
Proof.
revert s. induction p as [|c p IH]; intros s Hp; simpl in *; [by destruct s |].
destruct s as [|d s]; simpl in *; [done |].
destruct (ascii_dec c d) as [->|]; [|done].
f_equal. by apply IH.
Qed.

End StrFacts.

Section JointName.
Import Teleop.

(** One step of the scan. *)
Lemma joint_name_cons c s :
joint_name (String c s) =
if String.prefix ".pos" (String c s) then joint_name (str_drop 3 s)
else String c (joint_name s).
Proof.
unfold joint_name, str_replace.
cbn [replace_from]. destruct (String.prefix ".pos" (String c s)); [|done].
cbn [String.length Nat.sub String.append]. apply replace_from_skip.
Qed.

Lemma joint_name_nil : joint_name "" = "".
Proof. done. Qed.

(** An occurrence of [.pos] cannot start inside another one: if [a] does not
  begin with [.pos], neither does [a] followed by [.pos]. *)
Lemma pos_no_overlap c a b :
String.prefix ".pos" (String c a) = false →
String.prefix ".pos" (String c (a +:+ ".pos" +:+ b)) = false.
Proof.
cbn [String.prefix]. destruct (ascii_dec "." c) as [<-|]; [|done].
destruct a as [|c2 a]; cbn [String.prefix String.append]; [done|].
destruct (ascii_dec "p" c2) as [<-|]; [|done].
destruct a as [|c3 a]; cbn [String.prefix String.append]; [done|].
destruct (ascii_dec "o" c3) as [<-|]; [|done].
destruct a as [|c4 a]; cbn [String.prefix String.append]; [done|].
destruct (ascii_dec "s" c4) as [<-|]; [|done].
by destruct a.
Qed.

Lemma joint_name_app_pos (a b : string) :
joint_name (a +:+ ".pos" +:+ b) = joint_name a +:+ joint_name b.
Proof.
remember (String.length a) as n eqn:Hn.
revert a Hn. induction n as [n IH] using lt_wf_ind. intros a ->.
destruct a as [|c a].
- change ("" +:+ ".pos" +:+ b) with (String "." ("pos" +:+ b)).
  rewrite joint_name_cons. cbn. by destruct b.
- change (String c a +:+ ".pos" +:+ b) with (String c (a +:+ ".pos" +:+ b)).
  rewrite !joint_name_cons.
  destruct (String.prefix ".pos" (String c a)) eqn:Hp.
  + apply prefix_split in Hp. cbn [String.length] in Hp.
    assert (Ha : a = "pos" +:+ str_drop 3 a).
    { destruct a as [|? [|? [|? ?]]]; cbn in Hp |- *; congruence. }
    assert (Hpre : String.prefix ".pos" (String c (a +:+ ".pos" +:+ b)) = true).
    { injection Hp as -> _. rewrite Ha. apply (prefix_app ".pos"). }
    rewrite Hpre.
    replace (str_drop 3 (a +:+ ".pos" +:+ b))
      with (str_drop 3 a +:+ ".pos" +:+ b).
    2:{ rewrite Ha at 2. done. }
    assert (Hlen : String.length a = (3 + String.length (str_drop 3 a))%nat).
    { rewrite Ha at 1. by rewrite str_length_app. }
    apply (IH (String.length (str_drop 3 a))); [|done].
    cbn [String.length]. lia.
  + rewrite (pos_no_overlap _ _ _ Hp). cbn. f_equal.
    apply (IH (String.length a)); [cbn; lia | done].
Qed.

End JointName.

Section MoreStr.
Import Teleop.

Lemma joint_name_id s : str_contains ".pos" s = false → joint_name s = s.
Proof.
induction s as [|c s IH]; [done|].
cbn [str_contains]. intros [Hp Hs]%orb_false_elim.
rewrite joint_name_cons, Hp. f_equal. auto.
Qed.

(** A name whose only [.pos] is its suffix loses exactly the suffix. *)
Lemma joint_name_suffix b :
str_contains ".pos" b = false → joint_name (b +:+ ".pos") = b.
Proof.
intros Hb. change (b +:+ ".pos") with (b +:+ ".pos" +:+ "").
rewrite joint_name_app_pos, (joint_name_id b Hb). apply str_app_nil_r.
Qed.

Lemma substring_app (a b : string) : String.substring 0 (String.length a) (a +:+ b) = a.
Proof.
induction a as [|c a IH]; simpl; [by destruct b | by rewrite IH].
Qed.

Lemma str_removesuffix_app (suffix b : string) :
str_removesuffix suffix (b +:+ suffix) = b.
Proof.
unfold str_removesuffix. rewrite str_length_app.
replace (String.length b + String.length suffix - String.length suffix)%nat
  with (String.length b) by lia.
rewrite str_drop_app, String.eqb_refl, substring_app.
by destruct (Nat.leb_spec (String.length suffix)
               (String.length b + String.length suffix)); [|lia].
Qed.

End MoreStr.

Section DictFacts.
Context {K V : Type} `{EqDecision K}.
Implicit Types (d : list (K * V)) (k : K) (v : V).

Lemma dict_get_set_eq k v d : dict_get k (dict_set k v d) = Some v.
Proof.
  induction d as [|[k' v'] d IH]; simpl.
  - by rewrite decide_True.
  - destruct (decide (k = k')) as [->|Hne]; simpl.
    + by rewrite decide_True.
    + by rewrite decide_False.
Qed.

Lemma dict_get_set_ne k k' v d : k' ≠ k → dict_get k' (dict_set k v d) = dict_get k' d.
Proof.
  intros Hne. induction d as [|[k2 v2] d IH]; simpl.
  - by rewrite decide_False.
  - destruct (decide (k = k2)) as [->|]; simpl.
    + by rewrite !decide_False.
    + destruct (decide (k' = k2)); auto.
Qed.

Lemma dict_keys_set k v d :
  dict_keys (dict_set k v d) =
  if decide (k ∈ dict_keys d) then dict_keys d else dict_keys d ++ [k].
Proof.
  unfold dict_keys. induction d as [|[k' v'] d IH]; simpl.
  - done.
  - destruct (decide (k = k')) as [->|Hne]; simpl.
    + rewrite decide_True; [done | left].
    + rewrite IH. destruct (decide (k ∈ map fst d)) as [Hin|Hnin].
      * rewrite decide_True; [done | by right].
      * rewrite decide_False; [done |].
        intros [?|?]%elem_of_cons; done.
Qed.

Lemma dict_set_NoDup k v d : NoDup (dict_keys d) → NoDup (dict_keys (dict_set k v d)).
Proof.
  intros Hd. rewrite dict_keys_set. case_decide; [done|].
  apply NoDup_app. split_and!; [done | | apply NoDup_singleton].
  intros x Hx ->%list_elem_of_singleton. done.
Qed.

Lemma dict_get_elem k v d : NoDup (dict_keys d) → (k, v) ∈ d → dict_get k d = Some v.
Proof.
  unfold dict_keys. induction d as [|[k' v'] d IH]; simpl.
  - by intros _ ?%elem_of_nil.
  - intros [Hk' Hd]%NoDup_cons [[= -> ->]|Hin]%elem_of_cons.
    + by rewrite decide_True.
    + rewrite decide_False; [by apply IH|].
      intros ->. apply Hk'. apply list_elem_of_fmap. by exists (k', v).
Qed.

Section Comp.
Context {X : Type} (key : X → K) (val : X → V).

Lemma dict_get_fold k xs d :
  dict_get k (fold_left (λ d x, dict_set (key x) (val x) d) xs d) =
  fold_left (λ acc x, if decide (key x = k) then Some (val x) else acc) xs (dict_get k d).
Proof.
  revert d. induction xs as [|x xs IH]; intros d; simpl; [done|].
  rewrite IH. f_equal.
  destruct (decide (key x = k)) as [<-|Hne].
  - apply dict_get_set_eq.
  - apply dict_get_set_ne. congruence.
Qed.

Lemma dict_get_comp k xs : dict_get k (dict_comp key val xs) = last_value key val k xs.
Proof. apply dict_get_fold. Qed.

Lemma dict_comp_NoDup xs : NoDup (dict_keys (dict_comp key val xs)).
Proof.
  unfold dict_comp.
  assert (Hgen : ∀ d, NoDup (dict_keys d) →
            NoDup (dict_keys (fold_left (λ d x, dict_set (key x) (val x) d) xs d))).
  { induction xs as [|x xs IH]; intros d Hd; simpl; [done|].
    apply IH. by apply dict_set_NoDup. }
  apply Hgen. constructor.
Qed.

Lemma last_value_app k xs ys :
  last_value key val k (xs ++ ys) =
  match last_value key val k ys with
  | Some v => Some v
  | None => last_value key val k xs
  end.
Proof.
  unfold last_value. rewrite fold_left_app.
  generalize (fold_left (λ acc x, if decide (key x = k) then Some (val x) else acc) xs None).
  induction ys as [|y ys IH]; intros acc; simpl; [done|].
  destruct (decide (key y = k)).
  - rewrite (IH (Some (val y))). by destruct (fold_left _ ys None).
  - apply IH.
Qed.

Lemma last_value_None k xs :
  (∀ x, x ∈ xs → key x ≠ k) → last_value key val k xs = None.
Proof.
  unfold last_value. induction xs as [|x xs IH]; intros Hall; simpl; [done|].
  rewrite decide_False by (apply Hall; left).
  apply IH. intros y Hy. apply Hall. by right.
Qed.

Lemma last_value_last k x xs ys :
  key x = k → (∀ y, y ∈ ys → key y ≠ k) →
  last_value key val k (xs ++ x :: ys) = Some (val x).
Proof.
  intros Hk Hys. rewrite last_value_app.
  change (x :: ys) with ([x] ++ ys). rewrite last_value_app.
  rewrite (last_value_None k ys Hys).
  unfold last_value. simpl. by rewrite decide_True.
Qed.

Lemma last_value_elem k xs v :
  last_value key val k xs = Some v → ∃ x, x ∈ xs ∧ key x = k ∧ val x = v.
Proof.
  induction xs as [|x xs IH] using rev_ind; [done|].
  rewrite last_value_app. unfold last_value at 1. simpl.
  destruct (decide (key x = k)) as [Hk|Hk].
  - intros [= <-]. exists x. split; [|done]. apply elem_of_app. right. left.
  - intros (y & Hy & Hky)%IH. exists y. split; [|done]. apply elem_of_app. by left.
Qed.

Lemma last_value_is_Some k xs :
  is_Some (last_value key val k xs) ↔ ∃ x, x ∈ xs ∧ key x = k.
Proof.
  induction xs as [|x xs IH] using rev_ind.
  - split; [by intros [? ?] | by intros (? & ?%elem_of_nil & _)].
  - rewrite last_value_app. unfold last_value at 1. simpl.
    destruct (decide (key x = k)) as [Hk|Hk].
    + split; [|by eauto]. intros _. exists x. split; [|done].
      apply elem_of_app. right. left.
    + rewrite IH. split.
      * intros (y & Hy & Hky). exists y. split; [|done]. apply elem_of_app. by left.
      * intros (y & [Hy| ->%list_elem_of_singleton]%elem_of_app & Hky); [eauto | done].
Qed.
End Comp.
End DictFacts.

Section Pace.

Lemma SFcompare_antisym x y : SFcompare y x = CompOpp <$> SFcompare x y.
Proof.
destruct x as [[]|[]| |[] m e], y as [[]|[]| |[] m' e']; try reflexivity;
  cbn; rewrite (Z.compare_antisym e e');
  destruct (e ?= e')%Z; cbn; try reflexivity.
all: change (PosDef.Pos.compare_cont Eq m' m) with (Pos.compare_cont (CompOpp Eq) m' m).
all: rewrite <- (Pos.compare_cont_antisym m m' Eq).
all: try done.
all: by destruct (Pos.compare_cont Eq m m').
Qed.

Lemma float_gt_asym a b : float_gt a b = true → float_gt b a = false.
Proof.
unfold float_gt. rewrite !ltb_spec. unfold SFltb.
rewrite (SFcompare_antisym (Prim2SF b) (Prim2SF a)).
by destruct (SFcompare (Prim2SF b) (Prim2SF a)) as [[]|].
Qed.

Lemma py_max_zero x : py_max 0 x = if float_gt x 0 then x else 0%float.
Proof. done. Qed.

Lemma py_max_not_negative x : float_gt 0 (py_max 0 x) = false.
Proof.
rewrite py_max_zero. destruct (float_gt x 0) eqn:Hx; [by apply float_gt_asym | done].
Qed.

Lemma float_overflow_large : (2 ≤ float_overflow)%Z.
Proof. by apply Z.leb_le; vm_compute. Qed.

Lemma int_truediv_one fps : fps ≠ 0%Z → int_truediv 1 fps = Ok (period fps).
Proof.
intros Hfps. unfold int_truediv.
destruct (Z.eqb_spec fps 0) as [|_]; [done|].
pose proof float_overflow_large as Hlarge.
destruct (Z.leb_spec (float_overflow * Z.abs fps) (Z.abs 1)) as [Hle|_]; [|done].
change (Z.abs 1) with 1%Z in Hle. nia.
Qed.

Lemma sleep_time_ok fps dt :
fps ≠ 0%Z → sleep_time fps dt = Ok (py_max 0 (period fps - dt)).
Proof. intros Hfps. unfold sleep_time. by rewrite int_truediv_one. Qed.

Lemma sleep_time_zero dt : sleep_time 0 dt = Raise ZeroDivisionError.
Proof. done. Qed.

(** A finite float minus itself is zero. *)
Lemma sub_diag_finite x : is_finite x = true → (x - x =? 0)%float = true.
Proof.
unfold is_finite, is_nan, is_infinity. rewrite !eqb_spec, abs_spec, sub_spec.
destruct (Prim2SF x) as [[]|[]| |s m e]; try done.
intros _. unfold SF64sub, SFsub. by rewrite Z.sub_diag.
Qed.

(** Rounding keeps the sign: what a negative integer rounds to is not
  above zero. *)
Lemma binary_normalize_negative p e :
SFltb (S754_zero false) (binary_normalize prec emax (Z.neg p) e false) = false.
Proof.
unfold binary_normalize, binary_round.
destruct (shl_align p e _) as [mz ez].
unfold binary_round_aux.
destruct (shr_fexp prec emax (Z.pos mz) ez loc_Exact) as [mrs e'].
destruct (shr_fexp _ _ _ e' loc_Exact) as [mrs' e''].
destruct (shr_m mrs'); [done| |done].
destruct (e'' <=? emax - prec)%Z; done.
Qed.

End Pace.

Section NumberText.
Context `{FloatText}.
Lemma float_json_cases x :
  float_json x = "NaN" ∨ float_json x = "Infinity" ∨ float_json x = "-Infinity"
  ∨ (is_finite x = true ∧ float_json x = float_repr x).
Proof.
  unfold float_json, is_finite, is_nan, is_infinity.
  destruct (x =? x)%float eqn:Hnan; [|by left].
  destruct (x =? infinity)%float eqn:Hinf; [by right; left|].
  destruct (x =? neg_infinity)%float eqn:Hninf; [by right; right; left|].
  right; right; right. split; [|done]. cbn.
  rewrite eqb_spec in *. rewrite abs_spec.
  change (Prim2SF infinity) with (S754_infinity false) in *.
  change (Prim2SF neg_infinity) with (S754_infinity true) in *.
  destruct (Prim2SF x) as [[]|[]| |[] m e]; unfold SFeqb, SFcompare, SFabs in *; try done.
Qed.

Lemma float_json_finite x : is_finite x = true → float_json x = float_repr x.
Proof.
  unfold float_json, is_finite, is_nan, is_infinity.
  rewrite !eqb_spec, abs_spec.
  change (Prim2SF infinity) with (S754_infinity false) in *.
  change (Prim2SF neg_infinity) with (S754_infinity true) in *.
  destruct (Prim2SF x) as [[]|[]| |[] m e] eqn:Hx; unfold SFeqb, SFcompare, SFabs; cbn; try done.
  all: match goal with |- context [negb (negb ?b || _)] => by destruct b end.
Qed.
End NumberText.

Section Signs.

(** What rounding gives has the sign it was given, or is not a number. *)
Lemma binary_round_aux_sign sx mx ex lx :
match binary_round_aux prec emax sx mx ex lx with
| S754_zero s | S754_infinity s | S754_finite s _ _ => s = sx
| S754_nan => True
end.
Proof.
unfold binary_round_aux.
destruct (shr_fexp prec emax mx ex lx) as [mrs e'].
destruct (shr_fexp _ _ _ e' loc_Exact) as [mrs' e''].
destruct (shr_m mrs'); [done| |done].
by destruct (e'' <=? emax - prec)%Z.
Qed.

Lemma binary_round_sign sx mx ex :
match binary_round prec emax sx mx ex with
| S754_zero s | S754_infinity s | S754_finite s _ _ => s = sx
| S754_nan => True
end.
Proof.
unfold binary_round. destruct (shl_align mx ex _) as [mz ez].
apply binary_round_aux_sign.
Qed.

(** The float of a magnitude is not below zero. *)
Lemma magnitude_not_below m e :
SFltb (Prim2SF (Z.ldexp (of_uint63 (Uint63.of_Z (Z.pos m))) e)) (S754_zero false) = false.
Proof.
rewrite Z_ldexp_spec, of_uint63_spec.
pose proof (Uint63.to_Z_bounded (Uint63.of_Z (Z.pos m))) as [Hpos _].
destruct (Uint63.to_Z (Uint63.of_Z (Z.pos m))) as [|n|n]; [done| |lia].
unfold binary_normalize.
pose proof (binary_round_sign false n 0) as Hn.
destruct (binary_round prec emax false n 0) as [s|s| |s m' e']; try subst s; try done.
unfold SFldexp.
pose proof (binary_round_sign false m' (e' + e)) as Hm.
by destruct (binary_round prec emax false m' (e' + e)) as [s|s| |s m'' e'']; try subst s.
Qed.

(** For a negative [fps], [1 / fps] is not above zero. *)
Lemma period_not_positive fps : (fps < 0)%Z → float_gt (period fps) 0 = false.
Proof.
destruct fps as [|p|p]; [lia..|]. intros _.
unfold float_gt, period. rewrite ltb_spec.
change (Prim2SF 0) with (S754_zero false).
unfold int_operand, SFdiv.
destruct (SFdiv_core_binary prec emax 1 0 (Z.pos p) 0) as [[mz ez] lz].
pose proof (binary_round_aux_sign (xorb false true) mz ez lz) as Hsign.
destruct (binary_round_aux prec emax (xorb false true) mz ez lz) as [s|s| |s m e];
  try subst s; try done.
unfold SF2Prim. cbn [xorb]. rewrite opp_spec.
pose proof (magnitude_not_below m e) as Hm.
by destruct (Prim2SF (Z.ldexp _ e)) as [[]|[]| |[] m' e'].
Qed.

(** A float not above zero minus a float not below zero is not above
  zero. *)
Lemma sub_not_positive a b :
float_gt a 0 = false → float_gt 0 b = false → float_gt (a - b) 0 = false.
Proof.
unfold float_gt. rewrite !ltb_spec, sub_spec.
change (Prim2SF 0) with (S754_zero false).
destruct (Prim2SF a) as [sa|[]| |[] ma ea], (Prim2SF b) as [sb|[]| |[] mb eb];
  try done; try (by destruct sa); try (by destruct sb); try (by destruct sa, sb).
intros _ _. unfold SF64sub, SFsub. cbn [cond_Zopp].
change (Z.neg ?x - Z.pos ?y)%Z with (Z.neg (x + y)).
apply binary_normalize_negative.
Qed.

(** With a negative [fps] and an elapsed time not below zero the pause is
  zero. *)
Lemma no_pause fps dt d :
(fps < 0)%Z → float_gt 0 dt = false → sleep_time fps dt = Ok d → float_gt d 0 = false.
Proof.
intros Hfps Hdt. rewrite sleep_time_ok by lia. intros [= <-].
rewrite py_max_zero.
by rewrite (sub_not_positive _ _ (period_not_positive fps Hfps) Hdt).
Qed.

Lemma sleep_time_raise fps dt e :
sleep_time fps dt = Raise e → fps = 0%Z ∧ e = ZeroDivisionError.
Proof.
destruct (decide (fps = 0%Z)) as [->|Hfps].
- rewrite sleep_time_zero. by intros [= <-].
- by rewrite sleep_time_ok.
Qed.

End Signs.

(* ===================================================================== *)
(** ** Reading back what [json.dumps] writes *)
(* ===================================================================== *)

Section Strings.

(** Reading back one escaped character. *)
Lemma scan_string_escape_char c s :
  scan_string (escape_char c +:+ s) =
  match scan_string s with
  | Some (str, r) => Some (String c str, r)
  | None => None
  end.
Proof.
  destruct c as [[] [] [] [] [] [] [] []]; reflexivity.
Qed.

Lemma scan_string_escape s rest :
  scan_string (escape s +:+ String quote rest) = Some (s, rest).
Proof.
  induction s as [|c s IH]; [done|].
  cbn [escape]. rewrite str_app_assoc, scan_string_escape_char, IH. done.
Qed.

Lemma skip_ws_id c s : is_ws c = false → skip_ws (String c s) = String c s.
Proof. intros Hc. cbn. by rewrite Hc. Qed.

End Strings.

Section Numbers.
Implicit Types (s rest : string).

Lemma number_end_digit c rest : number_end (String c rest) = true → is_digit c = false.
Proof.
  cbn. unfold continues_number. intros Hc%negb_true_iff.
  by repeat apply orb_false_elim in Hc as [Hc _].
Qed.

Lemma number_end_char c rest (d : ascii) :
  number_end (String c rest) = true →
  continues_number d = true → (c =? d)%char = false.
Proof.
  cbn. intros Hc%negb_true_iff Hd.
  destruct (Ascii.eqb_spec c d) as [->|]; [congruence | done].
Qed.

Lemma span_digits_app s rest :
  number_end rest = true →
  span_digits (s +:+ rest) = ((span_digits s).1, (span_digits s).2 +:+ rest).
Proof.
  intros Hrest. induction s as [|c s IH]; cbn.
  - destruct rest as [|c rest]; [done|]. cbn. by rewrite (number_end_digit c rest).
  - destruct (is_digit c); [by rewrite IH | done].
Qed.

Lemma span_digits_split s : s = (span_digits s).1 +:+ (span_digits s).2.
Proof.
  induction s as [|c s IH]; cbn; [done|].
  destruct (is_digit c); cbn; [by rewrite <- IH | done].
Qed.

Lemma scan_int_app s rest :
  number_end rest = true →
  scan_int (s +:+ rest) = (λ lr, (lr.1, lr.2 +:+ rest)) <$> scan_int s.
Proof.
  intros Hrest. destruct s as [|c s]; cbn.
  - destruct rest as [|c rest]; [done|]. cbn.
    rewrite (number_end_digit c rest Hrest).
    by rewrite (number_end_char c rest "0" Hrest).
  - destruct (c =? "0")%char; [done|].
    destruct (is_digit c); [|done]. cbn. by rewrite span_digits_app.
Qed.

Lemma scan_frac_app s rest :
  number_end rest = true →
  scan_frac (s +:+ rest) = ((scan_frac s).1, (scan_frac s).2 +:+ rest).
Proof.
  intros Hrest. destruct s as [|c s]; cbn.
  - destruct rest as [|c rest]; [done|]. cbn.
    by rewrite (number_end_char c rest "." Hrest).
  - destruct (c =? ".")%char; [|done].
    rewrite span_digits_app by done. cbn.
    by destruct (span_digits s).1.
Qed.

Lemma scan_sign_app s rest :
  number_end rest = true →
  scan_sign (s +:+ rest) = ((scan_sign s).1, (scan_sign s).2 +:+ rest).
Proof.
  intros Hrest. destruct s as [|c s]; cbn.
  - destruct rest as [|c rest]; [done|]. cbn.
    by rewrite (number_end_char c rest "+" Hrest), (number_end_char c rest "-" Hrest).
  - by destruct ((c =? "+")%char || (c =? "-")%char).
Qed.

Lemma scan_exp_app s rest :
  number_end rest = true →
  scan_exp (s +:+ rest) = ((scan_exp s).1, (scan_exp s).2 +:+ rest).
Proof.
  intros Hrest. destruct s as [|c s]; cbn.
  - destruct rest as [|c rest]; [done|]. cbn.
    by rewrite (number_end_char c rest "e" Hrest), (number_end_char c rest "E" Hrest).
  - destruct ((c =? "e")%char || (c =? "E")%char); [|done].
    rewrite scan_sign_app by done. cbn.
    rewrite span_digits_app by done. cbn.
    by destruct (span_digits (scan_sign s).2).1.
Qed.

Lemma scan_number_app s rest :
  number_end rest = true →
  scan_number (s +:+ rest) = (λ lr, (lr.1, lr.2 +:+ rest)) <$> scan_number s.
Proof.
  intros Hrest. unfold scan_number.
  assert (Hsign :
    (match s +:+ rest with
     | String c s' => if (c =? "-")%char then (String c EmptyString, s') else (EmptyString, s +:+ rest)
     | EmptyString => (EmptyString, s +:+ rest)
     end)
    = ((match s with
        | String c s' => if (c =? "-")%char then (String c EmptyString, s') else (EmptyString, s)
        | EmptyString => (EmptyString, s)
        end).1,
       (match s with
        | String c s' => if (c =? "-")%char then (String c EmptyString, s') else (EmptyString, s)
        | EmptyString => (EmptyString, s)
        end).2 +:+ rest)).
  { destruct s as [|c s]; cbn.
    - destruct rest as [|c rest]; [done|].
      cbn. by rewrite (number_end_char c rest "-" Hrest).
    - by destruct (c =? "-")%char. }
  rewrite Hsign. cbn [fst snd].
  rewrite scan_int_app by done.
  destruct (scan_int _) as [[ip s2]|]; [|done]. cbn.
  rewrite scan_frac_app by done. cbn.
  by rewrite scan_exp_app by done.
Qed.

Lemma scan_int_split s l r : scan_int s = Some (l, r) → s = l +:+ r.
Proof.
  destruct s as [|c s]; cbn; [done|].
  destruct (Ascii.eqb_spec c "0") as [->|]; [by intros [= <- <-]|].
  destruct (is_digit c); [|done]. intros [= <- <-]. cbn.
  by rewrite <- span_digits_split.
Qed.

Lemma scan_frac_split s : s = (scan_frac s).1 +:+ (scan_frac s).2.
Proof.
  destruct s as [|c s]; cbn; [done|].
  destruct (c =? ".")%char; [|done].
  pose proof (span_digits_split s) as Hs.
  destruct (span_digits s).1 eqn:Hd; cbn in *; [done | congruence].
Qed.

Lemma scan_sign_split s : s = (scan_sign s).1 +:+ (scan_sign s).2.
Proof.
  destruct s as [|c s]; cbn; [done|].
  by destruct ((c =? "+")%char || (c =? "-")%char).
Qed.

Lemma scan_exp_split s : s = (scan_exp s).1 +:+ (scan_exp s).2.
Proof.
  destruct s as [|c s]; cbn; [done|].
  destruct ((c =? "e")%char || (c =? "E")%char); [|done].
  pose proof (span_digits_split (scan_sign s).2) as Hs.
  pose proof (scan_sign_split s) as Hg.
  destruct (span_digits (scan_sign s).2).1 eqn:Hd; cbn; [done|].
  f_equal. rewrite str_app_assoc. rewrite <- Hs. exact Hg.
Qed.

Lemma scan_number_split s l r : scan_number s = Some (l, r) → s = l +:+ r.
Proof.
  unfold scan_number.
  set (sg := match s with
             | String c s' => if (c =? "-")%char then (String c EmptyString, s') else (EmptyString, s)
             | EmptyString => (EmptyString, s)
             end).
  assert (Hsg : s = sg.1 +:+ sg.2).
  { subst sg. destruct s as [|c s]; [done|].
    destruct (Ascii.eqb_spec c "-") as [->|]; done. }
  destruct (scan_int sg.2) as [[ip s2]|] eqn:Hint; [|done].
  intros [= <- <-]. apply scan_int_split in Hint.
  rewrite Hsg, Hint, (scan_frac_split s2) at 1.
  rewrite (scan_exp_split (scan_frac s2).2) at 1.
  by rewrite !str_app_assoc.
Qed.

(** A JSON number is read back whole when what follows cannot carry it on. *)
Lemma scan_number_lexeme lexeme rest :
  is_number lexeme = true → number_end rest = true →
  scan_number (lexeme +:+ rest) = Some (lexeme, rest).
Proof.
  unfold is_number. intros Hnum Hrest. rewrite scan_number_app by done.
  destruct (scan_number lexeme) as [[l [|? ?]]|] eqn:Hscan; [|done..].
  apply scan_number_split in Hscan. rewrite str_app_nil_r in Hscan. by subst l.
Qed.

Lemma is_number_head lexeme :
  is_number lexeme = true →
  ∃ c s, lexeme = String c s ∧ (is_digit c = true ∨ c = "-"%char).
Proof.
  unfold is_number, scan_number. destruct lexeme as [|c s]; [done|]. intros Hnum.
  exists c, s. split; [done|].
  destruct (Ascii.eqb_spec c "-") as [->|Hc]; [by right|]. left.
  cbn in Hnum. destruct (c =? "0")%char eqn:H0.
  - by apply Ascii.eqb_eq in H0 as ->.
  - by destruct (is_digit c).
Qed.
End Numbers.

Section Reader.
Context `{FloatJson}.

Lemma json_ind' (P : json → Prop) :
  (∀ x, P (JFloat x)) →
  (∀ s, P (JString s)) →
  (∀ members, Forall (λ kv, P kv.2) members → P (JObject members)) →
  ∀ j, P j.
Proof.
  intros Hf Hs Ho. fix IH 1. intros [x|s|members]; [apply Hf | apply Hs |].
  apply Ho. revert members. fix IHms 1. intros [|kv members].
  - constructor.
  - constructor; [apply IH | apply IHms].
Qed.

(** More fuel reads the same. *)
Lemma parse_mono n :
  (∀ m s x, (n ≤ m)%nat → parse_value n s = Some x → parse_value m s = Some x)
  ∧ (∀ m s y, (n ≤ m)%nat → parse_members n s = Some y → parse_members m s = Some y).
Proof.
  induction n as [|n [IHv IHm]]; [done|].
  split; intros [|m] s r Hle; try lia; cbn [parse_value parse_members]; intros Hp.
  - destruct s as [|c s]; [done|].
    destruct (c =? "{")%char; [|done].
    destruct (skip_ws s) as [|d s'']; [done|].
    destruct (d =? "}")%char; [done|].
    destruct (parse_members n (String d s'')) as [[ms r']|] eqn:Hms; [|done].
    by rewrite (IHm m _ _ ltac:(lia) Hms).
  - destruct s as [|c s]; [done|].
    destruct (c =? quote)%char; [|done].
    destruct (scan_string s) as [[key r0]|]; [|done].
    destruct (skip_ws r0) as [|d r']; [done|].
    destruct (d =? ":")%char; [|done].
    destruct (parse_value n (skip_ws r')) as [[v r'']|] eqn:Hv; [|done].
    rewrite (IHv m _ _ ltac:(lia) Hv).
    destruct (skip_ws r'') as [|e t]; [done|].
    destruct (e =? ",")%char; [|done].
    destruct (parse_members n (skip_ws t)) as [[ms u]|] eqn:Hms; [|done].
    by rewrite (IHm m _ _ ltac:(lia) Hms).
Qed.

Lemma parse_value_mono n m s x :
  (n ≤ m)%nat → parse_value n s = Some x → parse_value m s = Some x.
Proof. apply parse_mono. Qed.

Lemma parse_members_mono n m s y :
  (n ≤ m)%nat → parse_members n s = Some y → parse_members m s = Some y.
Proof. apply parse_mono. Qed.

Lemma is_digit_not_ws c : is_digit c = true → is_ws c = false.
Proof. by destruct c as [[] [] [] [] [] [] [] []]. Qed.

(** The text of a value starts with a character that is no white space, and
    is neither the quote nor a brace when the value is a number. *)
Lemma dumps_head j : ∃ c s, dumps j = String c s ∧ is_ws c = false.
Proof.
  destruct j as [x|s|members]; cbn.
  - destruct (float_json_cases x) as [-> | [-> | [-> | [Hx ->]]]];
      [by eexists _, _ .. |].
    destruct (is_number_head _ (float_repr_number x Hx)) as (c & s & -> & [Hc| ->]).
    + exists c, s. split; [done | by apply is_digit_not_ws].
    + by eexists _, _.
  - by eexists _, _.
  - by eexists _, _.
Qed.

Lemma skip_ws_dumps j rest : skip_ws (dumps j +:+ rest) = dumps j +:+ rest.
Proof.
  destruct (dumps_head j) as (c & s & -> & Hc). cbn. by rewrite Hc.
Qed.

Lemma number_not_open x s :
  is_finite x = true →
  ∃ c t, float_repr x +:+ s = String c t
         ∧ (c =? "{")%char = false ∧ (c =? quote)%char = false.
Proof.
  intros Hx.
  destruct (is_number_head _ (float_repr_number x Hx)) as (c & t & -> & [Hc| ->]).
  - exists c, (t +:+ s). split; [done|].
    by destruct c as [[] [] [] [] [] [] [] []].
  - by eexists _, _.
Qed.

(** One member, followed by a comma or by the closing brace. *)
Lemma parse_members_step n kv e t :
  reads_back kv.2 → (fuel_of kv.2 ≤ n)%nat →
  number_end (String e t) = true → is_ws e = false →
  parse_members (S n) (member_text kv +:+ String e t) =
  if (e =? ",")%char then
    match parse_members n (skip_ws t) with
    | Some (ms, u) => Some ((kv.1, tree_of kv.2) :: ms, u)
    | None => None
    end
  else if (e =? "}")%char then Some ([(kv.1, tree_of kv.2)], t)
  else None.
Proof.
  intros Hv Hn Hend Hws. unfold member_text, encode_string.
  cbn [String.append]. rewrite !str_app_assoc. cbn [String.append parse_members].
  rewrite Ascii.eqb_refl, scan_string_escape.
  cbn [String.append skip_ws]. change (is_ws ":") with false. cbv iota.
  change (":" =? ":")%char with true. cbv iota.
  change (skip_ws (String " " ?x)) with (skip_ws x).
  rewrite skip_ws_dumps.
  rewrite (parse_value_mono _ n _ _ Hn (Hv (String e t) Hend)).
  cbn [skip_ws]. by rewrite Hws.
Qed.

Lemma members_text_head kv ms rest :
  ∃ s, str_join ", " (map member_text (kv :: ms)) +:+ rest = String quote s.
Proof.
  unfold str_join. cbn [map String.concat]. destruct (map member_text ms); by eexists.
Qed.

Lemma str_join_two sep (x y : string) l :
  str_join sep (x :: y :: l) = x +:+ sep +:+ str_join sep (y :: l).
Proof. done. Qed.

Lemma parse_members_dumps ms rest :
  Forall (λ kv, reads_back kv.2) ms → ms ≠ [] →
  parse_members (list_sum (map (λ kv, S (fuel_of kv.2)) ms))
    (str_join ", " (map member_text ms) +:+ "}" +:+ rest)
  = Some (map (λ kv, (kv.1, tree_of kv.2)) ms, rest).
Proof.
  induction ms as [|kv ms IH]; [done|]. intros [Hkv Hms]%Forall_cons _.
  destruct ms as [|kv' ms].
  - unfold str_join. cbn [map String.concat].
    change (list_sum [?a]) with (a + 0)%nat. cbn [Nat.add].
    change ("}" +:+ rest) with (String "}" rest).
    rewrite parse_members_step; [done | done | lia | done | done].
  - change (map member_text (kv :: kv' :: ms))
      with (member_text kv :: member_text kv' :: map member_text ms).
    rewrite str_join_two.
    change (member_text kv' :: map member_text ms) with (map member_text (kv' :: ms)).
    change (list_sum (map ?f (kv :: kv' :: ms)))
      with (S (fuel_of kv.2 + list_sum (map f (kv' :: ms)))).
    rewrite !str_app_assoc.
    change (", " +:+ ?x) with (String "," (String " " x)).
    rewrite parse_members_step; [| done | lia | done | done].
    change ("," =? ",")%char with true. cbv iota.
    change (skip_ws (String " " ?x)) with (skip_ws x).
    destruct (members_text_head kv' ms ("}" +:+ rest)) as [s Hs].
    rewrite Hs. change (skip_ws (String quote s)) with (String quote s). rewrite <- Hs.
    pose proof (IH Hms ltac:(done)) as Hrec.
    eapply (parse_members_mono _ (fuel_of kv.2 + _)) in Hrec; [by rewrite Hrec | lia].
Qed.

Lemma dumps_object members :
  dumps (JObject members) = "{" +:+ str_join ", " (map member_text members) +:+ "}".
Proof. done. Qed.

Lemma parse_value_dumps j : reads_back j.
Proof.
  induction j as [x|s|members IH] using json_ind'; intros rest Hrest.
  - cbn [fuel_of dumps tree_of parse_value].
    destruct (float_json_cases x) as [-> | [-> | [-> | [Hfin ->]]]];
      [by destruct rest; vm_compute.. |].
    destruct (number_not_open x rest Hfin) as (c & t & Heq & Hc1 & Hc2).
    rewrite Heq, Hc1, Hc2, <- Heq.
    by rewrite (scan_number_lexeme _ _ (float_repr_number x Hfin) Hrest).
  - cbn [fuel_of dumps tree_of parse_value]. unfold encode_string.
    cbn [String.append]. change ((quote =? "{")%char) with false. cbv iota.
    rewrite Ascii.eqb_refl, str_app_assoc. cbn [String.append].
    by rewrite scan_string_escape.
  - rewrite dumps_object.
    change (fuel_of (JObject members))
      with (S (list_sum (map (λ kv, S (fuel_of kv.2)) members))).
    change (tree_of (JObject members))
      with (TObject (map (λ kv, (kv.1, tree_of kv.2)) members)).
    rewrite !str_app_assoc. change ("{" +:+ ?x) with (String "{" x).
    cbn [parse_value]. change (("{" =? "{")%char) with true. cbv iota.
    destruct members as [|kv members]; [done|].
    destruct (members_text_head kv members ("}" +:+ rest)) as [s Hs].
    rewrite Hs. change (skip_ws (String quote s)) with (String quote s).
    change ((quote =? "}")%char) with false. cbv iota. rewrite <- Hs.
    by rewrite parse_members_dumps.
Qed.

Lemma str_join_length (texts : list string) (sizes : list nat) :
  Forall2 (λ t n, (n ≤ String.length t)%nat) texts sizes →
  (list_sum sizes ≤ String.length (str_join ", " texts))%nat.
Proof.
  induction 1 as [|t n texts sizes Ht Hrest IH]; [done|].
  change (list_sum (n :: sizes)) with (n + list_sum sizes)%nat.
  destruct Hrest as [|t' n' texts sizes Ht' Hrest].
  - cbn. lia.
  - rewrite str_join_two, !str_length_app. cbn [String.length]. lia.
Qed.

Lemma fuel_of_length j : (fuel_of j ≤ String.length (dumps j))%nat.
Proof.
  induction j as [x|s|members IH] using json_ind'.
  - destruct (dumps_head (JFloat x)) as (c & s & -> & _). cbn. lia.
  - cbn. lia.
  - rewrite dumps_object, !str_length_app.
    change (fuel_of (JObject members))
      with (S (list_sum (map (λ kv, S (fuel_of kv.2)) members))).
    assert (list_sum (map (λ kv, S (fuel_of kv.2)) members)
            ≤ String.length (str_join ", " (map member_text members)))%nat; [|cbn; lia].
    apply str_join_length, Forall2_fmap, Forall2_same_length_lookup_2.
    { done. }
    intros i kv kv' Hkv Hkv'. simplify_eq.
    unfold member_text. rewrite !str_length_app.
    pose proof (proj1 (Forall_lookup _ _) IH i kv Hkv) as Hle. cbn in *. lia.
Qed.

(** Reading back what [json.dumps] wrote gives the tree of the value. *)
Lemma loads_dumps j : loads (dumps j) = Some (tree_of j).
Proof.
  unfold loads.
  pose proof (skip_ws_dumps j "") as Hws. rewrite str_app_nil_r in Hws. rewrite Hws.
  pose proof (parse_value_dumps j "" eq_refl) as Hread.
  rewrite str_app_nil_r in Hread.
  apply (parse_value_mono _ (S (String.length (dumps j)))) in Hread.
  - by rewrite Hread.
  - pose proof (fuel_of_length j). lia.
Qed.
End Reader.

Lemma decimal_repr_number x : is_finite x = true → is_number (decimal_repr x) = true.
Proof.
  unfold decimal_repr, float_parts, is_finite, is_nan, is_infinity.
  rewrite !eqb_spec, abs_spec.
  destruct (Prim2SF x) as [[]|[]| |s m e] eqn:Hx; try done; intros _; unfold as_number;
  match goal with
  | |- context [if is_number ?t then _ else _] => destruct (is_number t) eqn:Hnumber
  end; done.
Qed.

#[export] Instance decimal_json : FloatJson := decimal_repr_number.

(* ===================================================================== *)
(** ** Runs of the blocks of the script *)
(* ===================================================================== *)

Section Runs.
Context `{FloatText} (E : env).

Lemma prints_only_omap {B} (f : event → option B) tr :
  (∀ line, f (EPrint line) = None) → prints_only tr → omap f tr = [].
Proof.
  intros Hf. induction 1 as [|ev tr [line ->] _ IH]; simpl; [done|].
  by rewrite Hf.
Qed.

Lemma run_eta {A} (r : run A) : r = Run (out r) (calls r) (clients r).
Proof. by destruct r. Qed.

Lemma bind_returned {A B} (m : M A) (k : A → M B) i cs a :
  out (m i cs) = Returned a →
  (m ≫= k) i cs =
  match k a (i + List.length (calls (m i cs))) (clients (m i cs)) with
  | Run o tr cs' => Run o (calls (m i cs) ++ tr) cs'
  end.
Proof.
  intros Hm. unfold mbind, M_bind. destruct (m i cs) as [o tr c].
  cbn in *. by subst o.
Qed.

Lemma bind_raised {A B} (m : M A) (k : A → M B) i cs e :
  out (m i cs) = Raised e →
  (m ≫= k) i cs = Run (Raised e) (calls (m i cs)) (clients (m i cs)).
Proof.
  intros Hm. unfold mbind, M_bind. destruct (m i cs) as [o tr c].
  cbn in *. by subst o.
Qed.

Lemma bind_running {A B} (m : M A) (k : A → M B) i cs :
  out (m i cs) = StillRunning →
  (m ≫= k) i cs = Run StillRunning (calls (m i cs)) (clients (m i cs)).
Proof.
  intros Hm. unfold mbind, M_bind. destruct (m i cs) as [o tr c].
  cbn in *. by subst o.
Qed.

Lemma handle_client_out ev j cs : out (handle_client ev j cs) = Returned tt.
Proof.
  destruct ev as [ws|ws];
    unfold handle_client, mbind, M_bind, mret, M_ret, get_clients, set_clients, log;
    cbn; [done|].
  by destruct (decide (ws ∈ cs)).
Qed.

Lemma handle_client_prints ev j cs : prints_only (calls (handle_client ev j cs)).
Proof.
  destruct ev as [ws|ws];
    unfold handle_client, mbind, M_bind, mret, M_ret, get_clients, set_clients, log;
    cbn.
  - repeat constructor. eauto.
  - destruct (decide (ws ∈ cs)); cbn.
    + repeat constructor. eauto.
    + constructor.
Qed.

Lemma mapM_handle_client evs j cs :
  (∃ us, out (mapM handle_client evs j cs) = Returned us)
  ∧ prints_only (calls (mapM handle_client evs j cs)).
Proof.
  revert j cs. induction evs as [|ev evs IH]; intros j cs.
  - split; [by eexists | constructor].
  - cbn [mapM].
    rewrite (bind_returned _ _ _ _ tt (handle_client_out ev j cs)).
    destruct (IH (j + List.length (calls (handle_client ev j cs)))
                (clients (handle_client ev j cs))) as [[us Hus] Hpr].
    rewrite (bind_returned _ _ _ _ us Hus). cbn.
    split; [by eexists|].
    rewrite app_nil_r. apply Forall_app. split; [apply handle_client_prints | done].
Qed.

Lemma suspended_out k j cs : out (suspended E k j cs) = Returned tt.
Proof.
  unfold suspended.
  destruct (mapM_handle_client (arrivals E k) j cs) as [[us Hus] _].
  by rewrite (bind_returned _ _ _ _ us Hus).
Qed.

Lemma suspended_prints k j cs : prints_only (calls (suspended E k j cs)).
Proof.
  unfold suspended.
  destruct (mapM_handle_client (arrivals E k) j cs) as [[us Hus] Hpr].
  rewrite (bind_returned _ _ _ _ us Hus). cbn. by rewrite app_nil_r.
Qed.

(** The handlers that end when the server closes. *)
Lemma closing_out j cs :
  ∃ us, out (mapM handle_client (Closed <$> elements cs) j cs) = Returned us.
Proof. apply mapM_handle_client. Qed.

Lemma closing_prints j cs :
  prints_only (calls (mapM handle_client (Closed <$> elements cs) j cs)).
Proof. apply mapM_handle_client. Qed.

Lemma check_run k j cs :
  check E k j cs =
  Run (match raises E k with Some e => Raised e | None => Returned tt end) [] cs.
Proof. unfold check. by destruct (raises E k). Qed.

(** Closing the server: the call, then the end of the handlers; what the
    call raises comes out after them. *)
Lemma serve_close_run j cs :
  serve_close E j cs =
  Run (match raises E j with Some e => Raised e | None => Returned tt end)
      (EServeClose :: calls (mapM handle_client (Closed <$> elements cs) (j + 1) cs))
      (clients (mapM handle_client (Closed <$> elements cs) (j + 1) cs)).
Proof.
  unfold serve_close, mbind, M_bind, log, get_clients. cbn. rewrite Nat.add_0_r.
  destruct (closing_out (j + 1) cs) as [us Hus].
  destruct (mapM handle_client _ (j + 1) cs) as [o tr c]. cbn in Hus. subst o. cbn.
  unfold check. destruct (raises E j); cbn; by rewrite ?app_nil_r.
Qed.

Lemma call_run ev j cs :
  call E ev j cs =
  Run (match raises E j with Some e => Raised e | None => Returned j end) [ev] cs.
Proof.
  unfold call, mbind, M_bind, log. rewrite check_run. cbn.
  by destruct (raises E j).
Qed.

Lemma send_run ws msg j cs :
  send E ws msg j cs = Run (Returned (Error <$> send_error E j)) [ESend ws msg] cs.
Proof. done. Qed.

Lemma send_all_run msg l j cs :
  ∃ rs, mapM (λ task : M (option exn), task) ((λ ws, send E ws msg) <$> l) j cs
        = Run (Returned rs) (map (λ ws, ESend ws msg) l) cs.
Proof.
  revert j. induction l as [|ws l IH]; intros j.
  - by eexists.
  - cbn [fmap list_fmap mapM].
    rewrite (bind_returned (send E ws msg) _ j cs (Error <$> send_error E j) eq_refl).
    rewrite send_run. cbn [calls clients List.length].
    destruct (IH (j + 1)%nat) as [rs Hrs].
    rewrite (bind_returned _ _ _ _ rs) by (by rewrite Hrs).
    rewrite Hrs. cbn. rewrite app_nil_r. by eexists.
Qed.

(** The run of [gather] over the sends of one message: every send is
    started, then the loop is suspended; only an interruption of the wait
    ends it by an exception. *)
Lemma gather_sends_run msg l j cs :
  let g := (j + List.length l)%nat in
  ∃ rs, gather E true ((λ ws, send E ws msg) <$> l) j cs
        = Run (match raises E g with Some e => Raised e | None => Returned rs end)
              (map (λ ws, ESend ws msg) l
               ++ EGather (List.length l) :: calls (suspended E g (S g) cs))
              (clients (suspended E g (S g) cs)).
Proof.
  intros g. unfold gather.
  destruct (send_all_run msg l j cs) as [rs Hrs]. exists rs.
  rewrite (bind_returned _ _ _ _ rs) by (by rewrite Hrs).
  rewrite Hrs. cbn [calls clients].
  rewrite length_map, length_fmap. fold g.
  unfold mbind, M_bind, mret, M_ret, log. cbn.
  replace (g + 1)%nat with (S g) by lia.
  pose proof (suspended_out g (S g) cs) as Ho.
  destruct (suspended E g (S g) cs) as [o tr c]. cbn in Ho. subst o.
  rewrite check_run. cbn.
  destruct (raises E g); cbn; by rewrite ?app_nil_r.
Qed.

Lemma broadcast_idle json_dumps data j :
  broadcast E json_dumps data j ∅ = Run (Returned tt) [] ∅.
Proof.
  unfold broadcast, mbind, M_bind, get_clients.
  by rewrite decide_False by (intros Hne; by apply Hne).
Qed.

Lemma broadcast_run json_dumps data j cs :
  cs ≠ ∅ →
  let g := (j + List.length (elements cs))%nat in
  broadcast E json_dumps data j cs
  = Run (match raises E g with Some e => Raised e | None => Returned tt end)
        (map (λ ws, ESend ws (json_dumps data)) (elements cs)
         ++ EGather (List.length (elements cs)) :: calls (suspended E g (S g) cs))
        (clients (suspended E g (S g) cs)).
Proof.
  intros Hne g.
  destruct (gather_sends_run (json_dumps data) (elements cs) j cs) as [rs Hrs].
  unfold broadcast, mbind, M_bind, get_clients.
  rewrite decide_True by done. cbn.
  replace (j + 0)%nat with j by lia.
  rewrite Hrs. fold g. cbn. destruct (raises E g); cbn; by rewrite ?app_nil_r.
Qed.

End Runs.

#[local] Arguments float_gt : simpl never.
#[local] Arguments sleep_time : simpl never.
#[local] Arguments timing_str : simpl never.
#[local] Arguments action_str : simpl never.
#[local] Arguments action_data : simpl never.
#[local] Arguments clear_line : simpl never.
#[local] Arguments pretty : simpl never.
#[local] Arguments sends_of : simpl never.
#[local] Arguments sleeps_of : simpl never.
#[local] Arguments devices_of : simpl never.
#[local] Arguments writes_of : simpl never.
#[local] Arguments count : simpl never.

(** The calls of one iteration, for [exec]. *)
Ltac unfold_test_tick :=
  unfold test_tick, perf_counter, get_action, stdout_write, stdout_flush,
    time_sleep, call.

Ltac unfold_pace :=
  unfold pace_and_display, perf_counter, stdout_write, stdout_flush, call,
    asyncio_sleep.

(** Runs a straight-line block: every bind is unfolded and every answer of
    the environment is split into its cases.  A suspension is replaced by
    what is known of it: it returns, and the handlers only print. *)
Ltac exec :=
  unfold mbind, M_bind, mret, M_ret, raise, lift, log, get_clients; cbn;
  repeat (first
    [ rewrite check_run
    | match goal with
      | |- context [match suspended ?E ?a ?b ?c with _ => _ end] =>
          let Ho := fresh "Ho" in
          let Hp := fresh "Hp" in
          pose proof (suspended_out E a b c) as Ho;
          pose proof (suspended_prints E a b c) as Hp;
          revert Ho Hp; destruct (suspended E a b c) as [? ? ?];
          cbn [out calls clients]; intros -> Hp
      | |- context [match raises ?E ?i with _ => _ end] =>
          destruct (raises E i) eqn:?
      | |- context [match sleep_time ?f ?d with _ => _ end] =>
          destruct (sleep_time f d) eqn:?
      | |- context [match timing_str ?d with _ => _ end] =>
          destruct (timing_str d) eqn:?
      | |- context [if float_gt ?x ?y then _ else _] =>
          destruct (float_gt x y) eqn:?
      | |- context [match py_max_seq ?l with _ => _ end] =>
          destruct (py_max_seq l) eqn:?
      end ]; cbn).

Section Ticks.
Context `{FloatText} (E : env).

Lemma only_app P tr tr' : only P tr → only P tr' → only P (tr ++ tr').
Proof. intros. by apply Forall_app. Qed.

Lemma only_prints P tr :
  (∀ line, P (EPrint line) = true) → prints_only tr → only P tr.
Proof. intros HP Htr. eapply Forall_impl; [done|]. by intros ev [line ->]. Qed.

Lemma only_impl (P P' : event → bool) tr :
  (∀ ev, P ev = true → P' ev = true) → only P tr → only P' tr.
Proof. intros HP Htr. eapply Forall_impl; [exact Htr | done]. Qed.

Lemma only_omap {B} (P : event → bool) (f : event → option B) tr :
  (∀ ev, P ev = true → f ev = None) → only P tr → omap f tr = [].
Proof.
  intros Hf. induction 1 as [|ev tr Hev _ IH]; cbn; [done|]. by rewrite (Hf ev Hev).
Qed.

Lemma only_count (P kind : event → bool) tr :
  (∀ ev, P ev = true → kind ev = false) → only P tr → count kind tr = 0%nat.
Proof.
  intros Hk. unfold count.
  induction 1 as [|ev tr Hev _ IH]; cbn; [done|]. by rewrite (Hk ev Hev).
Qed.

Lemma pace_and_display_events fps loop_start a j cs :
  only display_event (calls (pace_and_display E fps loop_start a j cs)).
Proof.
  unfold pace_and_display, perf_counter, stdout_write, stdout_flush, call,
    asyncio_sleep.
  exec; unfold only;
    repeat first [ done | apply Forall_nil | apply Forall_cons; split
                 | apply Forall_app; split | by apply only_prints ].
Qed.

(** An iteration of the broadcast loop: the three polls, the broadcast,
    the rest. *)
Lemma broadcast_tick_run json_dumps fps i cs :
  broadcast_tick_with E json_dumps fps i cs =
  match raises E i with
  | Some e => Run (Raised e) [EPerfCounter] cs
  | None =>
    match raises E (i + 1) with
    | Some e => Run (Raised e) [EPerfCounter; EGetAction] cs
    | None =>
      match raises E (i + 2) with
      | Some e => Run (Raised e) [EPerfCounter; EGetAction; ETime] cs
      | None =>
        match broadcast E json_dumps
                (action_data (time_at E (i + 2)) (action_at E (i + 1))) (i + 3) cs with
        | Run (Returned _) tr cs' =>
            match pace_and_display E fps (clock_at E i) (action_at E (i + 1))
                    (i + 3 + List.length tr) cs' with
            | Run o tr' cs'' =>
                Run o (EPerfCounter :: EGetAction :: ETime :: tr ++ tr') cs''
            end
        | Run (Raised e) tr cs' =>
            Run (Raised e) (EPerfCounter :: EGetAction :: ETime :: tr) cs'
        | Run StillRunning tr cs' =>
            Run StillRunning (EPerfCounter :: EGetAction :: ETime :: tr) cs'
        end
      end
    end
  end.
Proof.
  unfold broadcast_tick_with, perf_counter, get_action, time_time, call.
  unfold mbind, M_bind, mret, M_ret, log. cbn. rewrite check_run. cbn.
  destruct (raises E i); cbn; [done|].
  rewrite check_run. cbn. destruct (raises E (i + 1)); cbn; [done|].
  rewrite check_run. cbn.
  replace (i + 1 + 1)%nat with (i + 2)%nat by lia.
  destruct (raises E (i + 2)); cbn; [done|].
  replace (i + 2 + 1)%nat with (i + 3)%nat by lia.
  destruct (broadcast E json_dumps _ (i + 3) cs) as [[u|e|] tr cs']; cbn; try done.
  replace (i + 1 + 1 + 1 + List.length tr)%nat with (i + 3 + List.length tr)%nat by lia.
  by destruct (pace_and_display E fps _ _ _ cs') as [o tr' cs''].
Qed.

Lemma sends_of_app tr tr' : sends_of (tr ++ tr') = sends_of tr ++ sends_of tr'.
Proof. apply omap_app. Qed.

Lemma sends_of_sends msg (l : list client) :
  sends_of (map (λ ws, ESend ws msg) l) = map (λ ws, (ws, msg)) l.
Proof.
  induction l as [|ws l IH]; [done|].
  change (sends_of (map (λ ws, ESend ws msg) (ws :: l)))
    with ((ws, msg) :: sends_of (map (λ ws, ESend ws msg) l)).
  by rewrite IH.
Qed.

Lemma sends_of_prints tr : prints_only tr → sends_of tr = [].
Proof. by apply prints_only_omap. Qed.

Lemma broadcast_sends json_dumps data j cs :
  sends_of (calls (broadcast E json_dumps data j cs)) =
  map (λ ws, (ws, json_dumps data)) (elements cs).
Proof.
  destruct (decide (cs = ∅)) as [->|Hne].
  - by rewrite broadcast_idle, elements_empty.
  - rewrite broadcast_run by done. cbn [calls].
    rewrite sends_of_app, sends_of_sends.
    change (sends_of (EGather ?n :: ?tr)) with (sends_of tr).
    rewrite (sends_of_prints _ (suspended_prints E _ _ _)). apply app_nil_r.
Qed.

Lemma pace_and_display_sends fps loop_start a j cs :
  sends_of (calls (pace_and_display E fps loop_start a j cs)) = [].
Proof.
  apply (only_omap display_event); [by intros [] | apply pace_and_display_events].
Qed.

(** What an iteration sends: once the device and the clock were read, one
    message, to every connected client. *)
Lemma broadcast_tick_sends json_dumps fps i cs :
  sends_of (calls (broadcast_tick_with E json_dumps fps i cs)) =
  match raises E i, raises E (i + 1), raises E (i + 2) with
  | None, None, None =>
      map (λ ws, (ws, json_dumps (action_data (time_at E (i + 2)) (action_at E (i + 1)))))
          (elements cs)
  | _, _, _ => []
  end.
Proof.
  rewrite broadcast_tick_run.
  destruct (raises E i); [done|].
  destruct (raises E (i + 1)); [done|].
  destruct (raises E (i + 2)); [done|].
  pose proof (broadcast_sends json_dumps
                (action_data (time_at E (i + 2)) (action_at E (i + 1))) (i + 3) cs) as Hb.
  destruct (broadcast E json_dumps _ (i + 3) cs) as [[u|e|] tr cs'];
    cbn [calls] in Hb |- *; try exact Hb.
  pose proof (pace_and_display_sends fps (clock_at E i) (action_at E (i + 1))
                (i + 3 + List.length tr) cs') as Ht.
  destruct (pace_and_display E fps _ _ _ cs') as [o tr' cs'']. cbn [calls] in Ht |- *.
  change (sends_of (tr ++ tr') = map (λ ws, (ws, json_dumps (action_data (time_at E (i + 2)) (action_at E (i + 1))))) (elements cs)).
  by rewrite sends_of_app, Ht, app_nil_r.
Qed.

(** *** The calls of an iteration, by kind *)

Lemma test_tick_events fps i cs : only tick_event (calls (test_tick E fps i cs)).
Proof.
  unfold test_tick, perf_counter, get_action, stdout_write, stdout_flush,
    time_sleep, call.
  exec; unfold only; repeat first [ done | apply Forall_nil | apply Forall_cons; split ].
Qed.

Lemma broadcast_events json_dumps data j cs :
  only broadcast_event (calls (broadcast E json_dumps data j cs)).
Proof.
  destruct (decide (cs = ∅)) as [->|Hne].
  - rewrite broadcast_idle. constructor.
  - rewrite broadcast_run by done. cbn [calls].
    apply only_app; [|apply Forall_cons; split; [done|]].
    + apply Forall_forall. by intros ev (ws & -> & _)%list_elem_of_fmap.
    + by apply only_prints, suspended_prints.
Qed.

Lemma broadcast_tick_events json_dumps fps i cs :
  only tick_event (calls (broadcast_tick_with E json_dumps fps i cs)).
Proof.
  rewrite broadcast_tick_run.
  destruct (raises E i); [by repeat constructor|].
  destruct (raises E (i + 1)); [by repeat constructor|].
  destruct (raises E (i + 2)); [by repeat constructor|].
  pose proof (only_impl broadcast_event tick_event _ (λ ev, ltac:(by destruct ev))
                (broadcast_events json_dumps
                   (action_data (time_at E (i + 2)) (action_at E (i + 1))) (i + 3) cs))
    as Hb.
  destruct (broadcast E json_dumps _ (i + 3) cs) as [[u|e|] tr cs']; cbn [calls] in Hb |- *;
    try by repeat (apply Forall_cons; split; [done|]).
  pose proof (pace_and_display_events fps (clock_at E i) (action_at E (i + 1))
                (i + 3 + List.length tr) cs') as Ht.
  destruct (pace_and_display E fps _ _ _ cs') as [o tr' cs'']. cbn [calls] in Ht |- *.
  repeat (apply Forall_cons; split; [done|]).
  apply only_app; [done|]. eapply only_impl; [|exact Ht]. by intros [].
Qed.

(** *** Loops *)

Lemma while_true_step n (body : M unit) i cs :
  while_true (S n) body i cs =
  match body i cs with
  | Run (Returned _) tr cs' =>
      match while_true n body (i + List.length tr) cs' with
      | Run o tr' cs'' => Run o (tr ++ tr') cs''
      end
  | Run (Raised e) tr cs' => Run (Raised e) tr cs'
  | Run StillRunning tr cs' => Run StillRunning tr cs'
  end.
Proof. done. Qed.

(** [while True] has no normal exit. *)
Lemma while_true_not_returned n (body : M unit) i cs u :
  out (while_true n body i cs) ≠ Returned u.
Proof.
  revert i cs. induction n as [|n IH]; intros i cs; [done|].
  rewrite while_true_step.
  destruct (body i cs) as [[[]|e|] tr cs']; [|done..].
  specialize (IH (i + List.length tr)%nat cs').
  by destruct (while_true n body _ cs').
Qed.

Lemma while_true_events P n (body : M unit) i cs :
  (∀ i cs, only P (calls (body i cs))) → only P (calls (while_true n body i cs)).
Proof.
  intros Hbody. revert i cs. induction n as [|n IH]; intros i cs; [constructor|].
  rewrite while_true_step. specialize (Hbody i cs).
  destruct (body i cs) as [[[]|e|] tr cs']; cbn [calls] in *; [|done..].
  specialize (IH (i + List.length tr)%nat cs').
  destruct (while_true n body _ cs') as [o tr' cs'']. by apply only_app.
Qed.

Lemma count_app kind tr tr' : count kind (tr ++ tr') = (count kind tr + count kind tr')%nat.
Proof. unfold count. by rewrite List.filter_app, length_app. Qed.

(** When every completed iteration makes one call of a kind and an
    interrupted one at most one, [n] completed iterations make [n]. *)
Lemma while_true_count kind n (body : M unit) i cs :
  (∀ i cs, (count kind (calls (body i cs)) ≤ 1)%nat) →
  (∀ i cs, out (body i cs) = Returned tt → count kind (calls (body i cs)) = 1%nat) →
  (∀ i cs, out (body i cs) ≠ StillRunning) →
  (count kind (calls (while_true n body i cs)) ≤ n)%nat
  ∧ (out (while_true n body i cs) = StillRunning →
     count kind (calls (while_true n body i cs)) = n).
Proof.
  intros Hle Hone Hrun. revert i cs. induction n as [|n IH]; intros i cs; [done|].
  rewrite while_true_step. specialize (Hle i cs). specialize (Hone i cs).
  specialize (Hrun i cs).
  destruct (body i cs) as [[[]|e|] tr cs']; cbn [calls out] in *.
  - destruct (IH (i + List.length tr)%nat cs') as [IH1 IH2].
    destruct (while_true n body _ cs') as [o tr' cs'']. cbn [calls out] in *.
    rewrite count_app, Hone by done. split; [lia|]. intros Ho. rewrite IH2; done.
  - split; [lia | done].
  - done.
Qed.

(** *** One iteration *)

Lemma test_tick_not_running fps i cs : out (test_tick E fps i cs) ≠ StillRunning.
Proof. unfold_test_tick. exec; done. Qed.

Lemma pace_and_display_not_running fps loop_start a j cs :
  out (pace_and_display E fps loop_start a j cs) ≠ StillRunning.
Proof. unfold_pace. exec; done. Qed.

Lemma broadcast_not_running json_dumps data j cs :
  out (broadcast E json_dumps data j cs) ≠ StillRunning.
Proof.
  destruct (decide (cs = ∅)) as [->|Hne].
  - by rewrite broadcast_idle.
  - rewrite broadcast_run by done. cbn. by destruct (raises E _).
Qed.

Lemma broadcast_tick_not_running json_dumps fps i cs :
  out (broadcast_tick_with E json_dumps fps i cs) ≠ StillRunning.
Proof.
  rewrite broadcast_tick_run.
  destruct (raises E i); [done|].
  destruct (raises E (i + 1)); [done|].
  destruct (raises E (i + 2)); [done|].
  pose proof (broadcast_not_running json_dumps
                (action_data (time_at E (i + 2)) (action_at E (i + 1))) (i + 3) cs) as Hb.
  destruct (broadcast E json_dumps _ (i + 3) cs) as [[u|e|] tr cs']; cbn [out] in Hb |- *;
    try done.
  pose proof (pace_and_display_not_running fps (clock_at E i) (action_at E (i + 1))
                (i + 3 + List.length tr) cs') as Ht.
  by destruct (pace_and_display E fps _ _ _ cs') as [o tr' cs''].
Qed.

Lemma test_tick_get_action fps i cs :
  (count is_get_action (calls (test_tick E fps i cs)) ≤ 1)%nat
  ∧ (out (test_tick E fps i cs) = Returned tt →
     count is_get_action (calls (test_tick E fps i cs)) = 1%nat).
Proof. unfold_test_tick. exec; split; (done || (cbv; lia)). Qed.

Lemma broadcast_tick_get_action json_dumps fps i cs :
  (count is_get_action (calls (broadcast_tick_with E json_dumps fps i cs)) ≤ 1)%nat
  ∧ (out (broadcast_tick_with E json_dumps fps i cs) = Returned tt →
     count is_get_action (calls (broadcast_tick_with E json_dumps fps i cs)) = 1%nat).
Proof.
  rewrite broadcast_tick_run.
  destruct (raises E i); [split; (done || (cbv; lia))|].
  destruct (raises E (i + 1)); [split; (done || (cbv; lia))|].
  destruct (raises E (i + 2)); [split; (done || (cbv; lia))|].
  pose proof (only_count broadcast_event is_get_action _ (λ ev, ltac:(by destruct ev))
                (broadcast_events json_dumps
                   (action_data (time_at E (i + 2)) (action_at E (i + 1))) (i + 3) cs))
    as Hb.
  destruct (broadcast E json_dumps _ (i + 3) cs) as [[u|e|] tr cs']; cbn [calls out] in Hb |- *.
  - pose proof (only_count display_event is_get_action _ (λ ev, ltac:(by destruct ev))
                  (pace_and_display_events fps (clock_at E i) (action_at E (i + 1))
                     (i + 3 + List.length tr) cs')) as Ht.
    destruct (pace_and_display E fps _ _ _ cs') as [o tr' cs'']. cbn [calls out] in Ht |- *.
    change (EPerfCounter :: EGetAction :: ETime :: tr ++ tr')
      with ([EPerfCounter; EGetAction; ETime] ++ tr ++ tr').
    rewrite !count_app, Hb, Ht. split; (done || (cbv; lia)).
  - change (EPerfCounter :: EGetAction :: ETime :: tr)
      with ([EPerfCounter; EGetAction; ETime] ++ tr).
    rewrite !count_app, Hb. split; (done || (cbv; lia)).
  - change (EPerfCounter :: EGetAction :: ETime :: tr)
      with ([EPerfCounter; EGetAction; ETime] ++ tr).
    rewrite !count_app, Hb. split; (done || (cbv; lia)).
Qed.

Lemma writes_of_Forall (Q : string → Prop) tr :
  Forall (λ ev, ∀ t, ev = EWrite t → Q t) tr → ∀ t, t ∈ writes_of tr → Q t.
Proof.
  induction 1 as [|ev tr Hev _ IH]; intros t Hin; [by apply elem_of_nil in Hin|].
  destruct ev; try (by apply IH).
  apply elem_of_cons in Hin as [->|Hin]; [by apply Hev | by apply IH].
Qed.

Lemma prints_no_write (Q : string → Prop) tr :
  prints_only tr → Forall (λ ev, ∀ t, ev = EWrite t → Q t) tr.
Proof. intros Hp. eapply Forall_impl; [exact Hp|]. by intros ev [line ->] t. Qed.

Ltac writes_tac :=
  repeat first [ exact I | apply Forall_nil
               | apply Forall_cons; split;
                 [ first [ by intros ? | intros ? [= <-]; by eexists ] |]
               | apply Forall_app; split
               | by apply prints_no_write ].

(** The display line of an iteration shows the action polled in that
    iteration. *)
Lemma test_tick_writes fps i cs :
  ∀ text, text ∈ writes_of (calls (test_tick E fps i cs)) →
          ∃ timing, text = clear_line +:+ action_str (action_at E (i + 1)) +:+ " " +:+ timing.
Proof.
  apply writes_of_Forall. unfold_test_tick. exec; writes_tac.
Qed.

Lemma pace_and_display_writes fps loop_start a j cs :
  ∀ text, text ∈ writes_of (calls (pace_and_display E fps loop_start a j cs)) →
          ∃ rest, text = clear_line +:+ action_str a +:+ " " +:+ rest.
Proof.
  apply writes_of_Forall. unfold_pace. exec; writes_tac.
Qed.

(** *** The pause *)

Lemma sleeps_of_app tr tr' : sleeps_of (tr ++ tr') = sleeps_of tr ++ sleeps_of tr'.
Proof. apply omap_app. Qed.

Lemma sleeps_of_prints tr : prints_only tr → sleeps_of tr = [].
Proof. by apply prints_only_omap. Qed.

Lemma pace_and_display_sleeps fps loop_start a j cs :
  sleeps_of (calls (pace_and_display E fps loop_start a j cs)) =
  match raises E j with
  | Some _ => []
  | None =>
      match sleep_time fps (clock_at E j - loop_start) with
      | Ok s => if float_gt s 0 then [s] else []
      | Raise _ => []
      end
  end.
Proof.
  unfold_pace.
  exec; try done;
    repeat match goal with
           | |- context [sleeps_of (?ev :: ?tr)] =>
               first [ change (sleeps_of (ev :: tr)) with (sleeps_of tr)
                     | match ev with
                       | EAsyncSleep ?d =>
                           change (sleeps_of (ev :: tr)) with (d :: sleeps_of tr)
                       end ]
           | |- context [sleeps_of (_ ++ _)] => rewrite sleeps_of_app
           | Hp : prints_only ?tr |- context [sleeps_of ?tr] =>
               rewrite (sleeps_of_prints tr Hp)
           end; done.
Qed.

Lemma test_tick_sleeps fps i cs :
  let dt_s := (clock_at E (i + 5) - clock_at E i)%float in
  (∀ d, d ∈ sleeps_of (calls (test_tick E fps i cs)) →
        sleep_time fps dt_s = Ok d ∧ float_gt d 0 = true)
  ∧ (out (test_tick E fps i cs) = Returned tt →
     sleeps_of (calls (test_tick E fps i cs)) =
     match sleep_time fps dt_s with
     | Ok s => if float_gt s 0 then [s] else []
     | Raise _ => []
     end).
Proof.
  unfold_test_tick.
  exec; rewrite <- ?Nat.add_assoc in *; cbn [Nat.add] in *;
    (split; [intros d Hd; cbv [sleeps_of omap list_omap] in Hd|intros Ho; try done]);
    repeat match goal with
           | Hx : _ ∈ [] |- _ => by apply elem_of_nil in Hx
           | Hx : _ ∈ [_] |- _ => apply list_elem_of_singleton in Hx as ->
           | Hx : ?x = _ |- context [match ?x with _ => _ end] => rewrite Hx
           end;
    repeat match goal with
           | H1 : ?x = _, H2 : ?x = _ |- _ => rewrite H1 in H2
           end; simplify_eq; try done; congruence.
Qed.

(** *** A frame rate of zero *)

Lemma timing_str_raise d e : timing_str d = Raise e → e = ZeroDivisionError.
Proof.
  unfold timing_str, float_truediv. destruct (d =? 0)%float; [|done]. congruence.
Qed.

Lemma test_tick_fps0 i cs :
  (∀ k, raises E k = None) → out (test_tick E 0 i cs) = Raised ZeroDivisionError.
Proof.
  intros Hcalm. unfold_test_tick.
  exec;
    repeat match goal with
           | Hx : raises E _ = Some _ |- _ => by rewrite Hcalm in Hx
           | Hx : sleep_time 0 _ = Ok _ |- _ => by rewrite sleep_time_zero in Hx
           | Hx : sleep_time 0 _ = Raise _ |- _ => rewrite sleep_time_zero in Hx
           | Hx : timing_str _ = Raise _ |- _ => apply timing_str_raise in Hx
           end; congruence.
Qed.

Lemma pace_and_display_fps0 loop_start a j cs :
  (∀ k, raises E k = None) →
  out (pace_and_display E 0 loop_start a j cs) = Raised ZeroDivisionError.
Proof.
  intros Hcalm. unfold_pace.
  exec;
    repeat match goal with
           | Hx : raises E _ = Some _ |- _ => by rewrite Hcalm in Hx
           | Hx : sleep_time 0 _ = Ok _ |- _ => by rewrite sleep_time_zero in Hx
           | Hx : sleep_time 0 _ = Raise _ |- _ => rewrite sleep_time_zero in Hx
           | Hx : timing_str _ = Raise _ |- _ => apply timing_str_raise in Hx
           end; congruence.
Qed.

Lemma broadcast_tick_fps0 json_dumps i cs :
  (∀ k, raises E k = None) →
  out (broadcast_tick_with E json_dumps 0 i cs) = Raised ZeroDivisionError.
Proof.
  intros Hcalm. rewrite broadcast_tick_run, !Hcalm.
  assert (Hb : out (broadcast E json_dumps
                      (action_data (time_at E (i + 2)) (action_at E (i + 1))) (i + 3) cs)
               = Returned tt).
  { destruct (decide (cs = ∅)) as [->|Hne].
    - by rewrite broadcast_idle.
    - rewrite broadcast_run by done. cbn. by rewrite Hcalm. }
  destruct (broadcast E json_dumps _ (i + 3) cs) as [o tr cs']. cbn in Hb. subst o.
  pose proof (pace_and_display_fps0 (clock_at E i) (action_at E (i + 1))
                (i + 3 + List.length tr) cs' Hcalm) as Ht.
  by destruct (pace_and_display E 0 _ _ _ cs').
Qed.
End Ticks.

(* ===================================================================== *)
(** ** The sessions *)
(* ===================================================================== *)

#[local] Arguments while_true : simpl never.
#[local] Arguments serve_close : simpl never.

Section Compose.
Context `{FloatText} (E : env) (P : event → bool).

Lemma emits_ret {A} (a : A) : emits P (mret a).
Proof. intros i cs. constructor. Qed.

Lemma emits_raise {A} e : emits P (raise e : M A).
Proof. intros i cs. constructor. Qed.

Lemma emits_lift {A} (r : result A) : emits P (lift r).
Proof. destruct r; [apply emits_ret | apply emits_raise]. Qed.

Lemma emits_bind {A B} (m : M A) (k : A → M B) :
  emits P m → (∀ a, emits P (k a)) → emits P (m ≫= k).
Proof.
  intros Hm Hk i cs. unfold mbind, M_bind. specialize (Hm i cs).
  destruct (m i cs) as [[a|e|] tr cs']; cbn [calls] in *; [|done..].
  specialize (Hk a (i + List.length tr)%nat cs').
  destruct (k a _ cs') as [o tr' cs'']. by apply only_app.
Qed.

Lemma emits_log ev : P ev = true → emits P (log ev).
Proof. intros HP i cs. by repeat constructor. Qed.

Lemma emits_check k : emits P (check E k).
Proof. intros i cs. rewrite check_run. constructor. Qed.

Lemma emits_call ev : P ev = true → emits P (call E ev).
Proof. intros HP i cs. rewrite call_run. by repeat constructor. Qed.

Lemma emits_print line : (∀ l, P (EPrint l) = true) → emits P (print E line).
Proof.
  intros HP. apply emits_bind; [by apply emits_call | intros; apply emits_ret].
Qed.

Lemma emits_serve_close :
  P EServeClose = true → (∀ l, P (EPrint l) = true) → emits P (serve_close E).
Proof.
  intros HP HP' i cs. rewrite serve_close_run. cbn [calls].
  apply Forall_cons. split; [done|]. apply only_prints; [done|]. apply closing_prints.
Qed.

Lemma emits_get_clients : emits P get_clients.
Proof. intros i cs. constructor. Qed.

Lemma emits_set_clients cs' : emits P (set_clients cs').
Proof. intros i cs. constructor. Qed.

Lemma emits_try_finally {A} (body : M A) final :
  emits P body → emits P final → emits P (try_finally body final).
Proof.
  intros Hb Hf i cs. unfold try_finally. specialize (Hb i cs).
  destruct (body i cs) as [[a|e|] tr cs']; cbn [calls] in *; [| |done].
  - specialize (Hf (i + List.length tr)%nat cs').
    destruct (final _ cs') as [[u|e'|] tr' cs'']; by apply only_app.
  - specialize (Hf (i + List.length tr)%nat cs').
    destruct (final _ cs') as [[u|e'|] tr' cs'']; by apply only_app.
Qed.

Lemma emits_try_except {A} (body : M A) handles handler :
  emits P body → emits P handler → emits P (try_except body handles handler).
Proof.
  intros Hb Hh i cs. unfold try_except. specialize (Hb i cs).
  destruct (body i cs) as [[a|e|] tr cs']; cbn [calls] in *; [done| |done].
  destruct (handles e); [|done].
  specialize (Hh (i + List.length tr)%nat cs').
  destruct (handler _ cs') as [o tr' cs'']. by apply only_app.
Qed.

Lemma emits_while_true n body : emits P body → emits P (while_true n body).
Proof. intros Hb i cs. by apply while_true_events. Qed.

Lemma emits_test_tick fps :
  (∀ ev, tick_event ev = true → P ev = true) → emits P (test_tick E fps).
Proof. intros HP i cs. eapply only_impl; [exact HP | apply test_tick_events]. Qed.

Lemma emits_broadcast_tick json_dumps fps :
  (∀ ev, tick_event ev = true → P ev = true) →
  emits P (broadcast_tick_with E json_dumps fps).
Proof. intros HP i cs. eapply only_impl; [exact HP | apply broadcast_tick_events]. Qed.
End Compose.

Section Entry.
Context `{FloatText} (E : env).

Lemma emits_main P fps host tcp_port ticks :
  (∀ ev, session_event ev = true → P ev = true) →
  emits P (main E fps host tcp_port ticks).
Proof.
  intros HP.
  assert (Htick : ∀ ev, tick_event ev = true → P ev = true).
  { intros ev Hev. apply HP. by destruct ev. }
  unfold main, with_serve, broadcast_actions, action_features.
  repeat first
    [ apply emits_call; by apply HP | apply emits_print; intros; by apply HP
    | apply emits_ret | apply emits_lift | apply emits_while_true
    | by apply emits_broadcast_tick
    | apply emits_serve_close; [by apply HP | intros; by apply HP]
    | apply emits_try_finally | apply emits_bind; [|intros ?] ].
Qed.

(** *** The shutdown: [except KeyboardInterrupt] and [finally] *)

Lemma finally_run {A} (o : outcome A) tr cs n :
  o ≠ StillRunning →
  match (call E EDisconnect;; print E "Leader device disconnected") n cs with
  | Run (Returned _) tr' cs'' => Run o (tr ++ tr') cs''
  | Run (Raised e) tr' cs'' => Run (Raised e) (tr ++ tr') cs''
  | Run StillRunning tr' cs'' => Run StillRunning (tr ++ tr') cs''
  end = finish E o tr cs n.
Proof.
  intros Ho. unfold finish, print, mbind, M_bind, mret, M_ret.
  rewrite call_run. destruct (raises E n); cbn; [done|].
  rewrite call_run. by destruct (raises E (n + 1)).
Qed.

Lemma shutdown_run body msg i cs :
  shutdown E body msg i cs =
  match body i cs with
  | Run StillRunning tr cs' => Run StillRunning tr cs'
  | Run (Returned u) tr cs' => finish E (Returned u) tr cs' (i + List.length tr)
  | Run (Raised e) tr cs' =>
      if bool_decide (e = KeyboardInterrupt) then
        finish E (match raises E (i + List.length tr) with
                | Some e' => Raised e'
                | None => Returned tt
                end)
               (tr ++ [EPrint msg]) cs' (i + List.length tr + 1)
      else finish E (Raised e) tr cs' (i + List.length tr)
  end.
Proof.
  unfold shutdown, try_finally, try_except.
  destruct (body i cs) as [[[]|e|] tr cs']; [| |done].
  - by apply finally_run.
  - destruct (bool_decide (e = KeyboardInterrupt)); [|by apply finally_run].
    unfold print at 1, mbind, M_bind, mret, M_ret. rewrite call_run.
    destruct (raises E (i + List.length tr)); cbn [calls List.length];
      rewrite ?app_nil_r, length_app; cbn [List.length];
      rewrite Nat.add_assoc; by apply finally_run.
Qed.

Lemma finish_out {A} (o : outcome A) tr cs n :
  o ≠ StillRunning → out (finish E o tr cs n) ≠ StillRunning.
Proof.
  intros Ho. unfold finish. destruct (raises E n); [done|].
  by destruct (raises E (n + 1)).
Qed.

Lemma finish_calls {A} (o : outcome A) tr cs n :
  ∃ tail, calls (finish E o tr cs n) = tr ++ EDisconnect :: tail ∧ prints_only tail.
Proof.
  unfold finish. destruct (raises E n); [|destruct (raises E (n + 1))]; cbn [calls];
    eexists; (split; [done|]); repeat constructor; eauto.
Qed.

(** What the shutdown adds to the calls of the body: nothing while the body
    is still running, and otherwise one [disconnect] among prints. *)
Lemma shutdown_calls body msg i cs :
  match out (body i cs) with
  | StillRunning => shutdown E body msg i cs = body i cs
  | _ =>
      out (shutdown E body msg i cs) ≠ StillRunning
      ∧ ∃ before after,
          calls (shutdown E body msg i cs)
          = calls (body i cs) ++ before ++ EDisconnect :: after
          ∧ prints_only before ∧ prints_only after
  end.
Proof.
  rewrite shutdown_run.
  destruct (body i cs) as [[[]|e|] tr cs']; cbn [out calls]; [| |done].
  - split; [by apply finish_out|].
    destruct (finish_calls (Returned ()) tr cs' (i + List.length tr)) as (tail & -> & Ht).
    exists [], tail. repeat split; [constructor | done].
  - destruct (bool_decide (e = KeyboardInterrupt)).
    + split; [apply finish_out; by destruct (raises E _)|].
      destruct (finish_calls (A:=unit)
                  (match raises E (i + List.length tr) with
                   | Some e' => Raised e'
                   | None => Returned tt
                   end) (tr ++ [EPrint msg]) cs' (i + List.length tr + 1))
        as (tail & -> & Ht).
      exists [EPrint msg], tail. rewrite <- app_assoc.
      repeat split; [repeat constructor; eauto | done].
    + split; [by apply finish_out|].
      destruct (finish_calls (A:=unit) (Raised e) tr cs' (i + List.length tr))
        as (tail & -> & Ht).
      exists [], tail. repeat split; [constructor | done].
Qed.

(** *** The entry points *)

Lemma test_leader_run fps ticks i cs :
  (∀ k, (k < 5)%nat → raises E (i + k) = None) →
  test_leader E fps ticks i cs =
  match shutdown E (while_true ticks (test_tick E fps)) test_goodbye (i + 5) cs with
  | Run o tr cs' => Run o (test_startup fps ++ tr) cs'
  end.
Proof.
  intros Hup.
  assert (H0 : raises E i = None) by (rewrite <- (Nat.add_0_r i); apply Hup; lia).
  pose proof (Hup 1%nat ltac:(lia)) as H1. pose proof (Hup 2%nat ltac:(lia)) as H2.
  pose proof (Hup 3%nat ltac:(lia)) as H3. pose proof (Hup 4%nat ltac:(lia)) as H4.
  unfold test_leader.
  change (try_finally _ _)
    with (shutdown E (while_true ticks (test_tick E fps)) test_goodbye).
  unfold print, mbind, M_bind, mret, M_ret.
  rewrite call_run, H0. cbn.
  rewrite call_run, H1. cbn.
  rewrite call_run. replace (i + 1 + 1)%nat with (i + 2)%nat by lia. rewrite H2. cbn.
  rewrite call_run. replace (i + 2 + 1)%nat with (i + 3)%nat by lia. rewrite H3. cbn.
  rewrite call_run. replace (i + 3 + 1)%nat with (i + 4)%nat by lia. rewrite H4. cbn.
  replace (i + 4 + 1)%nat with (i + 5)%nat by lia.
  by destruct (shutdown E _ _ (i + 5)%nat cs).
Qed.

Lemma teleop_websocket_run fps host tcp_port ticks i cs :
  (∀ k, (k < 3)%nat → raises E (i + k) = None) →
  teleop_websocket E fps host tcp_port ticks i cs =
  match shutdown E (main E fps host tcp_port ticks) websocket_goodbye (i + 3) ∅ with
  | Run o tr cs' => Run o (websocket_startup ++ tr) cs'
  end.
Proof.
  intros Hup.
  assert (H0 : raises E i = None) by (rewrite <- (Nat.add_0_r i); apply Hup; lia).
  pose proof (Hup 1%nat ltac:(lia)) as H1. pose proof (Hup 2%nat ltac:(lia)) as H2.
  unfold teleop_websocket, asyncio_run.
  change (try_finally _ _)
    with (shutdown E (main E fps host tcp_port ticks) websocket_goodbye).
  unfold print, mbind, M_bind, mret, M_ret, set_clients. cbn.
  replace (i + 0)%nat with i by lia.
  rewrite call_run, H0. cbn.
  rewrite call_run, H1. cbn.
  rewrite call_run. replace (i + 1 + 1)%nat with (i + 2)%nat by lia. rewrite H2. cbn.
  replace (i + 2 + 1)%nat with (i + 3)%nat by lia.
  by destruct (shutdown E _ _ (i + 3)%nat ∅).
Qed.

Lemma count_prints kind tr :
  (∀ line, kind (EPrint line) = false) → prints_only tr → count kind tr = 0%nat.
Proof.
  intros Hk. unfold count. induction 1 as [|ev tr [line ->] _ IH]; cbn; [done|].
  by rewrite Hk.
Qed.

(** Around a body that makes no call to [connect] or [disconnect], the
    shutdown disconnects once, unless the body is still running. *)
Lemma shutdown_disconnects body msg i cs :
  only session_event (calls (body i cs)) →
  count is_connect (calls (shutdown E body msg i cs)) = 0%nat
  ∧ count is_disconnect (calls (shutdown E body msg i cs)) =
    match out (shutdown E body msg i cs) with
    | StillRunning => 0%nat
    | _ => 1%nat
    end.
Proof.
  intros Hbody.
  pose proof (only_count session_event is_connect _ (λ ev, ltac:(by destruct ev)) Hbody)
    as Hc.
  pose proof (only_count session_event is_disconnect _ (λ ev, ltac:(by destruct ev)) Hbody)
    as Hd.
  pose proof (shutdown_calls body msg i cs) as Hs.
  destruct (out (body i cs)) eqn:Hout.
  - destruct Hs as (Hrun & before & after & -> & Hb & Ha).
    change (EDisconnect :: after) with ([EDisconnect] ++ after).
    rewrite !count_app, Hc, Hd, !(count_prints _ before), !(count_prints _ after) by done.
    split; [done|]. by destruct (out (shutdown E body msg i cs)).
  - destruct Hs as (Hrun & before & after & -> & Hb & Ha).
    change (EDisconnect :: after) with ([EDisconnect] ++ after).
    rewrite !count_app, Hc, Hd, !(count_prints _ before), !(count_prints _ after) by done.
    split; [done|]. by destruct (out (shutdown E body msg i cs)).
  - rewrite Hs, Hout. done.
Qed.

(** [KeyboardInterrupt] in the body, and a shutdown that is not interrupted
    again: the goodbye is printed, the device is released, and the function
    returns. *)
Lemma shutdown_graceful body msg i cs :
  out (body i cs) = Raised KeyboardInterrupt →
  let n := (i + List.length (calls (body i cs)))%nat in
  (∀ k, (k < 3)%nat → raises E (n + k) = None) →
  shutdown E body msg i cs =
  Run (Returned tt)
      (calls (body i cs) ++ [EPrint msg; EDisconnect; EPrint "Leader device disconnected"])
      (clients (body i cs)).
Proof.
  intros Hout n Hcalm. rewrite shutdown_run. subst n.
  destruct (body i cs) as [o tr cs']. cbn [out calls clients] in *. subst o.
  assert (H0 : raises E (i + List.length tr) = None).
  { rewrite <- (Nat.add_0_r (i + List.length tr)). apply Hcalm. lia. }
  pose proof (Hcalm 1%nat ltac:(lia)) as H1.
  assert (H2 : raises E (i + List.length tr + 1 + 1) = None).
  { rewrite <- Nat.add_assoc. apply Hcalm. lia. }
  cbn. unfold finish. rewrite H0, H1, H2. by rewrite <- app_assoc.
Qed.

(** *** A frame rate of zero, from the command line on *)

Lemma finish_calm {A} (o : outcome A) tr cs n :
  (∀ k, raises E k = None) →
  finish E o tr cs n = Run o (tr ++ [EDisconnect; EPrint "Leader device disconnected"]) cs.
Proof. intros Hcalm. unfold finish. by rewrite !Hcalm. Qed.

Lemma loop_fps0 (body : M unit) n i cs :
  out (body i cs) = Raised ZeroDivisionError →
  out (while_true (S n) body i cs) = Raised ZeroDivisionError.
Proof.
  intros Hb. rewrite while_true_step.
  destruct (body i cs) as [o tr cs']. cbn in Hb. by subst o.
Qed.

Lemma test_leader_fps0 n i cs :
  (∀ k, raises E k = None) →
  out (test_leader E 0 (S n) i cs) = Raised ZeroDivisionError.
Proof.
  intros Hcalm. rewrite test_leader_run by (intros; apply Hcalm).
  rewrite shutdown_run.
  pose proof (loop_fps0 (test_tick E 0) n (i + 5) cs (test_tick_fps0 E (i + 5) cs Hcalm))
    as Hloop.
  destruct (while_true (S n) (test_tick E 0) (i + 5) cs) as [o tr cs'].
  cbn in Hloop. subst o. case_bool_decide; [done|]. by rewrite finish_calm.
Qed.

Lemma main_fps0 host tcp_port n i cs :
  (∀ k, raises E k = None) →
  features_at E (i + 4) ≠ [] →
  out (main E 0 host tcp_port (S n) i cs) = Raised ZeroDivisionError.
Proof.
  intros Hcalm Hfeat.
  unfold main, with_serve, try_finally, broadcast_actions, action_features, print,
    mbind, M_bind, mret, M_ret.
  rewrite call_run, Hcalm. cbn.
  repeat (rewrite call_run, Hcalm; cbn).
  replace (i + 1 + 1 + 1 + 1)%nat with (i + 4)%nat by lia.
  destruct (features_at E (i + 4)) as [|f fs]; [done|]. cbn.
  match goal with
  | |- context [while_true (S n) ?b ?p ?c] =>
      pose proof (loop_fps0 b n p c (broadcast_tick_fps0 E dumps p c Hcalm)) as Hloop;
      destruct (while_true (S n) b p c) as [o tr cs']
  end.
  cbn in Hloop. subst o. cbn. by rewrite serve_close_run, Hcalm.
Qed.

Lemma teleop_websocket_fps0 host tcp_port n i cs :
  (∀ k, raises E k = None) →
  features_at E (i + 7) ≠ [] →
  out (teleop_websocket E 0 host tcp_port (S n) i cs) = Raised ZeroDivisionError.
Proof.
  intros Hcalm Hfeat. rewrite teleop_websocket_run by (intros; apply Hcalm).
  rewrite shutdown_run.
  assert (Hfeat' : features_at E (i + 3 + 4) ≠ []).
  { by replace (i + 3 + 4)%nat with (i + 7)%nat by lia. }
  pose proof (main_fps0 host tcp_port n (i + 3) ∅ Hcalm Hfeat') as Hmain.
  destruct (main E 0 host tcp_port (S n) (i + 3) ∅) as [o tr cs'].
  cbn in Hmain. subst o. case_bool_decide; [done|]. by rewrite finish_calm.
Qed.

(** *** The device every mode opens *)

Lemma bind_call_calls {B} ev (k : nat → M B) i cs :
  calls ((call E ev ≫= k) i cs) =
  ev :: match raises E i with
        | Some _ => []
        | None => calls (k i (i + 1)%nat cs)
        end.
Proof.
  unfold mbind, M_bind. rewrite call_run.
  destruct (raises E i); [done|]. cbn. by destruct (k i (i + 1)%nat cs).
Qed.

Ltac emits_tac :=
  repeat first
    [ apply emits_call; done | apply emits_print; done
    | apply emits_ret | apply emits_lift | apply emits_while_true
    | apply emits_test_tick; by intros []
    | apply emits_main; by intros []
    | apply emits_try_finally | apply emits_try_except
    | apply emits_bind; [|intros ?] ].

Lemma script_devices a ticks i cs :
  devices_of (calls (script E a ticks i cs)) = [get_leader_config].
Proof.
  assert (Hdev : ∀ tr, only not_device tr → devices_of tr = []).
  { intros tr. apply only_omap. by intros []. }
  unfold script. destruct (arg_mode a).
  - unfold calibrate_leader. rewrite bind_call_calls.
    change (devices_of (?ev :: ?tr)) with (get_leader_config :: devices_of tr).
    f_equal. destruct (raises E i); [done|]. apply Hdev.
    revert cs. generalize (i + 1)%nat. change (emits not_device
      (call E (EConnect (Some false));; call E ECalibrate;; call E EDisconnect;; mret tt)).
    emits_tac.
  - unfold test_leader. rewrite bind_call_calls.
    change (devices_of (?ev :: ?tr)) with (get_leader_config :: devices_of tr).
    f_equal. destruct (raises E i); [done|]. apply Hdev.
    revert cs. generalize (i + 1)%nat.
    match goal with |- ∀ n cs, only _ (calls (?m n cs)) => change (emits not_device m) end.
    emits_tac.
  - unfold teleop_websocket, asyncio_run.
    unfold mbind at 1, M_bind at 1, set_clients at 1. cbn [List.length].
    match goal with
    | |- devices_of (calls (match ?r with Run _ _ _ => _ end)) = _ =>
        replace (calls (match r with Run o tr' cs'' => Run o ([] ++ tr') cs'' end))
          with (calls r) by (by destruct r)
    end.
    rewrite bind_call_calls.
    change (devices_of (?ev :: ?tr)) with (get_leader_config :: devices_of tr).
    f_equal. destruct (raises E _); [done|]. apply Hdev.
    generalize (∅ : gset client). generalize (i + 0 + 1)%nat.
    match goal with |- ∀ n cs, only _ (calls (?m n cs)) => change (emits not_device m) end.
    emits_tac.
Qed.
End Entry.

(* ===================================================================== *)
(** ** What an iteration does not depend on *)
(* ===================================================================== *)

Section Frames.
Context `{FloatText} (E : env).

Lemma test_tick_polls fps i cs :
  count is_get_action (calls (test_tick E fps i cs)) =
  match raises E i with Some _ => 0%nat | None => 1%nat end.
Proof. unfold_test_tick. exec; done. Qed.

Lemma broadcast_tick_polls json_dumps fps i cs :
  count is_get_action (calls (broadcast_tick_with E json_dumps fps i cs)) =
  match raises E i with Some _ => 0%nat | None => 1%nat end.
Proof.
  rewrite broadcast_tick_run.
  destruct (raises E i); [done|].
  destruct (raises E (i + 1)); [done|].
  destruct (raises E (i + 2)); [done|].
  pose proof (only_count broadcast_event is_get_action _ (λ ev, ltac:(by destruct ev))
                (broadcast_events E json_dumps
                   (action_data (time_at E (i + 2)) (action_at E (i + 1))) (i + 3) cs))
    as Hb.
  destruct (broadcast E json_dumps _ (i + 3) cs) as [[u|e|] tr cs']; cbn [calls out] in Hb |- *.
  - pose proof (only_count display_event is_get_action _ (λ ev, ltac:(by destruct ev))
                  (pace_and_display_events E fps (clock_at E i) (action_at E (i + 1))
                     (i + 3 + List.length tr) cs')) as Ht.
    destruct (pace_and_display E fps _ _ _ cs') as [o tr' cs'']. cbn [calls out] in Ht |- *.
    change (EPerfCounter :: EGetAction :: ETime :: tr ++ tr')
      with ([EPerfCounter; EGetAction; ETime] ++ tr ++ tr').
    by rewrite !count_app, Hb, Ht.
  - change (EPerfCounter :: EGetAction :: ETime :: tr)
      with ([EPerfCounter; EGetAction; ETime] ++ tr).
    by rewrite !count_app, Hb.
  - change (EPerfCounter :: EGetAction :: ETime :: tr)
      with ([EPerfCounter; EGetAction; ETime] ++ tr).
    by rewrite !count_app, Hb.
Qed.

(** *** What a send failure changes: nothing *)

Lemma broadcast_send_error f json_dumps data j cs :
  broadcast (with_send_error E f) json_dumps data j cs = broadcast E json_dumps data j cs.
Proof.
  destruct (decide (cs = ∅)) as [->|Hne].
  - by rewrite !broadcast_idle.
  - by rewrite !broadcast_run.
Qed.

Lemma broadcast_tick_send_error f json_dumps fps i cs :
  broadcast_tick_with (with_send_error E f) json_dumps fps i cs
  = broadcast_tick_with E json_dumps fps i cs.
Proof.
  rewrite !broadcast_tick_run. cbn [raises clock_at action_at with_send_error].
  by rewrite broadcast_send_error.
Qed.

(** *** What the actions of other iterations change: nothing *)

Lemma broadcast_action_at f json_dumps data j cs :
  broadcast (with_action_at E f) json_dumps data j cs = broadcast E json_dumps data j cs.
Proof.
  destruct (decide (cs = ∅)) as [->|Hne].
  - by rewrite !broadcast_idle.
  - by rewrite !broadcast_run.
Qed.

Lemma broadcast_tick_action_at f json_dumps fps i cs :
  f (i + 1)%nat = action_at E (i + 1) →
  broadcast_tick_with (with_action_at E f) json_dumps fps i cs
  = broadcast_tick_with E json_dumps fps i cs.
Proof.
  intros Hf. rewrite !broadcast_tick_run. cbn [raises clock_at action_at with_action_at].
  by rewrite Hf, broadcast_action_at.
Qed.

Lemma test_tick_action_at f fps i cs :
  f (i + 1)%nat = action_at E (i + 1) →
  test_tick (with_action_at E f) fps i cs = test_tick E fps i cs.
Proof.
  intros Hf. unfold_test_tick.
  unfold mbind, M_bind, mret, M_ret, raise, lift, log, get_clients, check. cbn.
  destruct (raises E i); cbn; [done|].
  destruct (raises E (i + 1)); cbn; [done|].
  by rewrite Hf.
Qed.

(** *** An iteration without clients *)

Lemma broadcast_tick_idle json_dumps fps i :
  broadcast_tick_with E json_dumps fps i ∅ = tick_without_broadcast E fps i ∅.
Proof.
  rewrite broadcast_tick_run. unfold tick_without_broadcast.
  unfold perf_counter at 1. unfold get_action, time_time, call.
  unfold mbind, M_bind, mret, M_ret, raise, lift, log, get_clients, check. cbn.
  rewrite broadcast_idle. cbn.
  destruct (raises E i); [done|]. cbn.
  destruct (raises E (i + 1)); [done|]. cbn.
  rewrite <- !Nat.add_assoc. cbn [Nat.add].
  destruct (raises E (i + 2)); [done|]. cbn.
  replace (i + 2 + 1)%nat with (i + 3)%nat by lia.
  by destruct (pace_and_display E fps _ _ _ ∅).
Qed.

(** *** The pause of an iteration of the broadcast loop *)

Lemma broadcast_sleeps json_dumps data j cs :
  sleeps_of (calls (broadcast E json_dumps data j cs)) = [].
Proof.
  apply (only_omap broadcast_event); [by intros []|]. apply broadcast_events.
Qed.

Lemma broadcast_tick_sleeps json_dumps fps i cs :
  sleeps_of (calls (broadcast_tick_with E json_dumps fps i cs)) =
  match raises E i, raises E (i + 1), raises E (i + 2) with
  | None, None, None =>
      let b := broadcast E json_dumps
                 (action_data (time_at E (i + 2)) (action_at E (i + 1))) (i + 3) cs in
      let j := (i + 3 + List.length (calls b))%nat in
      match out b, raises E j with
      | Returned _, None =>
          match sleep_time fps (clock_at E j - clock_at E i) with
          | Ok s => if float_gt s 0 then [s] else []
          | Raise _ => []
          end
      | _, _ => []
      end
  | _, _, _ => []
  end.
Proof.
  rewrite broadcast_tick_run.
  destruct (raises E i); [done|].
  destruct (raises E (i + 1)); [done|].
  destruct (raises E (i + 2)); [done|].
  cbv zeta.
  pose proof (broadcast_sleeps json_dumps
                (action_data (time_at E (i + 2)) (action_at E (i + 1))) (i + 3) cs) as Hb.
  destruct (broadcast E json_dumps _ (i + 3) cs) as [[u|e|] tr cs']; cbn [calls out] in Hb |- *.
  - pose proof (pace_and_display_sleeps E fps (clock_at E i) (action_at E (i + 1))
                  (i + 3 + List.length tr) cs') as Hp.
    destruct (pace_and_display E fps _ _ _ cs') as [o tr' cs'']. cbn [calls] in Hp |- *.
    change (EPerfCounter :: EGetAction :: ETime :: tr ++ tr')
      with ([EPerfCounter; EGetAction; ETime] ++ tr ++ tr').
    rewrite !sleeps_of_app, Hb, Hp. done.
  - change (EPerfCounter :: EGetAction :: ETime :: tr)
      with ([EPerfCounter; EGetAction; ETime] ++ tr).
    by rewrite sleeps_of_app, Hb.
  - change (EPerfCounter :: EGetAction :: ETime :: tr)
      with ([EPerfCounter; EGetAction; ETime] ++ tr).
    by rewrite sleeps_of_app, Hb.
Qed.

End Frames.

Section Loops.
Context `{FloatText} (E : env).

Lemma bind_ext {A B} (m : M A) (k k' : A → M B) i cs :
  (∀ a j cs', k a j cs' = k' a j cs') → (m ≫= k) i cs = (m ≫= k') i cs.
Proof.
  intros Hk. unfold mbind, M_bind. destruct (m i cs) as [[a|e|] tr cs']; [|done..].
  by rewrite Hk.
Qed.

Lemma while_true_ext n (body body' : M unit) i cs :
  (∀ j cs', body j cs' = body' j cs') →
  while_true n body i cs = while_true n body' i cs.
Proof.
  intros Hb. revert i cs. induction n as [|n IH]; intros i cs; [done|].
  rewrite !while_true_step, Hb. destruct (body' i cs) as [[u|e|] tr cs']; [|done..].
  by rewrite IH.
Qed.

Lemma try_finally_ext {A} (body body' : M A) final i cs :
  body i cs = body' i cs → try_finally body final i cs = try_finally body' final i cs.
Proof. unfold try_finally. by intros ->. Qed.

Lemma try_except_ext {A} (body body' : M A) handles handler i cs :
  body i cs = body' i cs →
  try_except body handles handler i cs = try_except body' handles handler i cs.
Proof. unfold try_except. by intros ->. Qed.

(** A loop whose first iteration raises is that iteration. *)
Lemma while_true_first n (body : M unit) i cs e :
  out (body i cs) = Raised e → while_true (S n) body i cs = body i cs.
Proof.
  intros Hb. rewrite while_true_step.
  destruct (body i cs) as [o tr cs']. cbn in Hb. by subst o.
Qed.

Lemma broadcast_actions_send_error f fps ticks i cs :
  broadcast_actions (with_send_error E f) fps ticks i cs
  = broadcast_actions E fps ticks i cs.
Proof.
  unfold broadcast_actions.
  change (action_features (with_send_error E f)) with (action_features E).
  apply bind_ext. intros features j cs'. apply bind_ext. intros _ j' cs''.
  apply while_true_ext. intros k c. apply broadcast_tick_send_error.
Qed.

Lemma teleop_websocket_send_error f fps host tcp_port ticks i cs :
  teleop_websocket (with_send_error E f) fps host tcp_port ticks i cs
  = teleop_websocket E fps host tcp_port ticks i cs.
Proof.
  unfold teleop_websocket.
  apply bind_ext. intros _ j1 c1.
  change (call (with_send_error E f)) with (call E).
  change (print (with_send_error E f)) with (print E).
  apply bind_ext. intros _ j2 c2. apply bind_ext. intros _ j3 c3.
  apply bind_ext. intros _ j4 c4.
  apply try_finally_ext, try_except_ext.
  unfold asyncio_run, main, with_serve.
  change (call (with_send_error E f)) with (call E).
  change (print (with_send_error E f)) with (print E).
  apply bind_ext. intros _ j5 c5. apply try_finally_ext.
  apply bind_ext. intros _ j6 c6. apply bind_ext. intros _ j7 c7.
  apply bind_ext. intros _ j8 c8. apply broadcast_actions_send_error.
Qed.

(** *** The run with a frame rate of zero *)

Lemma test_leader_fps0_run n i cs :
  (∀ k, raises E k = None) →
  test_leader E 0 (S n) i cs =
  Run (Raised ZeroDivisionError)
      (test_startup 0 ++ calls (test_tick E 0 (i + 5) cs)
       ++ [EDisconnect; EPrint "Leader device disconnected"])
      (clients (test_tick E 0 (i + 5) cs)).
Proof.
  intros Hcalm. rewrite test_leader_run by (intros; apply Hcalm).
  rewrite shutdown_run.
  pose proof (test_tick_fps0 E (i + 5) cs Hcalm) as Htick.
  rewrite (while_true_first n _ _ _ _ Htick).
  destruct (test_tick E 0 (i + 5) cs) as [o tr cs'].
  cbn in Htick. subst o. case_bool_decide; [done|]. by rewrite finish_calm.
Qed.

Lemma broadcast_tick_fps0_run json_dumps i :
  (∀ k, raises E k = None) →
  broadcast_tick_with E json_dumps 0 i ∅ =
  Run (Raised ZeroDivisionError) [EPerfCounter; EGetAction; ETime; EPerfCounter] ∅.
Proof.
  intros Hcalm. rewrite broadcast_tick_run, !Hcalm, broadcast_idle.
  unfold_pace. unfold mbind, M_bind, mret, M_ret, log, lift, raise.
  rewrite check_run, Hcalm. cbn. by rewrite sleep_time_zero.
Qed.

Lemma teleop_websocket_fps0_run host tcp_port n i cs :
  (∀ k, raises E k = None) →
  features_at E (i + 7) ≠ [] →
  teleop_websocket E 0 host tcp_port (S n) i cs =
  Run (Raised ZeroDivisionError)
      (websocket_startup
       ++ [EServe host tcp_port;
           EPrint ("WebSocket server started on ws://" +:+ host +:+ ":" +:+ pretty tcp_port);
           EPrint ("Streaming actions at " +:+ pretty 0%Z +:+ " fps");
           EPrint (str_mul "-" 50);
           EActionFeatures;
           EPerfCounter; EGetAction; ETime; EPerfCounter;
           EServeClose;
           EDisconnect; EPrint "Leader device disconnected"])
      ∅.
Proof.
  intros Hcalm Hfeat. rewrite teleop_websocket_run by (intros; apply Hcalm).
  rewrite shutdown_run.
  assert (Hmain : main E 0 host tcp_port (S n) (i + 3) ∅ =
    Run (Raised ZeroDivisionError)
      [EServe host tcp_port;
       EPrint ("WebSocket server started on ws://" +:+ host +:+ ":" +:+ pretty tcp_port);
       EPrint ("Streaming actions at " +:+ pretty 0%Z +:+ " fps");
       EPrint (str_mul "-" 50);
       EActionFeatures;
       EPerfCounter; EGetAction; ETime; EPerfCounter;
       EServeClose] ∅).
  { unfold main, with_serve, try_finally, broadcast_actions, action_features, print,
      mbind, M_bind, mret, M_ret.
    rewrite call_run, Hcalm. cbn.
    repeat (rewrite call_run, Hcalm; cbn).
    replace (i + 3 + 1 + 1 + 1 + 1)%nat with (i + 7)%nat by lia.
    destruct (features_at E (i + 7)) as [|ft fs]; [done|]. cbn.
    unfold broadcast_tick.
    match goal with
    | |- context [while_true (S n) ?b ?p ?c] =>
        rewrite (while_true_first n b p c ZeroDivisionError)
          by (by rewrite (broadcast_tick_fps0_run dumps p Hcalm))
    end.
    rewrite broadcast_tick_fps0_run by done. cbn.
    by rewrite serve_close_run, Hcalm, elements_empty. }
  rewrite Hmain. case_bool_decide; [done|]. by rewrite finish_calm.
Qed.
End Loops.

Section Done.
Context `{FloatText} (E : env).

(** The whole of a completed [pace_and_display]. *)
Lemma pace_and_display_done fps loop_start a j cs :
  let r := pace_and_display E fps loop_start a j cs in
  out r = Returned tt →
  ∃ pause timing,
    let nap := suspended E (j + 1) (j + 2) cs in
    let middle := if float_gt pause 0 then EAsyncSleep pause :: calls nap else [] in
    sleep_time fps (clock_at E j - loop_start) = Ok pause
    ∧ timing_str (clock_at E (j + 1 + List.length middle) - loop_start) = Ok timing
    ∧ clients r = (if float_gt pause 0 then clients nap else cs)
    ∧ calls r =
      EPerfCounter :: middle ++
      [EPerfCounter;
       EWrite (clear_line +:+ action_str a +:+ " " +:+ timing +:+ " "
               +:+ "clients:" +:+ pretty (size (clients r)));
       EFlush].
Proof.
  intros r. subst r.
  unfold pace_and_display, perf_counter, stdout_write, stdout_flush, call, asyncio_sleep.
  unfold mbind, M_bind, mret, M_ret, raise, lift, log, get_clients. cbn.
  rewrite check_run. cbn. destruct (raises E j); [done|]. cbn.
  destruct (sleep_time fps _) as [pause|e]; [|done]. cbn.
  destruct (float_gt pause 0) eqn:Hpause; cbn.
  - rewrite ?Nat.add_0_r. rewrite <- ?Nat.add_assoc. cbn [Nat.add].
    pose proof (suspended_out E (j + 1) (j + 2) cs) as Hnap.
    destruct (suspended E (j + 1) (j + 2) cs) as [o tr cs']. cbn in Hnap. subst o. cbn.
    rewrite check_run. cbn. destruct (raises E (j + 1)); [done|]. cbn.
    rewrite check_run. cbn. rewrite (List.app_nil_r tr).
    destruct (raises E _); [done|]. cbn.
    destruct (timing_str _) as [timing|e] eqn:Htiming; [|done]. cbn.
    rewrite !check_run. cbn.
    destruct (raises E _); [done|]. cbn. rewrite check_run.
    destruct (raises E _); [done|]. cbn.
    intros _. exists pause, timing. rewrite Hpause. cbn.
    done.
  - rewrite ?Nat.add_0_r.
    rewrite check_run. cbn. destruct (raises E (j + 1)); [done|]. cbn.
    destruct (timing_str _) as [timing|e] eqn:Htiming; [|done]. cbn.
    rewrite !check_run. cbn.
    destruct (raises E _); [done|]. cbn. rewrite check_run.
    destruct (raises E _); [done|]. cbn.
    intros _. exists pause, timing. rewrite Hpause. cbn.
    rewrite ?Nat.add_0_r. done.
Qed.
End Done.

(* ===================================================================== *)
(** ** The properties of the specification *)
(* ===================================================================== *)

(** C7: each of [calibrate_leader], [test_leader] and [teleop_websocket]
    builds exactly one device, from [get_leader_config], whose port is
    [PORT_LEADER] and whose id is [my_awesome_leader_arm], whatever the mode,
    the flags and the environment. *)
Theorem C7_one_configuration `{FloatText} (E : env) (a : args) fps host tcp_port ticks i cs :
  port get_leader_config = PORT_LEADER
  ∧ id get_leader_config = "my_awesome_leader_arm"%string
  ∧ devices_of (calls (calibrate_leader E i cs)) = [get_leader_config]
  ∧ devices_of (calls (test_leader E fps ticks i cs)) = [get_leader_config]
  ∧ devices_of (calls (teleop_websocket E fps host tcp_port ticks i cs)) = [get_leader_config]
  ∧ devices_of (calls (script E a ticks i cs)) = [get_leader_config].
Proof.
  split; [reflexivity|]. split; [reflexivity|].
  split; [|split; [|split]].
  - exact (script_devices E (default_args Calibrate) ticks i cs).
  - exact (script_devices E {| arg_mode := Test; arg_fps := fps;
                               arg_host := host; arg_port := tcp_port |} ticks i cs).
  - exact (script_devices E {| arg_mode := Websocket; arg_fps := fps;
                               arg_host := host; arg_port := tcp_port |} ticks i cs).
  - apply script_devices.
Qed.

(** C2: in an iteration of the broadcast loop every message sent is the one
    serialization of that iteration's data, and when the three polls of the
    iteration succeed it is sent once to each client of the connected set. *)
Theorem C2_same_payload `{FloatText} (E : env) fps i cs :
  let payload := dumps (action_data (time_at E (i + 2)) (action_at E (i + 1))) in
  let sent := sends_of (calls (broadcast_tick E fps i cs)) in
  sent = match raises E i, raises E (i + 1), raises E (i + 2) with
         | None, None, None => map (λ ws, (ws, payload)) (elements cs)
         | _, _, _ => []
         end
  ∧ (∀ ws message, (ws, message) ∈ sent → message = payload ∧ ws ∈ cs)
  ∧ (∀ ws1 ws2 m1 m2, (ws1, m1) ∈ sent → (ws2, m2) ∈ sent → m1 = m2)
  ∧ NoDup sent.*1.
Proof.
  intros payload sent.
  assert (Hsent : sent = match raises E i, raises E (i + 1), raises E (i + 2) with
                         | None, None, None => map (λ ws, (ws, payload)) (elements cs)
                         | _, _, _ => []
                         end) by apply broadcast_tick_sends.
  assert (Hin : ∀ ws message, (ws, message) ∈ sent → message = payload ∧ ws ∈ cs).
  { intros ws message. rewrite Hsent.
    destruct (raises E i), (raises E (i + 1)), (raises E (i + 2));
      try (intros Hin; by apply elem_of_nil in Hin).
    intros (ws' & [= -> ->] & Hws)%list_elem_of_fmap. split; [done|].
    by apply elem_of_elements. }
  split; [done|]. split; [done|]. split.
  - intros ws1 ws2 m1 m2 [-> _]%Hin [-> _]%Hin. done.
  - rewrite Hsent.
    destruct (raises E i), (raises E (i + 1)), (raises E (i + 2)); try apply NoDup_nil_2.
    rewrite <- list_fmap_compose. cbn.
    rewrite list_fmap_id. apply NoDup_elements.
Qed.

(** C4: which sends fail changes nothing of an iteration of the broadcast
    loop, nor of the whole websocket mode: the outcome, the calls and the
    connected set are those of the run in which no send fails, so a failure is
    not raised out of the loop; every connected client is still sent the
    message, and no client is sent it twice. *)
Theorem C4_failed_send_is_dropped `{FloatText} (E : env) (f : nat → option string)
    fps host tcp_port ticks i cs :
  let E' := with_send_error E f in
  let sent := sends_of (calls (broadcast_tick E' fps i cs)) in
  broadcast_tick E' fps i cs = broadcast_tick (with_send_error E (λ _, None)) fps i cs
  ∧ teleop_websocket E' fps host tcp_port ticks i cs
    = teleop_websocket (with_send_error E (λ _, None)) fps host tcp_port ticks i cs
  ∧ sent = match raises E i, raises E (i + 1), raises E (i + 2) with
           | None, None, None =>
               map (λ ws, (ws, dumps (action_data (time_at E (i + 2)) (action_at E (i + 1)))))
                   (elements cs)
           | _, _, _ => []
           end
  ∧ NoDup sent.*1.
Proof.
  intros E' sent. split; [|split; [|split]].
  - unfold E', broadcast_tick. by rewrite !broadcast_tick_send_error.
  - unfold E'. by rewrite !teleop_websocket_send_error.
  - apply (broadcast_tick_sends E').
  - unfold sent, broadcast_tick. rewrite (broadcast_tick_sends E').
    cbn [raises E' with_send_error].
    destruct (raises E i), (raises E (i + 1)), (raises E (i + 2)); try apply NoDup_nil_2.
    rewrite <- list_fmap_compose. cbn.
    rewrite list_fmap_id. apply NoDup_elements.
Qed.

(** C10: with no client connected an iteration of the broadcast loop is the
    iteration without its broadcast block: nothing is sent, whatever the
    serializer is makes no difference, and the device is polled as in any
    iteration.  The pause is still made: what the iteration sleeps is
    [max(0, 1/fps - dt)] for the time [dt] elapsed since its start, when that
    is positive.  The line is still displayed: an iteration that completes
    is the three polls, the clock read, the pause if there is one (with what
    the handlers of the connections opened meanwhile print), and then the
    clock read, the one write of the display line and the flush; the line
    shows the action polled, the time the second clock read measured and the
    number of clients connected by then. *)
Theorem C10_no_clients `{FloatText} (E : env) (d1 d2 : json → string) fps i :
  let tick := broadcast_tick E fps i ∅ in
  tick = tick_without_broadcast E fps i ∅
  ∧ broadcast_tick_with E d1 fps i ∅ = broadcast_tick_with E d2 fps i ∅
  ∧ sends_of (calls tick) = []
  ∧ count is_get_action (calls tick) =
    match raises E i with Some _ => 0%nat | None => 1%nat end
  ∧ (raises E i = None → raises E (i + 1) = None → raises E (i + 2) = None →
     let rest := pace_and_display E fps (clock_at E i) (action_at E (i + 1)) (i + 3) ∅ in
     tick = Run (out rest) ([EPerfCounter; EGetAction; ETime] ++ calls rest) (clients rest))
  ∧ sleeps_of (calls tick) =
    match raises E i, raises E (i + 1), raises E (i + 2), raises E (i + 3) with
    | None, None, None, None =>
        match sleep_time fps (clock_at E (i + 3) - clock_at E i) with
        | Ok pause => if float_gt pause 0 then [pause] else []
        | Raise _ => []
        end
    | _, _, _, _ => []
    end
  ∧ (out tick = Returned tt →
     ∃ pause timing,
       let nap := suspended E (i + 4) (i + 5) ∅ in
       let middle := if float_gt pause 0 then EAsyncSleep pause :: calls nap else [] in
       sleep_time fps (clock_at E (i + 3) - clock_at E i) = Ok pause
       ∧ timing_str (clock_at E (i + 4 + List.length middle) - clock_at E i) = Ok timing
       ∧ clients tick = (if float_gt pause 0 then clients nap else ∅)
       ∧ calls tick =
         [EPerfCounter; EGetAction; ETime; EPerfCounter] ++ middle ++
         [EPerfCounter;
          EWrite (clear_line +:+ action_str (action_at E (i + 1)) +:+ " " +:+ timing +:+ " "
                  +:+ "clients:" +:+ pretty (size (clients tick)));
          EFlush]).
Proof.
  intros tick.
  assert (Hrest : raises E i = None → raises E (i + 1) = None → raises E (i + 2) = None →
     let rest := pace_and_display E fps (clock_at E i) (action_at E (i + 1)) (i + 3) ∅ in
     tick = Run (out rest) ([EPerfCounter; EGetAction; ETime] ++ calls rest) (clients rest)).
  { intros H0 H1 H2 rest. unfold tick, broadcast_tick.
    rewrite broadcast_tick_run, H0, H1, H2, broadcast_idle. cbn [List.length].
    replace (i + 3 + 0)%nat with (i + 3)%nat by lia. fold rest.
    by destruct rest. }
  split; [apply broadcast_tick_idle|].
  split; [by rewrite !broadcast_tick_idle|].
  split.
  { unfold tick, broadcast_tick. rewrite broadcast_tick_sends, elements_empty.
    by destruct (raises E i), (raises E (i + 1)), (raises E (i + 2)). }
  split; [apply broadcast_tick_polls|].
  split; [exact Hrest|].
  split.
  { unfold tick, broadcast_tick. rewrite broadcast_tick_sleeps.
    destruct (raises E i); [done|]. destruct (raises E (i + 1)); [done|].
    destruct (raises E (i + 2)); [done|].
    rewrite broadcast_idle. cbn [out calls List.length].
    by replace (i + 3 + 0)%nat with (i + 3)%nat by lia. }
  intros Hout.
  assert (H0 : raises E i = None ∧ raises E (i + 1) = None ∧ raises E (i + 2) = None).
  { revert Hout. unfold tick, broadcast_tick. rewrite broadcast_tick_run.
    destruct (raises E i); [done|]. destruct (raises E (i + 1)); [done|].
    by destruct (raises E (i + 2)). }
  destruct H0 as (H0 & H1 & H2). specialize (Hrest H0 H1 H2). cbv zeta in Hrest.
  rewrite Hrest in Hout |- *. cbn [out calls clients] in Hout |- *.
  destruct (pace_and_display_done E fps (clock_at E i) (action_at E (i + 1)) (i + 3) ∅ Hout)
    as (pause & timing & Hpause & Htiming & Hclients & Hcalls).
  exists pause, timing. cbv zeta.
  replace (i + 3 + 1)%nat with (i + 4)%nat in * by lia.
  replace (i + 3 + 2)%nat with (i + 5)%nat in * by lia.
  split; [done|]. split; [done|]. split; [done|].
  by rewrite Hcalls.
Qed.

(** C9: the key of the broadcast is the motor name with every occurrence of
    [.pos] removed, in the middle of the name as at its end, which an
    occurrence at the end alone would not be; the keys of the actions object
    are distinct, and the value at a key is the angle of the last motor whose
    name becomes that key, so two motors whose names become equal share one
    key that holds the later angle. *)
Theorem C9_every_occurrence_and_collisions (head tail : string)
    (before after : action) (motor : string) (angle : float) :
  (∀ mv, mv ∈ after → joint_name mv.1 ≠ joint_name motor) →
  joint_name (head +:+ ".pos" +:+ tail) = joint_name head +:+ joint_name tail
  ∧ joint_name "a.posb" = "ab"%string
  ∧ suffix_name "a.posb" = "a.posb"%string
  ∧ NoDup (dict_keys (actions_of (before ++ (motor, angle) :: after)))
  ∧ dict_get (joint_name motor) (actions_of (before ++ (motor, angle) :: after))
    = Some angle.
Proof.
  intros Hlast. split; [apply joint_name_app_pos|].
  split; [reflexivity|]. split; [reflexivity|].
  split; [apply dict_comp_NoDup|].
  unfold actions_of. rewrite dict_get_comp.
  by apply (last_value_last (λ mv : string * float, joint_name mv.1) (λ mv, py_float mv.2)).
Qed.

(** Two motors, [a.pos] and [a], become the one key [a], which holds the
    angle of [a], the later of the two. *)
Lemma C9_collision_example :
  joint_name "a.pos" = joint_name "a"
  ∧ dict_keys (actions_of [("a.pos"%string, 1%float); ("a"%string, 2%float)]) = ["a"%string]
  ∧ dict_get "a"%string (actions_of [("a.pos"%string, 1%float); ("a"%string, 2%float)])
    = Some 2%float.
Proof.
  pose proof (C9_every_occurrence_and_collisions "a" "" [("a.pos"%string, 1%float)] []
                "a" 2%float) as Hclaim.
  split; [reflexivity|]. split; [reflexivity|].
  apply Hclaim. intros mv Hmv. by apply elem_of_nil in Hmv.
Defined.

(** C5: an iteration of either loop calls [get_action] once (not at all if
    the clock read that opens the iteration raises), so a loop still running
    after [ticks] iterations has called it [ticks] times; and the iteration
    uses no action but the one it polled: with any other actions returned by
    the device at the other positions of the trace, the iteration is the
    same. *)
Theorem C5_one_action_per_tick `{FloatText} (E : env) (f : nat → action) fps ticks i cs :
  f (i + 1)%nat = action_at E (i + 1) →
  count is_get_action (calls (test_tick E fps i cs)) =
    match raises E i with Some _ => 0%nat | None => 1%nat end
  ∧ count is_get_action (calls (broadcast_tick E fps i cs)) =
    match raises E i with Some _ => 0%nat | None => 1%nat end
  ∧ (out (while_true ticks (test_tick E fps) i cs) = StillRunning →
     count is_get_action (calls (while_true ticks (test_tick E fps) i cs)) = ticks)
  ∧ (out (while_true ticks (broadcast_tick E fps) i cs) = StillRunning →
     count is_get_action (calls (while_true ticks (broadcast_tick E fps) i cs)) = ticks)
  ∧ test_tick (with_action_at E f) fps i cs = test_tick E fps i cs
  ∧ broadcast_tick (with_action_at E f) fps i cs = broadcast_tick E fps i cs.
Proof.
  intros Hf. split; [apply test_tick_polls|]. split; [apply broadcast_tick_polls|].
  split; [|split; [|split]].
  - apply while_true_count.
    + intros j c. apply test_tick_get_action.
    + intros j c. apply test_tick_get_action.
    + intros j c. apply test_tick_not_running.
  - apply while_true_count.
    + intros j c. apply broadcast_tick_get_action.
    + intros j c. apply broadcast_tick_get_action.
    + intros j c. apply broadcast_tick_not_running.
  - by apply test_tick_action_at.
  - by apply broadcast_tick_action_at.
Qed.

(** C6: for a positive [fps], [1 / fps] is a float, the period, and the
    pause computed from an elapsed time [dt] is [max(0, period - dt)], the
    difference rounded as every float operation is; the pause is never below
    zero.  In both loops every pause made is that value for the time elapsed
    since the start of the iteration, and is above zero, and an iteration
    that completes pauses exactly when that value is above zero. *)
Theorem C6_pause `{FloatText} (E : env) (fps : Z) (dt : float) i cs :
  (0 < fps)%Z →
  let pause (elapsed : float) := py_max 0 (period fps - elapsed) in
  let elapsed_test := (clock_at E (i + 5) - clock_at E i)%float in
  let b := broadcast E dumps (action_data (time_at E (i + 2)) (action_at E (i + 1)))
             (i + 3) cs in
  let elapsed_broadcast :=
    (clock_at E (i + 3 + List.length (calls b)) - clock_at E i)%float in
  int_truediv 1 fps = Ok (period fps)
  ∧ sleep_time fps dt = Ok (pause dt)
  ∧ pause dt = (if float_gt (period fps - dt) 0 then period fps - dt else 0)%float
  ∧ float_gt 0 (pause dt) = false
  ∧ (∀ d, d ∈ sleeps_of (calls (test_tick E fps i cs)) →
          d = pause elapsed_test ∧ float_gt d 0 = true)
  ∧ (∀ d, d ∈ sleeps_of (calls (broadcast_tick E fps i cs)) →
          d = pause elapsed_broadcast ∧ float_gt d 0 = true)
  ∧ (out (test_tick E fps i cs) = Returned tt →
     sleeps_of (calls (test_tick E fps i cs)) =
     if float_gt (pause elapsed_test) 0 then [pause elapsed_test] else [])
  ∧ (out (broadcast_tick E fps i cs) = Returned tt →
     sleeps_of (calls (broadcast_tick E fps i cs)) =
     if float_gt (pause elapsed_broadcast) 0 then [pause elapsed_broadcast] else []).
Proof.
  intros Hfps pause elapsed_test b elapsed_broadcast.
  assert (Hne : fps ≠ 0%Z) by lia.
  assert (Hpause : ∀ e, sleep_time fps e = Ok (pause e))
    by (intros e; by apply sleep_time_ok).
  split; [by apply int_truediv_one|].
  split; [apply Hpause|]. split; [apply py_max_zero|].
  split; [apply py_max_not_negative|].
  destruct (test_tick_sleeps E fps i cs) as [Htest Htest'].
  pose proof (broadcast_tick_sleeps E dumps fps i cs) as Hbroadcast.
  cbv zeta in Htest, Htest', Hbroadcast. fold b elapsed_test in Htest, Htest', Hbroadcast.
  rewrite Hpause in Htest, Htest'.
  split; [|split; [|split]].
  - intros d [[= <-] Hgt]%Htest. done.
  - intros d. unfold broadcast_tick. rewrite Hbroadcast.
    destruct (raises E i), (raises E (i + 1)), (raises E (i + 2));
      try (intros Hd; by apply elem_of_nil in Hd).
    destruct (out b); try (intros Hd; by apply elem_of_nil in Hd).
    destruct (raises E _); try (intros Hd; by apply elem_of_nil in Hd).
    fold elapsed_broadcast. rewrite Hpause.
    destruct (float_gt (pause elapsed_broadcast) 0) eqn:Hgt;
      [|intros Hd; by apply elem_of_nil in Hd].
    intros ->%list_elem_of_singleton. done.
  - done.
  - unfold broadcast_tick. rewrite Hbroadcast, broadcast_tick_run.
    destruct (raises E i); [done|]. destruct (raises E (i + 1)); [done|].
    destruct (raises E (i + 2)); [done|].
    fold b elapsed_broadcast. unfold elapsed_broadcast.
    destruct b as [[u|e|] tr cs']; [|done..]. cbn [out calls].
    unfold_pace. unfold mbind, M_bind, mret, M_ret, log, lift, raise.
    rewrite check_run.
    destruct (raises E (i + 3 + List.length tr)); [done|].
    cbn. by rewrite Hpause.
Qed.

(** C8: [--fps] is any integer, and with [fps = 0] the pause cannot be
    computed: [1 / fps] raises [ZeroDivisionError] whatever the elapsed time.
    In an environment where no call fails (and, in websocket mode, the device
    has a feature), test mode and websocket mode end with
    [ZeroDivisionError] in the first iteration of their loop: the device is
    polled once, nothing is slept, and the device is disconnected on the way
    out. *)
Theorem C8_zero_fps `{FloatText} (E : env) (dt : float) host tcp_port n i cs :
  (∀ k, raises E k = None) →
  features_at E (i + 7) ≠ [] →
  let test := script E {| arg_mode := Test; arg_fps := 0;
                          arg_host := host; arg_port := tcp_port |} (S n) i cs in
  let websocket := script E {| arg_mode := Websocket; arg_fps := 0;
                               arg_host := host; arg_port := tcp_port |} (S n) i cs in
  sleep_time 0 dt = Raise ZeroDivisionError
  ∧ out (test_tick E 0 (i + 5) cs) = Raised ZeroDivisionError
  ∧ test = Run (Raised ZeroDivisionError)
               (test_startup 0 ++ calls (test_tick E 0 (i + 5) cs)
                ++ [EDisconnect; EPrint "Leader device disconnected"])
               (clients (test_tick E 0 (i + 5) cs))
  ∧ count is_get_action (calls test) = 1%nat
  ∧ sleeps_of (calls test) = []
  ∧ websocket = Run (Raised ZeroDivisionError)
        (websocket_startup
         ++ [EServe host tcp_port;
             EPrint ("WebSocket server started on ws://" +:+ host +:+ ":" +:+ pretty tcp_port);
             EPrint ("Streaming actions at " +:+ pretty 0%Z +:+ " fps");
             EPrint (str_mul "-" 50);
             EActionFeatures;
             EPerfCounter; EGetAction; ETime; EPerfCounter;
             EServeClose;
             EDisconnect; EPrint "Leader device disconnected"])
        ∅.
Proof.
  intros Hcalm Hfeatures test websocket.
  assert (Htest : test = Run (Raised ZeroDivisionError)
               (test_startup 0 ++ calls (test_tick E 0 (i + 5) cs)
                ++ [EDisconnect; EPrint "Leader device disconnected"])
               (clients (test_tick E 0 (i + 5) cs)))
    by (by apply test_leader_fps0_run).
  split; [apply sleep_time_zero|]. split; [by apply test_tick_fps0|].
  split; [done|]. split; [|split].
  - rewrite Htest. cbn [calls]. rewrite !count_app, test_tick_polls, Hcalm. done.
  - rewrite Htest. cbn [calls]. rewrite !sleeps_of_app.
    destruct (test_tick_sleeps E 0 (i + 5) cs) as [Hsleeps _]. cbv zeta in Hsleeps.
    destruct (sleeps_of (calls (test_tick E 0 (i + 5) cs))) as [|d ds]; [done|].
    destruct (Hsleeps d) as [Hd _]; [by left|]. by rewrite sleep_time_zero in Hd.
  - by apply teleop_websocket_fps0_run.
Qed.

Section Release.
Context `{FloatText} (E : env).

Lemma loop_session_events fps ticks i cs :
  only session_event (calls (while_true ticks (test_tick E fps) i cs)).
Proof.
  apply while_true_events. intros j c.
  apply (only_impl tick_event); [by intros []|]. apply test_tick_events.
Qed.

Lemma main_session_events fps host tcp_port ticks i cs :
  only session_event (calls (main E fps host tcp_port ticks i cs)).
Proof. by apply emits_main. Qed.

(** A session that opened the device: the device is connected once, and
    released once as soon as the body has ended, however it ended. *)
Lemma session_disconnects (startup : list event) body msg i cs (r : run unit) :
  count is_connect startup = 1%nat →
  count is_disconnect startup = 0%nat →
  only session_event (calls (body i cs)) →
  r = match shutdown E body msg i cs with
      | Run o tr cs' => Run o (startup ++ tr) cs'
      end →
  count is_connect (calls r) = 1%nat
  ∧ count is_disconnect (calls r) =
    match out r with StillRunning => 0%nat | _ => 1%nat end
  ∧ (out r = StillRunning ↔ out (body i cs) = StillRunning).
Proof.
  intros Hc Hd Hbody ->.
  destruct (shutdown_disconnects E body msg i cs Hbody) as [Hc' Hd'].
  pose proof (shutdown_calls E body msg i cs) as Hs.
  destruct (shutdown E body msg i cs) as [o tr cs'] eqn:Hrun.
  cbn [calls out] in *. rewrite !count_app, Hc, Hd, Hc', Hd'.
  split; [done|]. split; [done|].
  destruct (out (body i cs)) eqn:Hout.
  - destruct Hs as [Hs _]. split; [done|]. done.
  - destruct Hs as [Hs _]. split; [done|]. done.
  - rewrite <- Hs in Hout. by cbn in Hout.
Qed.
End Release.

(** C3: once the device is opened (the calls of the startup succeed), test
    mode and websocket mode connect it once and, as soon as the loop has
    ended, by [KeyboardInterrupt], by another exception or by returning, have
    called [disconnect] exactly once; while the loop runs it is not called.
    When the loop ends by [KeyboardInterrupt] and the shutdown is not
    interrupted again, the mode prints its goodbye, disconnects the device
    and returns normally. *)
Theorem C3_release_once `{FloatText} (E : env) fps host tcp_port ticks i cs :
  let test := test_leader E fps ticks i cs in
  let loop := while_true ticks (test_tick E fps) (i + 5) cs in
  let websocket := teleop_websocket E fps host tcp_port ticks i cs in
  let session := main E fps host tcp_port ticks (i + 3) ∅ in
  ((∀ k, (k < 5)%nat → raises E (i + k) = None) →
   count is_connect (calls test) = 1%nat
   ∧ count is_disconnect (calls test) =
     match out test with StillRunning => 0%nat | _ => 1%nat end
   ∧ (out test = StillRunning ↔ out loop = StillRunning)
   ∧ (out loop = Raised KeyboardInterrupt →
      (∀ k, (k < 3)%nat → raises E (i + 5 + List.length (calls loop) + k) = None) →
      test = Run (Returned tt)
               (test_startup fps ++ calls loop
                ++ [EPrint test_goodbye; EDisconnect; EPrint "Leader device disconnected"])
               (clients loop)))
  ∧ ((∀ k, (k < 3)%nat → raises E (i + k) = None) →
     count is_connect (calls websocket) = 1%nat
     ∧ count is_disconnect (calls websocket) =
       match out websocket with StillRunning => 0%nat | _ => 1%nat end
     ∧ (out websocket = StillRunning ↔ out session = StillRunning)
     ∧ (out session = Raised KeyboardInterrupt →
        (∀ k, (k < 3)%nat → raises E (i + 3 + List.length (calls session) + k) = None) →
        websocket = Run (Returned tt)
                      (websocket_startup ++ calls session
                       ++ [EPrint websocket_goodbye; EDisconnect;
                           EPrint "Leader device disconnected"])
                      (clients session))).
Proof.
  intros test loop websocket session. split.
  - intros Hstartup.
    assert (Hrun : test = match shutdown E (while_true ticks (test_tick E fps))
                                  test_goodbye (i + 5) cs with
                          | Run o tr cs' => Run o (test_startup fps ++ tr) cs'
                          end) by (by apply test_leader_run).
    destruct (session_disconnects E (test_startup fps) _ _ _ _ test
                eq_refl eq_refl (loop_session_events E fps ticks (i + 5) cs) Hrun)
      as (Hc & Hd & Hr).
    split; [done|]. split; [done|]. split; [done|].
    intros Hout Hcalm. rewrite Hrun.
    by rewrite (shutdown_graceful E _ test_goodbye (i + 5) cs Hout Hcalm).
  - intros Hstartup.
    assert (Hrun : websocket = match shutdown E (main E fps host tcp_port ticks)
                                       websocket_goodbye (i + 3) ∅ with
                               | Run o tr cs' => Run o (websocket_startup ++ tr) cs'
                               end) by (by apply teleop_websocket_run).
    destruct (session_disconnects E websocket_startup _ _ _ _ websocket
                eq_refl eq_refl (main_session_events E fps host tcp_port ticks (i + 3) ∅) Hrun)
      as (Hc & Hd & Hr).
    split; [done|]. split; [done|]. split; [done|].
    intros Hout Hcalm. rewrite Hrun.
    by rewrite (shutdown_graceful E _ websocket_goodbye (i + 3) ∅ Hout Hcalm).
Qed.

Section Keys.
Context {K V : Type} `{EqDecision K}.

Lemma dict_get_is_Some (k : K) (d : list (K * V)) :
  is_Some (dict_get k d) ↔ k ∈ dict_keys d.
Proof.
  induction d as [|[k' v] d IH]; cbn.
  - split; [by intros [? ?] | by intros ?%elem_of_nil].
  - destruct (decide (k = k')) as [->|Hne].
    + split; [intros _; by left | by eexists].
    + rewrite IH. split; [by right|]. by intros [?|?]%elem_of_cons.
Qed.
End Keys.

Lemma actions_of_keys (a : action) (k : string) :
  k ∈ dict_keys (actions_of a) ↔ ∃ mv, mv ∈ a ∧ joint_name mv.1 = k.
Proof.
  rewrite <- dict_get_is_Some. unfold actions_of. rewrite dict_get_comp.
  apply last_value_is_Some.
Qed.

Lemma tree_of_action_data `{FloatText} (now : float) (a : action) :
  tree_of (action_data now a) =
  TObject [("timestamp"%string, TNumber (float_json now));
           ("actions"%string,
            TObject (map (λ kv, (kv.1, TNumber (float_json kv.2))) (actions_of a)))].
Proof.
  unfold action_data. cbn [tree_of map fst snd].
  do 4 f_equal. rewrite map_map. done.
Qed.

(** The values of the [actions] dictionary are angles of the action. *)
Lemma actions_of_values (P : float → Prop) (a : action) :
  Forall (λ mv, P mv.2) a → Forall (λ kv, P kv.2) (actions_of a).
Proof.
  intros Ha. apply Forall_forall. intros [k v] Hkv.
  assert (Hget : dict_get k (actions_of a) = Some v).
  { apply dict_get_elem; [apply dict_comp_NoDup | done]. }
  unfold actions_of in Hget. rewrite dict_get_comp in Hget.
  apply last_value_elem in Hget as (mv & Hmv & _ & <-).
  exact (proj1 (Forall_forall _ _) Ha mv Hmv).
Qed.


Lemma C10_no_clients_witness :
  let E := calm arm_action in
  let tick := broadcast_tick E 10 0 ∅ in
  let pause := (period 10 - (clock_at E 3 - clock_at E 0))%float in
  sends_of (calls tick) = []
  ∧ count is_get_action (calls tick) = 1%nat
  ∧ sleeps_of (calls tick) = [pause]
  ∧ calls tick =
    [EPerfCounter; EGetAction; ETime; EPerfCounter; EAsyncSleep pause; EPerfCounter;
     EWrite (clear_line
             +:+ "s_pan: 12.50 | e_flex:-30.00 | gripper:  0.25 [50.0ms, 20Hz] clients:0");
     EFlush].
Proof.
  intros E tick pause.
  destruct (C10_no_clients E dumps dumps 10 0)
    as (_ & _ & Hsends & Hpolls & _ & Hsleeps & Hdone).
  split; [exact Hsends|]. split; [exact Hpolls|]. split; [exact Hsleeps|].
  destruct (Hdone eq_refl) as (nap & timing & Hnap & Htiming & _ & Hcalls).
  vm_compute in Hnap. injection Hnap as <-.
  vm_compute in Htiming. injection Htiming as <-.
  exact Hcalls.
Defined.

Lemma C3_release_once_witness :
  let E := interrupted_at 18 (calm arm_action) in
  let test := test_leader E 30 3 0 ∅ in
  let websocket := teleop_websocket E 30 "localhost" 8765 3 0 ∅ in
  (out test = Returned tt
   ∧ count is_connect (calls test) = 1%nat ∧ count is_disconnect (calls test) = 1%nat)
  ∧ (out websocket = Returned tt
     ∧ count is_connect (calls websocket) = 1%nat
     ∧ count is_disconnect (calls websocket) = 1%nat).
Proof.
  destruct (C3_release_once (interrupted_at 18 (calm arm_action)) 30 "localhost" 8765 3 0 ∅)
    as [Htest Hwebsocket].
  split.
  - destruct Htest as (Hc & Hd & _ & Hrun).
    { intros k Hk. do 5 (destruct k as [|k]; [reflexivity|]). lia. }
    assert (Hout : out (test_leader (interrupted_at 18 (calm arm_action)) 30 3 0 ∅)
                   = Returned tt).
    { rewrite Hrun; [reflexivity | reflexivity |].
      intros k Hk. do 3 (destruct k as [|k]; [reflexivity|]). lia. }
    rewrite Hout in Hd. exact (conj Hout (conj Hc Hd)).
  - destruct Hwebsocket as (Hc & Hd & _ & Hrun).
    { intros k Hk. do 3 (destruct k as [|k]; [reflexivity|]). lia. }
    assert (Hout : out (teleop_websocket (interrupted_at 18 (calm arm_action)) 30
                          "localhost" 8765 3 0 ∅) = Returned tt).
    { rewrite Hrun; [reflexivity | reflexivity |].
      intros k Hk. do 3 (destruct k as [|k]; [reflexivity|]). lia. }
    rewrite Hout in Hd. exact (conj Hout (conj Hc Hd)).
Defined.

Lemma C5_one_action_per_tick_witness :
  let E := calm arm_action in
  let elsewhere (k : nat) : action := if (k =? 1)%nat then arm_action else [] in
  count is_get_action (calls (while_true 3 (test_tick E 30) 0 ∅)) = 3%nat
  ∧ count is_get_action (calls (while_true 3 (broadcast_tick E 30) 0 ∅)) = 3%nat
  ∧ test_tick (with_action_at E elsewhere) 30 0 ∅ = test_tick E 30 0 ∅
  ∧ broadcast_tick (with_action_at E elsewhere) 30 0 ∅ = broadcast_tick E 30 0 ∅.
Proof.
  destruct (C5_one_action_per_tick (calm arm_action)
              (λ k, if (k =? 1)%nat then arm_action else []) 30 3 0 ∅ eq_refl)
    as (_ & _ & Htest & Hbroadcast & Htick & Htick').
  split; [apply Htest; reflexivity|]. split; [apply Hbroadcast; reflexivity|].
  split; [exact Htick | exact Htick'].
Defined.

Lemma C6_pause_witness :
  let E := calm arm_action in
  sleep_time 10 0.03125 = Ok 0x1.199999999999ap-4%float
  ∧ sleep_time 3 (period 3) = Ok 0%float
  ∧ sleeps_of (calls (test_tick E 10 0 ∅)) = [(period 10 - (clock_at E 5 - clock_at E 0))%float]
  ∧ sleeps_of (calls (broadcast_tick E 10 0 ∅))
    = [(period 10 - (clock_at E 3 - clock_at E 0))%float]
  ∧ sleeps_of (calls (test_tick E 30 0 ∅)) = [].
Proof.
  destruct (C6_pause (calm arm_action) 10 0.03125 0 ∅ eq_refl)
    as (_ & Hpause & _ & _ & _ & _ & Htest & Hbroadcast).
  destruct (C6_pause (calm arm_action) 3 (period 3) 0 ∅ eq_refl)
    as (_ & Hthird & _).
  destruct (C6_pause (calm arm_action) 30 0.03125 0 ∅ eq_refl)
    as (_ & _ & _ & _ & _ & _ & Hfast & _).
  split; [exact Hpause|]. split; [exact Hthird|].
  split; [exact (Htest eq_refl)|]. split; [exact (Hbroadcast eq_refl)|].
  exact (Hfast eq_refl).
Defined.

Lemma C8_zero_fps_witness :
  let E := calm arm_action in
  out (start (script E {| arg_mode := Test; arg_fps := 0;
                          arg_host := "localhost"; arg_port := 8765 |} 3))
  = Raised ZeroDivisionError
  ∧ out (start (script E {| arg_mode := Websocket; arg_fps := 0;
                            arg_host := "localhost"; arg_port := 8765 |} 3))
    = Raised ZeroDivisionError
  ∧ count is_get_action
      (calls (start (script E {| arg_mode := Test; arg_fps := 0;
                                 arg_host := "localhost"; arg_port := 8765 |} 3))) = 1%nat.
Proof.
  assert (Hfeatures : features_at (calm arm_action) (0 + 7) ≠ []) by done.
  destruct (C8_zero_fps (calm arm_action) 0 "localhost" 8765 2 0 ∅
              (λ k, eq_refl) Hfeatures)
    as (_ & _ & Htest & Hpolls & _ & Hwebsocket).
  unfold start. split; [by rewrite Htest|]. split; [by rewrite Hwebsocket|].
  exact Hpolls.
Defined.

(* ===================================================================== *)
(** ** Further properties of the script *)
(* ===================================================================== *)

(** X1: [calibrate_leader] has no [try]: it makes its four calls in order and
    stops at the first that raises, so the device is disconnected only when
    [connect] and [calibrate] both succeed. *)
Theorem calibrate_leader_run `{FloatText} (E : env) i cs :
  calibrate_leader E i cs =
  match raises E i, raises E (i + 1), raises E (i + 2), raises E (i + 3) with
  | Some e, _, _, _ => Run (Raised e) [ESO101Leader get_leader_config] cs
  | None, Some e, _, _ =>
      Run (Raised e) [ESO101Leader get_leader_config; EConnect (Some false)] cs
  | None, None, Some e, _ =>
      Run (Raised e) [ESO101Leader get_leader_config; EConnect (Some false); ECalibrate] cs
  | None, None, None, Some e =>
      Run (Raised e)
          [ESO101Leader get_leader_config; EConnect (Some false); ECalibrate; EDisconnect] cs
  | None, None, None, None =>
      Run (Returned tt)
          [ESO101Leader get_leader_config; EConnect (Some false); ECalibrate; EDisconnect] cs
  end
  ∧ count is_disconnect (calls (calibrate_leader E i cs)) =
    match raises E i, raises E (i + 1), raises E (i + 2) with
    | None, None, None => 1%nat
    | _, _, _ => 0%nat
    end.
Proof.
  assert (Hrun : calibrate_leader E i cs =
    match raises E i, raises E (i + 1), raises E (i + 2), raises E (i + 3) with
    | Some e, _, _, _ => Run (Raised e) [ESO101Leader get_leader_config] cs
    | None, Some e, _, _ =>
        Run (Raised e) [ESO101Leader get_leader_config; EConnect (Some false)] cs
    | None, None, Some e, _ =>
        Run (Raised e) [ESO101Leader get_leader_config; EConnect (Some false); ECalibrate] cs
    | None, None, None, Some e =>
        Run (Raised e)
            [ESO101Leader get_leader_config; EConnect (Some false); ECalibrate; EDisconnect] cs
    | None, None, None, None =>
        Run (Returned tt)
            [ESO101Leader get_leader_config; EConnect (Some false); ECalibrate; EDisconnect] cs
    end).
  { unfold calibrate_leader, mbind, M_bind, mret, M_ret.
    rewrite call_run. destruct (raises E i); [done|]. cbn.
    rewrite call_run. destruct (raises E (i + 1)); [done|]. cbn.
    rewrite call_run. replace (i + 1 + 1)%nat with (i + 2)%nat by lia.
    destruct (raises E (i + 2)); [done|]. cbn.
    rewrite call_run. replace (i + 2 + 1)%nat with (i + 3)%nat by lia.
    by destruct (raises E (i + 3)). }
  split; [exact Hrun|]. rewrite Hrun.
  destruct (raises E i); [done|]. destruct (raises E (i + 1)); [done|].
  destruct (raises E (i + 2)); [done|]. by destruct (raises E (i + 3)).
Qed.

Section Session.
Context `{FloatText} (E : env).

Lemma main_run fps host tcp_port ticks i cs :
  (∀ k, (k < 5)%nat → raises E (i + k) = None) →
  features_at E (i + 4) ≠ [] →
  main E fps host tcp_port ticks i cs =
  match while_true ticks (broadcast_tick E fps) (i + 5) cs with
  | Run o tr cs' =>
      serve_exit E o (session_startup fps host tcp_port ++ tr) cs'
                 (i + 5 + List.length tr)
  end.
Proof.
  intros Hup Hfeatures.
  assert (H0 : raises E i = None) by (rewrite <- (Nat.add_0_r i); apply Hup; lia).
  pose proof (Hup 1%nat ltac:(lia)) as H1. pose proof (Hup 2%nat ltac:(lia)) as H2.
  pose proof (Hup 3%nat ltac:(lia)) as H3. pose proof (Hup 4%nat ltac:(lia)) as H4.
  unfold main, with_serve, try_finally, broadcast_actions, action_features, print,
    mbind, M_bind, mret, M_ret.
  rewrite call_run, H0. cbn.
  rewrite call_run, H1. cbn.
  rewrite call_run. replace (i + 1 + 1)%nat with (i + 2)%nat by lia. rewrite H2. cbn.
  rewrite call_run. replace (i + 2 + 1)%nat with (i + 3)%nat by lia. rewrite H3. cbn.
  rewrite call_run. replace (i + 3 + 1)%nat with (i + 4)%nat by lia. rewrite H4. cbn.
  destruct (features_at E (i + 4)) as [|ft fs]; [done|]. cbn.
  replace (i + 4 + 1 + 0)%nat with (i + 5)%nat by lia.
  destruct (while_true ticks (broadcast_tick E fps) (i + 5) cs) as [[u|e|] tr cs']; cbn.
  - replace (i + 1 + S (S (S (S (List.length tr)))))%nat
      with (i + 5 + List.length tr)%nat by lia.
    rewrite serve_close_run. by destruct (raises E (i + 5 + List.length tr)).
  - replace (i + 1 + S (S (S (S (List.length tr)))))%nat
      with (i + 5 + List.length tr)%nat by lia.
    rewrite serve_close_run. by destruct (raises E (i + 5 + List.length tr)).
  - done.
Qed.
End Session.

Section Exits.
Context `{FloatText} (E : env).

Lemma bind_returns {A B} (m : M A) (k : A → M B) i cs b :
  out ((m ≫= k) i cs) = Returned b → ∃ a j cs', out (k a j cs') = Returned b.
Proof.
  unfold mbind, M_bind. destruct (m i cs) as [[a|e|] tr cs']; [|done..].
  destruct (k a (i + List.length tr) cs') as [o tr' cs''] eqn:Hk. cbn. intros ->.
  exists a, (i + List.length tr)%nat, cs'. by rewrite Hk.
Qed.

Lemma try_finally_returns {A} (body : M A) final i cs a :
  out (try_finally body final i cs) = Returned a → out (body i cs) = Returned a.
Proof.
  unfold try_finally. destruct (body i cs) as [[a'|e|] tr cs']; [| |done].
  - by destruct (final _ cs') as [[u|e'|] tr' cs''].
  - by destruct (final _ cs') as [[u|e'|] tr' cs''].
Qed.

Lemma main_not_returned fps host tcp_port ticks i cs u :
  out (main E fps host tcp_port ticks i cs) ≠ Returned u.
Proof.
  unfold main, with_serve, broadcast_actions.
  intros (_ & j1 & c1 & Hret%try_finally_returns)%bind_returns.
  apply bind_returns in Hret as (_ & j2 & c2 & Hret).
  apply bind_returns in Hret as (_ & j3 & c3 & Hret).
  apply bind_returns in Hret as (_ & j4 & c4 & Hret).
  apply bind_returns in Hret as (features & j5 & c5 & Hret).
  apply bind_returns in Hret as (len & j6 & c6 & Hret).
  by apply while_true_not_returned in Hret.
Qed.

(** A session returns normally only when its body was interrupted. *)
Lemma shutdown_returns body msg i cs :
  (∀ u, out (body i cs) ≠ Returned u) →
  out (shutdown E body msg i cs) = Returned tt →
  out (body i cs) = Raised KeyboardInterrupt.
Proof.
  intros Hbody. rewrite shutdown_run.
  destruct (body i cs) as [[u|e|] tr cs'] eqn:Hrun; cbn [out] in *.
  - by destruct (Hbody u).
  - case_bool_decide as He; [by subst e|].
    unfold finish.
    destruct (raises E (i + List.length tr)); [done|].
    by destruct (raises E (i + List.length tr + 1)).
  - done.
Qed.

(** An exception of the body that is not [KeyboardInterrupt] goes through
    the shutdown: the device is disconnected, no goodbye is printed. *)
Lemma shutdown_propagates body msg i cs e :
  out (body i cs) = Raised e → e ≠ KeyboardInterrupt →
  let n := (i + List.length (calls (body i cs)))%nat in
  raises E n = None → raises E (n + 1) = None →
  shutdown E body msg i cs =
  Run (Raised e)
      (calls (body i cs) ++ [EDisconnect; EPrint "Leader device disconnected"])
      (clients (body i cs)).
Proof.
  intros Hout He n Hd Hp. rewrite shutdown_run. subst n.
  destruct (body i cs) as [o tr cs']. cbn [out calls clients] in *. subst o.
  rewrite bool_decide_eq_false_2 by done. unfold finish. by rewrite Hd, Hp.
Qed.
End Exits.

(** X2: Startup is outside the [try]: when the device cannot be built or
    connected, test mode and websocket mode end with that exception at once;
    nothing is printed and [disconnect] is not called. *)
Theorem startup_failure `{FloatText} (E : env) (e : exn) fps host tcp_port ticks i cs :
  let test := test_leader E fps ticks i cs in
  let websocket := teleop_websocket E fps host tcp_port ticks i cs in
  (raises E i = Some e →
   test = Run (Raised e) [ESO101Leader get_leader_config] cs
   ∧ websocket = Run (Raised e) [ESO101Leader get_leader_config] ∅)
  ∧ (raises E i = None → raises E (i + 1) = Some e →
     test = Run (Raised e) [ESO101Leader get_leader_config; EConnect None] cs
     ∧ websocket = Run (Raised e) [ESO101Leader get_leader_config; EConnect None] ∅).
Proof.
  intros test websocket. unfold test, websocket, test_leader, teleop_websocket.
  split.
  - intros Hbuild. unfold mbind, M_bind, set_clients. cbn [List.length].
    rewrite Nat.add_0_r, !call_run, Hbuild. done.
  - intros Hbuild Hconnect. unfold mbind, M_bind, set_clients. cbn [List.length].
    rewrite Nat.add_0_r, !call_run, Hbuild. cbn [List.length].
    by rewrite Hconnect.
Qed.

(** The serial port cannot be opened: [connect] raises, and both modes end
    there. *)
Lemma startup_failure_witness :
  let E := failing_at 1 (Error "SerialException") (calm arm_action) in
  start (test_leader E 30 3)
  = Run (Raised (Error "SerialException")) [ESO101Leader get_leader_config; EConnect None] ∅
  ∧ start (teleop_websocket E 30 "localhost" 8765 3)
    = Run (Raised (Error "SerialException"))
          [ESO101Leader get_leader_config; EConnect None] ∅.
Proof.
  exact (proj2 (startup_failure (failing_at 1 (Error "SerialException") (calm arm_action))
                  (Error "SerialException") 30 "localhost" 8765 3 0 ∅) eq_refl eq_refl).
Defined.

(** X3: An exception of the loop other than [KeyboardInterrupt] (a device
    error in [get_action], say) is not handled: with the startup done and a
    [finally] block that runs through, both modes disconnect the device,
    print no goodbye, and end with that exception. *)
Theorem loop_error_propagates `{FloatText} (E : env) (e : exn)
    fps host tcp_port ticks i cs :
  e ≠ KeyboardInterrupt →
  let test := test_leader E fps ticks i cs in
  let loop := while_true ticks (test_tick E fps) (i + 5) cs in
  let websocket := teleop_websocket E fps host tcp_port ticks i cs in
  let session := main E fps host tcp_port ticks (i + 3) ∅ in
  ((∀ k, (k < 5)%nat → raises E (i + k) = None) →
   out loop = Raised e →
   (∀ k, (k < 2)%nat → raises E (i + 5 + List.length (calls loop) + k) = None) →
   test = Run (Raised e)
              (test_startup fps ++ calls loop
               ++ [EDisconnect; EPrint "Leader device disconnected"])
              (clients loop))
  ∧ ((∀ k, (k < 3)%nat → raises E (i + k) = None) →
     out session = Raised e →
     (∀ k, (k < 2)%nat → raises E (i + 3 + List.length (calls session) + k) = None) →
     websocket = Run (Raised e)
                     (websocket_startup ++ calls session
                      ++ [EDisconnect; EPrint "Leader device disconnected"])
                     (clients session)).
Proof.
  intros He test loop websocket session. split.
  - intros Hstartup Hout Hfinally. unfold test.
    rewrite test_leader_run by done.
    rewrite (shutdown_propagates E _ test_goodbye (i + 5) cs e Hout He).
    + done.
    + rewrite <- (Nat.add_0_r (_ + List.length _)). apply Hfinally. lia.
    + apply Hfinally. lia.
  - intros Hstartup Hout Hfinally. unfold websocket.
    rewrite teleop_websocket_run by done.
    rewrite (shutdown_propagates E _ websocket_goodbye (i + 3) ∅ e Hout He).
    + done.
    + rewrite <- (Nat.add_0_r (_ + List.length _)). apply Hfinally. lia.
    + apply Hfinally. lia.
Qed.

(** The device fails in the third iteration: the error comes out of both
    modes, after one [disconnect]. *)
Lemma loop_error_propagates_witness :
  let E := failing_at 18 (Error "DeviceNotConnectedError") (calm arm_action) in
  let test := test_leader E 30 3 0 ∅ in
  let websocket := teleop_websocket E 30 "localhost" 8765 3 0 ∅ in
  (out test = Raised (Error "DeviceNotConnectedError")
   ∧ count is_disconnect (calls test) = 1%nat)
  ∧ (out websocket = Raised (Error "DeviceNotConnectedError")
     ∧ count is_disconnect (calls websocket) = 1%nat).
Proof.
  destruct (loop_error_propagates
              (failing_at 18 (Error "DeviceNotConnectedError") (calm arm_action))
              (Error "DeviceNotConnectedError") 30 "localhost" 8765 3 0 ∅)
    as [Htest Hwebsocket]; [done|].
  split.
  - rewrite Htest; [split; reflexivity | | reflexivity |].
    + intros k Hk. do 5 (destruct k as [|k]; [reflexivity|]). lia.
    + intros k Hk. do 2 (destruct k as [|k]; [reflexivity|]). lia.
  - rewrite Hwebsocket; [split; reflexivity | | reflexivity |].
    + intros k Hk. do 3 (destruct k as [|k]; [reflexivity|]). lia.
    + intros k Hk. do 2 (destruct k as [|k]; [reflexivity|]). lia.
Defined.

(** X4: Neither mode returns unless it was interrupted: with the startup done,
    a normal return of [test_leader] or [teleop_websocket] means that the
    loop, or the [asyncio.run] around it, raised [KeyboardInterrupt]. *)
Theorem return_means_interrupt `{FloatText} (E : env) fps host tcp_port ticks i cs :
  let test := test_leader E fps ticks i cs in
  let loop := while_true ticks (test_tick E fps) (i + 5) cs in
  let websocket := teleop_websocket E fps host tcp_port ticks i cs in
  let session := main E fps host tcp_port ticks (i + 3) ∅ in
  ((∀ k, (k < 5)%nat → raises E (i + k) = None) →
   out test = Returned tt → out loop = Raised KeyboardInterrupt)
  ∧ ((∀ k, (k < 3)%nat → raises E (i + k) = None) →
     out websocket = Returned tt → out session = Raised KeyboardInterrupt).
Proof.
  intros test loop websocket session. split.
  - intros Hstartup. unfold test. rewrite test_leader_run by done.
    intros Hout. apply (shutdown_returns E _ test_goodbye).
    + intros u. apply while_true_not_returned.
    + by destruct (shutdown E _ test_goodbye (i + 5) cs).
  - intros Hstartup. unfold websocket. rewrite teleop_websocket_run by done.
    intros Hout. apply (shutdown_returns E _ websocket_goodbye).
    + intros u. apply main_not_returned.
    + by destruct (shutdown E _ websocket_goodbye (i + 3) ∅).
Qed.

Lemma return_means_interrupt_witness :
  let E := interrupted_at 18 (calm arm_action) in
  out (while_true 3 (test_tick E 30) 5 ∅) = Raised KeyboardInterrupt
  ∧ out (main E 30 "localhost" 8765 3 3 ∅) = Raised KeyboardInterrupt.
Proof.
  destruct (return_means_interrupt (interrupted_at 18 (calm arm_action))
              30 "localhost" 8765 3 0 ∅) as [Htest Hwebsocket].
  split.
  - apply Htest; [|reflexivity].
    intros k Hk. do 5 (destruct k as [|k]; [reflexivity|]). lia.
  - apply Hwebsocket; [|reflexivity].
    intros k Hk. do 3 (destruct k as [|k]; [reflexivity|]). lia.
Defined.

Lemma handle_client_clients ev j cs : clients (handle_client ev j cs) = arrive cs ev.
Proof.
  destruct ev as [ws|ws]; [done|]. unfold handle_client, mbind, M_bind, get_clients.
  destruct (decide (ws ∈ cs)); [done|]. cbn. symmetry.
  by apply difference_disjoint_L, disjoint_singleton_r.
Qed.

Lemma mapM_handle_client_clients evs j cs :
  clients (mapM handle_client evs j cs) = foldl arrive cs evs.
Proof.
  revert j cs. induction evs as [|ev evs IH]; intros j cs; [done|].
  cbn [mapM foldl].
  rewrite (bind_returned (handle_client ev) _ j cs tt (handle_client_out ev j cs)).
  rewrite handle_client_clients.
  destruct (mapM_handle_client evs (j + List.length (calls (handle_client ev j cs)))
              (arrive cs ev)) as [[us Hus] _].
  rewrite (bind_returned _ _ _ _ us Hus). unfold mret, M_ret. cbn [clients]. apply IH.
Qed.

Lemma suspended_clients (E : env) k j cs :
  clients (suspended E k j cs) = foldl arrive cs (arrivals E k).
Proof.
  unfold suspended.
  destruct (mapM_handle_client (arrivals E k) j cs) as [[us Hus] _].
  rewrite (bind_returned _ _ _ _ us Hus). unfold mret, M_ret. cbn [clients].
  apply mapM_handle_client_clients.
Qed.

(** X5: A client that connects and then closes: [handle_client] adds it to the
    connected set and reports one client more, then removes it and reports
    the count there was; the set is what it was.  The handler returns and
    only prints. *)
Theorem handle_client_round_trip (ws : client) (cs : gset client) j :
  ws ∉ cs →
  (handle_client (Opened ws);; handle_client (Closed ws)) j cs =
  Run (Returned tt)
      [EPrint ("Client connected. Total clients: " +:+ pretty (S (size cs)));
       EPrint ("Client disconnected. Total clients: " +:+ pretty (size cs))]
      cs
  ∧ clients (handle_client (Opened ws) j cs) = {[ws]} ∪ cs
  ∧ ws ∈ clients (handle_client (Opened ws) j cs)
  ∧ ws ∉ clients (handle_client (Closed ws) j ({[ws]} ∪ cs)).
Proof.
  intros Hws.
  assert (Hsize : size ({[ws]} ∪ cs) = S (size cs)).
  { rewrite size_union by (by apply disjoint_singleton_l). by rewrite size_singleton. }
  assert (Hback : ({[ws]} ∪ cs) ∖ {[ws]} = cs).
  { rewrite difference_union_distr_l_L, difference_diag_L, union_empty_l_L.
    by apply difference_disjoint_L, disjoint_singleton_r. }
  assert (Hin : ws ∈ {[ws]} ∪ cs) by (apply elem_of_union_l; by apply elem_of_singleton).
  split; [|split; [done|split]].
  - unfold handle_client, mbind, M_bind, mret, M_ret, get_clients, set_clients, log.
    cbn. rewrite decide_True by done. cbn. by rewrite Hsize, Hback.
  - exact Hin.
  - rewrite handle_client_clients. cbn. by rewrite Hback.
Qed.

Lemma handle_client_round_trip_witness :
  (handle_client (Opened 7%positive);; handle_client (Closed 7%positive)) 0%nat
    {[1%positive; 2%positive]}
  = Run (Returned tt)
        [EPrint "Client connected. Total clients: 3";
         EPrint "Client disconnected. Total clients: 2"]
        {[1%positive; 2%positive]}.
Proof.
  refine (proj1 (handle_client_round_trip 7%positive {[1%positive; 2%positive]} 0 _)).
  vm_compute. intros Hin. discriminate Hin.
Defined.

Section Known.
Context `{FloatText} (E : env).

Lemma known_empty : known E ∅.
Proof. intros ws Hws. by apply not_elem_of_empty in Hws. Qed.

Lemma known_arrive cs ev k : ev ∈ arrivals E k → known E cs → known E (arrive cs ev).
Proof.
  intros Hev Hcs ws. destruct ev as [ws'|ws']; cbn.
  - intros [->%elem_of_singleton|Hws]%elem_of_union; [by exists k | by apply Hcs].
  - intros [Hws _]%elem_of_difference. by apply Hcs.
Qed.

Lemma known_foldl evs cs k :
  (∀ ev, ev ∈ evs → ev ∈ arrivals E k) → known E cs → known E (foldl arrive cs evs).
Proof.
  revert cs. induction evs as [|ev evs IH]; intros cs Hevs Hcs; [done|]. cbn.
  apply IH.
  - intros ev' Hev'. apply Hevs. by right.
  - apply (known_arrive cs ev k); [apply Hevs; by left | done].
Qed.

Lemma no_sends tr : sends_of tr = [] → ∀ ws msg, (ws, msg) ∈ sends_of tr → opened E ws.
Proof. intros -> ws msg Hin. by apply elem_of_nil in Hin. Qed.

Lemma keeps_ret {A} (a : A) : keeps E (mret a).
Proof. intros i cs Hcs. split; [by apply no_sends | done]. Qed.

Lemma keeps_raise {A} e : keeps E (raise e : M A).
Proof. intros i cs Hcs. split; [by apply no_sends | done]. Qed.

Lemma keeps_lift {A} (r : result A) : keeps E (lift r).
Proof. destruct r; [apply keeps_ret | apply keeps_raise]. Qed.

Lemma keeps_bind {A B} (m : M A) (k : A → M B) :
  keeps E m → (∀ a, keeps E (k a)) → keeps E (m ≫= k).
Proof.
  intros Hm Hk i cs Hcs. unfold mbind, M_bind. destruct (Hm i cs Hcs) as [Hs Hc].
  destruct (m i cs) as [[a|e|] tr cs']; cbn [calls clients] in *; [|done..].
  destruct (Hk a (i + List.length tr)%nat cs' Hc) as [Hs' Hc'].
  destruct (k a _ cs') as [o tr' cs'']. cbn [calls clients] in *.
  split; [|done]. intros ws msg. rewrite sends_of_app.
  intros [Hin|Hin]%elem_of_app; [by apply (Hs ws msg) | by apply (Hs' ws msg)].
Qed.

Lemma keeps_log ev : sends_of [ev] = [] → keeps E (log ev).
Proof. intros Hev i cs Hcs. split; [by apply no_sends | done]. Qed.

Lemma keeps_check k : keeps E (check E k).
Proof. intros i cs Hcs. rewrite check_run. split; [by apply no_sends | done]. Qed.

Lemma keeps_call ev : sends_of [ev] = [] → keeps E (call E ev).
Proof. intros Hev i cs Hcs. rewrite call_run. split; [by apply no_sends | done]. Qed.

Lemma keeps_print line : keeps E (print E line).
Proof. apply keeps_bind; [by apply keeps_call | intros; apply keeps_ret]. Qed.

Lemma keeps_get_clients : keeps E get_clients.
Proof. intros i cs Hcs. split; [by apply no_sends | done]. Qed.

Lemma keeps_set_clients cs' : known E cs' → keeps E (set_clients cs').
Proof. intros Hcs' i cs Hcs. split; [by apply no_sends | done]. Qed.

Lemma keeps_try_finally {A} (body : M A) final :
  keeps E body → keeps E final → keeps E (try_finally body final).
Proof.
  intros Hb Hf i cs Hcs. unfold try_finally. destruct (Hb i cs Hcs) as [Hs Hc].
  destruct (body i cs) as [[a|e|] tr cs']; cbn [calls clients] in *; [| |done].
  - destruct (Hf (i + List.length tr)%nat cs' Hc) as [Hs' Hc'].
    destruct (final _ cs') as [[u|e'|] tr' cs'']; cbn [calls clients] in *;
      (split; [|done]); intros ws msg; rewrite sends_of_app;
      (intros [Hin|Hin]%elem_of_app; [by apply (Hs ws msg) | by apply (Hs' ws msg)]).
  - destruct (Hf (i + List.length tr)%nat cs' Hc) as [Hs' Hc'].
    destruct (final _ cs') as [[u|e'|] tr' cs'']; cbn [calls clients] in *;
      (split; [|done]); intros ws msg; rewrite sends_of_app;
      (intros [Hin|Hin]%elem_of_app; [by apply (Hs ws msg) | by apply (Hs' ws msg)]).
Qed.

Lemma keeps_try_except {A} (body : M A) handles handler :
  keeps E body → keeps E handler → keeps E (try_except body handles handler).
Proof.
  intros Hb Hh i cs Hcs. unfold try_except. destruct (Hb i cs Hcs) as [Hs Hc].
  destruct (body i cs) as [[a|e|] tr cs']; cbn [calls clients] in *; [done| |done].
  destruct (handles e); [|done].
  destruct (Hh (i + List.length tr)%nat cs' Hc) as [Hs' Hc'].
  destruct (handler _ cs') as [o tr' cs'']. cbn [calls clients] in *.
  split; [|done]. intros ws msg. rewrite sends_of_app.
  intros [Hin|Hin]%elem_of_app; [by apply (Hs ws msg) | by apply (Hs' ws msg)].
Qed.

Lemma keeps_while_true n body : keeps E body → keeps E (while_true n body).
Proof.
  intros Hb. induction n as [|n IH].
  - intros i cs Hcs. split; [by apply no_sends | done].
  - intros i cs Hcs. rewrite while_true_step. destruct (Hb i cs Hcs) as [Hs Hc].
    destruct (body i cs) as [[u|e|] tr cs']; cbn [calls clients] in *; [|done..].
    destruct (IH (i + List.length tr)%nat cs' Hc) as [Hs' Hc'].
    destruct (while_true n body _ cs') as [o tr' cs'']. cbn [calls clients] in *.
    split; [|done]. intros ws msg. rewrite sends_of_app.
    intros [Hin|Hin]%elem_of_app; [by apply (Hs ws msg) | by apply (Hs' ws msg)].
Qed.

Lemma keeps_suspended k : keeps E (suspended E k).
Proof.
  intros j cs Hcs. split.
  - apply no_sends, sends_of_prints, suspended_prints.
  - rewrite suspended_clients. by apply (known_foldl _ _ k).
Qed.

Lemma known_closed cs l : known E cs → known E (foldl arrive cs (Closed <$> l)).
Proof.
  revert cs. induction l as [|ws l IH]; intros cs Hcs; [done|]. cbn.
  apply IH. intros ws' [Hws' _]%elem_of_difference. by apply Hcs.
Qed.

Lemma keeps_serve_close : keeps E (serve_close E).
Proof.
  intros j cs Hcs. rewrite serve_close_run. cbn [calls clients]. split.
  - apply no_sends. change (sends_of (EServeClose :: ?tr)) with (sends_of tr).
    apply sends_of_prints, closing_prints.
  - rewrite mapM_handle_client_clients. by apply known_closed.
Qed.

Lemma keeps_asyncio_sleep seconds : keeps E (asyncio_sleep E seconds).
Proof.
  unfold asyncio_sleep. apply keeps_bind; [by apply keeps_log|]. intros k.
  apply keeps_bind; [apply keeps_suspended | intros; apply keeps_check].
Qed.

Lemma keeps_broadcast json_dumps data : keeps E (broadcast E json_dumps data).
Proof.
  intros j cs Hcs. split.
  - intros ws msg. rewrite broadcast_sends.
    intros (ws' & [= -> ->] & Hws)%list_elem_of_fmap. by apply Hcs, elem_of_elements.
  - destruct (decide (cs = ∅)) as [->|Hne].
    + by rewrite broadcast_idle.
    + rewrite broadcast_run by done. cbn [clients]. by apply keeps_suspended.
Qed.

Ltac keeps_tac :=
  repeat first
    [ apply keeps_call; done | apply keeps_print | apply keeps_ret | apply keeps_lift
    | apply keeps_get_clients | apply keeps_asyncio_sleep | apply keeps_broadcast
    | apply keeps_serve_close
    | apply keeps_try_finally | apply keeps_try_except
    | apply keeps_bind; [|intros ?]
    | match goal with |- keeps _ (if ?b then _ else _) => destruct b end ].

Lemma keeps_pace_and_display fps loop_start a :
  keeps E (pace_and_display E fps loop_start a).
Proof.
  unfold pace_and_display, perf_counter, stdout_write, stdout_flush. keeps_tac.
Qed.

Lemma keeps_broadcast_tick fps : keeps E (broadcast_tick E fps).
Proof.
  unfold broadcast_tick, broadcast_tick_with, perf_counter, get_action, time_time.
  keeps_tac.
Qed.

Lemma keeps_teleop_websocket fps host tcp_port ticks :
  keeps E (teleop_websocket E fps host tcp_port ticks).
Proof.
  unfold teleop_websocket, asyncio_run, main, with_serve, broadcast_actions,
    action_features.
  apply keeps_bind; [apply keeps_set_clients, known_empty | intros _].
  keeps_tac. apply keeps_while_true, keeps_broadcast_tick.
Qed.
End Known.

(** X6: Websocket mode starts from an empty connected set, which only
    [handle_client] changes: every message is sent to a client whose
    connection was opened, the clients left in the set were opened, and when
    no connection is ever opened nothing is sent. *)
Theorem sends_only_to_opened `{FloatText} (E : env) fps host tcp_port ticks i cs :
  let session := teleop_websocket E fps host tcp_port ticks i cs in
  (∀ ws msg, (ws, msg) ∈ sends_of (calls session) → ∃ k, Opened ws ∈ arrivals E k)
  ∧ (∀ ws, ws ∈ clients session → ∃ k, Opened ws ∈ arrivals E k)
  ∧ ((∀ k, arrivals E k = []) → sends_of (calls session) = [] ∧ clients session = ∅).
Proof.
  intros session.
  assert (Hstart : session = teleop_websocket E fps host tcp_port ticks i ∅) by done.
  destruct (keeps_teleop_websocket E fps host tcp_port ticks i ∅ (known_empty E))
    as [Hsends Hclients].
  rewrite <- Hstart in Hsends, Hclients.
  split; [exact Hsends|]. split; [exact Hclients|].
  intros Hnone. split.
  - destruct (sends_of (calls session)) as [|[ws msg] sent]; [done|].
    destruct (Hsends ws msg) as [k Hk]; [by left|].
    rewrite Hnone in Hk. by apply elem_of_nil in Hk.
  - apply leibniz_equiv, elem_of_equiv_empty. intros ws [k Hk]%Hclients.
    rewrite Hnone in Hk. by apply elem_of_nil in Hk.
Qed.

(** Two clients connect during the first pause and one of them closes
    during the second: the second message goes to both, the third to the one
    that stayed. *)
Lemma sends_only_to_opened_witness :
  let E := arriving_at 12 [Opened 1%positive; Opened 2%positive]
             (arriving_at 25 [Closed 1%positive] (calm arm_action)) in
  let session := teleop_websocket E 10 "localhost" 8765 3 0 ∅ in
  (sends_of (calls session)).*1 = [2%positive; 1%positive; 2%positive]
  ∧ (∃ k, Opened 1%positive ∈ arrivals E k)
  ∧ (∃ k, Opened 2%positive ∈ arrivals E k).
Proof.
  pose proof (sends_only_to_opened
                (arriving_at 12 [Opened 1%positive; Opened 2%positive]
                   (arriving_at 25 [Closed 1%positive] (calm arm_action)))
                10 "localhost" 8765 3 0 ∅) as (Hsends & _ & _).
  cbv zeta in Hsends. vm_compute sends_of in Hsends.
  split; [vm_compute; reflexivity|]. split.
  - eapply Hsends. right. left.
  - eapply Hsends. left.
Defined.

(** X7: A device without features: [max] of an empty sequence raises
    [ValueError] before the first iteration, so the device is never polled;
    the server is closed, the device is disconnected, and [ValueError] comes
    out of [teleop_websocket]. *)
Theorem no_features_is_an_error `{FloatText} (E : env) fps host tcp_port ticks i cs :
  (∀ k, (k < 11)%nat → raises E (i + k) = None) →
  features_at E (i + 7) = [] →
  teleop_websocket E fps host tcp_port ticks i cs =
  Run (Raised ValueError)
      (websocket_startup ++ session_startup fps host tcp_port
       ++ [EServeClose; EDisconnect; EPrint "Leader device disconnected"])
      ∅
  ∧ count is_get_action (calls (teleop_websocket E fps host tcp_port ticks i cs)) = 0%nat.
Proof.
  intros Hcalm Hfeatures.
  assert (Hrun : teleop_websocket E fps host tcp_port ticks i cs =
    Run (Raised ValueError)
        (websocket_startup ++ session_startup fps host tcp_port
         ++ [EServeClose; EDisconnect; EPrint "Leader device disconnected"])
        ∅); [|split; [exact Hrun | by rewrite Hrun]].
  rewrite teleop_websocket_run by (intros k Hk; apply Hcalm; lia).
  assert (Hmain : main E fps host tcp_port ticks (i + 3) ∅ =
    Run (Raised ValueError) (session_startup fps host tcp_port ++ [EServeClose]) ∅).
  { unfold main, with_serve, try_finally, broadcast_actions, action_features, print,
      mbind, M_bind, mret, M_ret.
    rewrite call_run, (Hcalm 3%nat) by lia. cbn.
    rewrite call_run. replace (i + 3 + 1)%nat with (i + 4)%nat by lia.
    rewrite (Hcalm 4%nat) by lia. cbn.
    rewrite call_run. replace (i + 4 + 1)%nat with (i + 5)%nat by lia.
    rewrite (Hcalm 5%nat) by lia. cbn.
    rewrite call_run. replace (i + 5 + 1)%nat with (i + 6)%nat by lia.
    rewrite (Hcalm 6%nat) by lia. cbn.
    rewrite call_run. replace (i + 6 + 1)%nat with (i + 7)%nat by lia.
    rewrite (Hcalm 7%nat) by lia. cbn. rewrite Hfeatures. cbn.
    rewrite serve_close_run, elements_empty.
    match goal with |- context [raises E ?p] => replace p with (i + 8)%nat by lia end.
    by rewrite (Hcalm 8%nat) by lia. }
  rewrite shutdown_run, Hmain. rewrite bool_decide_eq_false_2 by done.
  unfold finish.
  change (List.length (session_startup fps host tcp_port ++ [EServeClose])) with 6%nat.
  replace (i + 3 + 6)%nat with (i + 9)%nat by lia.
  replace (i + 9 + 1)%nat with (i + 10)%nat by lia.
  by rewrite (Hcalm 9%nat), (Hcalm 10%nat) by lia.
Qed.

Lemma no_features_is_an_error_witness :
  out (start (teleop_websocket (calm []) 30 "localhost" 8765 3)) = Raised ValueError
  ∧ count is_disconnect
      (calls (start (teleop_websocket (calm []) 30 "localhost" 8765 3))) = 1%nat.
Proof.
  destruct (no_features_is_an_error (calm []) 30 "localhost" 8765 3 0 ∅
              (λ k _, eq_refl) eq_refl) as [Hrun _].
  unfold start. by rewrite Hrun.
Defined.

Section Frozen.
Context `{FloatText} (E : env).

Lemma timing_str_zero d :
  (d =? 0)%float = true → timing_str d = Raise ZeroDivisionError.
Proof. intros Hd. unfold timing_str, float_truediv. by rewrite Hd. Qed.

Lemma pace_and_display_frozen fps loop_start a j cs :
  (∀ k, raises E k = None) →
  is_finite loop_start = true →
  (∀ k, (j ≤ k)%nat → clock_at E k = loop_start) →
  out (pace_and_display E fps loop_start a j cs) = Raised ZeroDivisionError.
Proof.
  intros Hcalm Hfinite Hfrozen.
  assert (Hzero : ∀ k, (j ≤ k)%nat →
            timing_str (clock_at E k - loop_start) = Raise ZeroDivisionError).
  { intros k Hk. apply timing_str_zero. rewrite (Hfrozen k Hk).
    by apply sub_diag_finite. }
  unfold_pace.
  exec;
    repeat match goal with
           | Hx : raises E _ = Some _ |- _ => by rewrite Hcalm in Hx
           | Hx : timing_str _ = Ok _ |- _ => by rewrite Hzero in Hx by lia
           | Hx : timing_str _ = Raise _ |- _ => apply timing_str_raise in Hx
           | Hx : sleep_time _ _ = Raise _ |- _ => apply sleep_time_raise in Hx as [_ ->]
           end; congruence.
Qed.
End Frozen.

(** X8: The rate shown on the display line is [1 / loop_s], unguarded: when
    [time.perf_counter] reads what it read at the start of the iteration, a
    finite time, the elapsed time is zero and the iteration raises
    [ZeroDivisionError], whatever [fps] is and whatever [time.time] returns.
    In the display loop this happens before anything is written; in the
    broadcast loop, after the message went out. *)
Theorem frozen_clock_is_an_error `{FloatText} (E : env) fps i cs :
  (∀ k, raises E k = None) →
  is_finite (clock_at E i) = true →
  (clock_at E (i + 2) = clock_at E i →
   test_tick E fps i cs =
   Run (Raised ZeroDivisionError) [EPerfCounter; EGetAction; EPerfCounter] cs)
  ∧ ((∀ k, (i < k)%nat → clock_at E k = clock_at E i) →
     out (broadcast_tick E fps i cs) = Raised ZeroDivisionError
     ∧ sends_of (calls (broadcast_tick E fps i cs)) =
       map (λ ws, (ws, dumps (action_data (time_at E (i + 2)) (action_at E (i + 1)))))
           (elements cs)).
Proof.
  intros Hcalm Hfinite. split.
  - intros Hsame. unfold_test_tick.
    unfold mbind, M_bind, mret, M_ret, log, lift, raise. cbn.
    do 3 (rewrite check_run, Hcalm; cbn).
    rewrite <- !Nat.add_assoc. cbn [Nat.add].
    rewrite timing_str_zero; [done|]. rewrite Hsame. by apply sub_diag_finite.
  - intros Hfrozen. split.
    + unfold broadcast_tick. rewrite broadcast_tick_run, !Hcalm.
      assert (Hb : out (broadcast E dumps
                          (action_data (time_at E (i + 2)) (action_at E (i + 1))) (i + 3) cs)
                   = Returned tt).
      { destruct (decide (cs = ∅)) as [->|Hne].
        - by rewrite broadcast_idle.
        - rewrite broadcast_run by done. cbn. by rewrite Hcalm. }
      destruct (broadcast E dumps _ (i + 3) cs) as [o tr cs']. cbn in Hb. subst o.
      pose proof (pace_and_display_frozen E fps (clock_at E i) (action_at E (i + 1))
                    (i + 3 + List.length tr) cs' Hcalm Hfinite) as Ht.
      destruct (pace_and_display E fps _ _ _ cs'). apply Ht.
      intros k Hk. apply Hfrozen. lia.
    + unfold broadcast_tick. by rewrite broadcast_tick_sends, !Hcalm.
Qed.

(** A perf counter that stays at one second, while [time.time] advances. *)
Lemma frozen_clock_is_an_error_witness :
  let E := with_clock (calm arm_action) (λ _, 1%float) in
  out (test_tick E 30 0 ∅) = Raised ZeroDivisionError
  ∧ out (broadcast_tick E 30 0 {[1%positive]}) = Raised ZeroDivisionError
  ∧ time_at E 2 ≠ time_at E 9.
Proof.
  intros E. split; [|split].
  - destruct (frozen_clock_is_an_error E 30 0 ∅ (λ k, eq_refl) eq_refl) as [Htest _].
    by rewrite Htest.
  - destruct (frozen_clock_is_an_error E 30 0 {[1%positive]} (λ k, eq_refl) eq_refl)
      as [_ Hbroadcast].
    by destruct Hbroadcast.
  - vm_compute. discriminate.
Defined.

Section Unpaced.
Context `{FloatText} (E : env).

Lemma while_true_sleeps n (body : M unit) i cs :
  (∀ j c, sleeps_of (calls (body j c)) = []) →
  sleeps_of (calls (while_true n body i cs)) = [].
Proof.
  intros Hb. revert i cs. induction n as [|n IH]; intros i cs; [done|].
  rewrite while_true_step. specialize (Hb i cs).
  destruct (body i cs) as [[u|e|] tr cs']; cbn [calls] in *; [|done..].
  specialize (IH (i + List.length tr)%nat cs').
  destruct (while_true n body _ cs') as [o tr' cs'']. cbn [calls] in *.
  by rewrite sleeps_of_app, Hb, IH.
Qed.

(** A check of the readings below [n], pair by pair. *)
Lemma pairs_below (check : nat → nat → bool) n :
  forallb (λ j, forallb (check j) (seq 0 n)) (seq 0 n) = true →
  ∀ j k, (j < n)%nat → (k < n)%nat → check j k = true.
Proof.
  intros Hall j k Hj Hk. rewrite forallb_forall in Hall.
  specialize (Hall j). rewrite forallb_forall in Hall.
  apply Hall; apply in_seq; lia.
Qed.
End Unpaced.

(** X9: A negative [--fps] is accepted and turns the pacing off: when
    [time.perf_counter] never measures a time below zero, the pause
    [max(0, 1/fps - dt)] is never above zero, so neither loop ever
    sleeps. *)
Theorem negative_fps_never_sleeps `{FloatText} (E : env) fps ticks i cs :
  (fps < 0)%Z →
  (∀ j k, (j ≤ k)%nat → float_gt 0 (clock_at E k - clock_at E j) = false) →
  sleeps_of (calls (while_true ticks (test_tick E fps) i cs)) = []
  ∧ sleeps_of (calls (while_true ticks (broadcast_tick E fps) i cs)) = [].
Proof.
  intros Hfps Hclock. split; apply while_true_sleeps; intros j c.
  - destruct (test_tick_sleeps E fps j c) as [Hsleeps _]. cbv zeta in Hsleeps.
    destruct (sleeps_of (calls (test_tick E fps j c))) as [|d ds]; [done|].
    destruct (Hsleeps d) as [Hd Hgt]; [by left|].
    rewrite (no_pause fps (clock_at E (j + 5) - clock_at E j) d Hfps) in Hgt;
      [done| |done].
    apply Hclock. lia.
  - unfold broadcast_tick. rewrite broadcast_tick_sleeps.
    destruct (raises E j), (raises E (j + 1)), (raises E (j + 2)); try done.
    cbv zeta.
    destruct (out (broadcast E dumps _ (j + 3) c)); try done.
    destruct (raises E _); [done|].
    match goal with
    | |- context [sleep_time fps (clock_at E ?k - clock_at E j)] =>
        pose proof (Hclock j k ltac:(lia)) as Hle;
        pose proof (no_pause fps (clock_at E k - clock_at E j)) as Hnone;
        destruct (sleep_time fps (clock_at E k - clock_at E j)) as [d|e]; [|done]
    end.
    rewrite (Hnone d Hfps); done.
Qed.

(** A perf counter that advances by a hundredth of a second per call for
    sixty-four calls, and then stands still. *)
Lemma negative_fps_never_sleeps_witness :
  let E := with_clock (calm arm_action) (λ n, (float_of_nat (n `min` 64) / 100)%float) in
  sleeps_of (calls (while_true 3 (test_tick E (-5)) 0 ∅)) = []
  ∧ sleeps_of (calls (while_true 3 (broadcast_tick E (-5)) 0 ∅)) = []
  ∧ count is_get_action (calls (while_true 3 (test_tick E (-5)) 0 ∅)) = 3%nat.
Proof.
  intros E. split; [|split]; [| |reflexivity].
  - refine (proj1 (negative_fps_never_sleeps E (-5) 3 0 ∅ eq_refl _)).
    intros j k Hjk.
    assert (Hj : (j `min` 64 < 65)%nat) by lia.
    assert (Hk : (k `min` 64 < 65)%nat) by lia.
    pose proof (pairs_below
                  (λ j k, (k <? j)%nat
                          || negb (float_gt 0 (float_of_nat k / 100 - float_of_nat j / 100)))
                  65 ltac:(by vm_compute) (j `min` 64)%nat (k `min` 64)%nat Hj Hk) as Hcheck.
    cbv beta in Hcheck.
    destruct (Nat.ltb_spec (k `min` 64) (j `min` 64)) as [Hlt|_]; [lia|].
    by apply negb_true_iff in Hcheck.
  - refine (proj2 (negative_fps_never_sleeps E (-5) 3 0 ∅ eq_refl _)).
    intros j k Hjk.
    assert (Hj : (j `min` 64 < 65)%nat) by lia.
    assert (Hk : (k `min` 64 < 65)%nat) by lia.
    pose proof (pairs_below
                  (λ j k, (k <? j)%nat
                          || negb (float_gt 0 (float_of_nat k / 100 - float_of_nat j / 100)))
                  65 ltac:(by vm_compute) (j `min` 64)%nat (k `min` 64)%nat Hj Hk) as Hcheck.
    cbv beta in Hcheck.
    destruct (Nat.ltb_spec (k `min` 64) (j `min` 64)) as [Hlt|_]; [lia|].
    by apply negb_true_iff in Hcheck.
Defined.

Section Distinct.
Context {K V X : Type} `{EqDecision K} (key : X → K) (val : X → V).

Lemma dict_set_new (k : K) (v : V) (d : list (K * V)) :
  k ∉ dict_keys d → dict_set k v d = d ++ [(k, v)].
Proof.
  induction d as [|[k' v'] d IH]; [done|]. cbn.
  intros [Hne Hd]%not_elem_of_cons.
  rewrite decide_False by done. by rewrite IH.
Qed.

Lemma dict_comp_snoc xs x :
  dict_comp key val (xs ++ [x]) = dict_set (key x) (val x) (dict_comp key val xs).
Proof. unfold dict_comp. by rewrite fold_left_app. Qed.

Lemma dict_comp_distinct xs :
  NoDup (key <$> xs) → dict_comp key val xs = (λ x, (key x, val x)) <$> xs.
Proof.
  induction xs as [|x xs IH] using rev_ind; [done|].
  rewrite fmap_app. intros (Hxs & Hx & _)%NoDup_app.
  rewrite dict_comp_snoc, IH by done. rewrite fmap_app. cbn.
  apply dict_set_new. unfold dict_keys. rewrite <- list_fmap_compose.
  intros Hin. apply (Hx (key x)); [exact Hin | by left].
Qed.

Lemma dict_set_length (k : K) (v : V) (d : list (K * V)) :
  (List.length (dict_set k v d) ≤ S (List.length d))%nat.
Proof.
  induction d as [|[k' v'] d IH]; cbn; [lia|].
  destruct (decide (k = k')); cbn; lia.
Qed.

Lemma dict_comp_length xs :
  (List.length (dict_comp key val xs) ≤ List.length xs)%nat.
Proof.
  induction xs as [|x xs IH] using rev_ind; [done|].
  rewrite dict_comp_snoc, length_app. cbn.
  pose proof (dict_set_length (key x) (val x) (dict_comp key val xs)). lia.
Qed.
End Distinct.

(** X10: When no two motors share a joint name, the actions object has one
    entry per motor, in the order of the device, each joint name with the
    angle of its motor; in any case it has no more entries than the action
    has motors. *)
Theorem actions_of_distinct_names (a : action) :
  NoDup ((λ mv, joint_name mv.1) <$> a) →
  actions_of a = (λ mv, (joint_name mv.1, mv.2)) <$> a
  ∧ (∀ b, List.length (actions_of b) ≤ List.length b)%nat.
Proof.
  intros Hdistinct. split.
  - unfold actions_of. by rewrite dict_comp_distinct.
  - intros b. apply dict_comp_length.
Qed.

Lemma actions_of_distinct_names_witness :
  actions_of arm_action =
  [("shoulder_pan"%string, 12.5%float); ("elbow_flex"%string, (-30)%float);
   ("gripper"%string, 0.25%float)].
Proof.
  refine (proj1 (actions_of_distinct_names arm_action _)).
  apply (bool_decide_unpack _). vm_compute. exact I.
Defined.

Section Display.
Context `{FloatText} (E : env).

Lemma writes_of_app tr tr' : writes_of (tr ++ tr') = writes_of tr ++ writes_of tr'.
Proof. apply omap_app. Qed.

Lemma writes_of_prints tr : prints_only tr → writes_of tr = [].
Proof. by apply prints_only_omap. Qed.
End Display.

(** X11: An iteration that completes writes exactly one line to the terminal:
    the code that clears the line, the joints of the action it polled and its
    timing, which is that of the time elapsed from the first clock read of
    the iteration to the one just before the write; in the broadcast loop the
    write and the flush are the last calls of the iteration, and the line ends
    with the number of clients connected when it is written, after the
    connections opened and closed during the iteration. *)
Theorem one_display_line `{FloatText} (E : env) fps i cs :
  (out (test_tick E fps i cs) = Returned tt →
   ∃ timing,
     timing_str (clock_at E (i + 2) - clock_at E i) = Ok timing
     ∧ writes_of (calls (test_tick E fps i cs)) =
       [clear_line +:+ action_str (action_at E (i + 1)) +:+ " " +:+ timing])
  ∧ (out (broadcast_tick E fps i cs) = Returned tt →
     ∃ timing before,
       let line := clear_line +:+ action_str (action_at E (i + 1)) +:+ " " +:+ timing +:+ " "
                   +:+ "clients:" +:+ pretty (size (clients (broadcast_tick E fps i cs))) in
       timing_str (clock_at E (i + List.length before) - clock_at E i) = Ok timing
       ∧ calls (broadcast_tick E fps i cs) = before ++ [EPerfCounter; EWrite line; EFlush]
       ∧ writes_of before = []
       ∧ writes_of (calls (broadcast_tick E fps i cs)) = [line]).
Proof.
  split.
  - unfold_test_tick.
    exec; rewrite <- ?Nat.add_assoc in *; cbn [Nat.add] in *; intros Hout; try done;
      eexists; (split; [eassumption | reflexivity]).
  - unfold broadcast_tick. rewrite broadcast_tick_run.
    destruct (raises E i); [done|]. destruct (raises E (i + 1)); [done|].
    destruct (raises E (i + 2)); [done|].
    pose proof (only_omap broadcast_event
                  (λ ev, match ev with EWrite s => Some s | _ => None end) _
                  (λ ev, ltac:(by destruct ev))
                  (broadcast_events E dumps
                     (action_data (time_at E (i + 2)) (action_at E (i + 1))) (i + 3) cs))
      as Hb.
    destruct (broadcast E dumps _ (i + 3) cs) as [[u|e|] tr cs']; [|done..].
    cbn [calls] in Hb. fold (writes_of tr) in Hb.
    pose proof (pace_and_display_done E fps (clock_at E i) (action_at E (i + 1))
                  (i + 3 + List.length tr) cs') as Hdone.
    destruct (pace_and_display E fps _ _ _ cs') as [o tr' cs'']. cbn [out calls clients] in *.
    intros Hout. destruct (Hdone Hout) as (pause & timing & _ & Htiming & _ & Hcalls).
    cbv zeta in Htiming, Hcalls.
    set (middle := if float_gt pause 0
                   then EAsyncSleep pause
                        :: calls (suspended E (i + 3 + List.length tr + 1)
                                    (i + 3 + List.length tr + 2) cs')
                   else []) in *.
    assert (Hmiddle : writes_of middle = []).
    { unfold middle. destruct (float_gt pause 0); [|done].
      change (writes_of (EAsyncSleep pause :: ?l)) with (writes_of l).
      apply writes_of_prints, suspended_prints. }
    exists timing, ([EPerfCounter; EGetAction; ETime] ++ tr ++ EPerfCounter :: middle).
    cbv zeta.
    assert (Hall : EPerfCounter :: EGetAction :: ETime :: tr ++ tr'
                   = ([EPerfCounter; EGetAction; ETime] ++ tr ++ EPerfCounter :: middle)
                     ++ [EPerfCounter;
                         EWrite (clear_line +:+ action_str (action_at E (i + 1)) +:+ " "
                                 +:+ timing +:+ " " +:+ "clients:" +:+ pretty (size cs''));
                         EFlush]).
    { rewrite Hcalls. cbn [app]. by rewrite <- !app_assoc. }
    split; [|split; [|split]].
    + rewrite !length_app. cbn [List.length].
      replace (i + (3 + (List.length tr + S (List.length middle))))%nat
        with (i + 3 + List.length tr + 1 + List.length middle)%nat by lia.
      exact Htiming.
    + exact Hall.
    + rewrite !writes_of_app.
      change (writes_of (EPerfCounter :: middle)) with (writes_of middle).
      by rewrite Hb, Hmiddle.
    + rewrite Hall, writes_of_app, !writes_of_app.
      change (writes_of (EPerfCounter :: middle)) with (writes_of middle).
      by rewrite Hb, Hmiddle.
Qed.

Lemma one_display_line_witness :
  let E := arriving_at 4 [Opened 1%positive] (calm arm_action) in
  writes_of (calls (test_tick E 30 0 ∅)) =
    [clear_line +:+ "s_pan: 12.50 | e_flex:-30.00 | gripper:  0.25 [20.0ms, 50Hz]"]
  ∧ writes_of (calls (broadcast_tick E 10 0 ∅)) =
    [clear_line +:+ "s_pan: 12.50 | e_flex:-30.00 | gripper:  0.25 [60.0ms, 17Hz] clients:1"].
Proof.
  intros E. destruct (one_display_line E 30 0 ∅) as [Htest _].
  destruct (Htest eq_refl) as (timing & Htiming & ->).
  split.
  - vm_compute in Htiming. injection Htiming as <-. reflexivity.
  - vm_compute. reflexivity.
Defined.

(** X12: The server cannot be started (the port is taken, say): [serve] raises,
    nothing is polled or closed, and the [finally] of [teleop_websocket]
    still disconnects the device before the exception comes out. *)
Theorem serve_failure_releases_device `{FloatText} (E : env) (e : exn)
    fps host tcp_port ticks i cs :
  (∀ k, (k < 3)%nat → raises E (i + k) = None) →
  raises E (i + 3) = Some e →
  e ≠ KeyboardInterrupt →
  raises E (i + 4) = None → raises E (i + 5) = None →
  teleop_websocket E fps host tcp_port ticks i cs =
  Run (Raised e)
      (websocket_startup
       ++ [EServe host tcp_port; EDisconnect; EPrint "Leader device disconnected"])
      ∅.
Proof.
  intros Hstartup Hserve He Hdisconnect Hprint.
  rewrite teleop_websocket_run by done.
  assert (Hmain : main E fps host tcp_port ticks (i + 3) ∅ =
                  Run (Raised e) [EServe host tcp_port] ∅).
  { unfold main, with_serve, mbind, M_bind. by rewrite call_run, Hserve. }
  rewrite (shutdown_propagates E _ websocket_goodbye (i + 3) ∅ e);
    rewrite ?Hmain; cbn [out calls clients List.length]; try done.
  - by replace (i + 3 + 1)%nat with (i + 4)%nat by lia.
  - by replace (i + 3 + 1 + 1)%nat with (i + 5)%nat by lia.
Qed.

Lemma serve_failure_releases_device_witness :
  start (teleop_websocket (failing_at 3 (Error "OSError") (calm arm_action))
           30 "localhost" 8765 3)
  = Run (Raised (Error "OSError"))
        (websocket_startup
         ++ [EServe "localhost" 8765; EDisconnect; EPrint "Leader device disconnected"])
        ∅.
Proof.
  apply (serve_failure_releases_device
           (failing_at 3 (Error "OSError") (calm arm_action)) (Error "OSError")
           30 "localhost" 8765 3 0 ∅); try done.
  intros k Hk. do 3 (destruct k as [|k]; [reflexivity|]). lia.
Defined.

(** X13: Once the server runs and the loop has ended, however it ended, the
    calls of websocket mode are those of the startup and of the loop, then
    the close of the server, then prints (of the handlers that end with the
    server, and of the shutdown) around one [disconnect].  The server is
    closed once, before the device is released. *)
Theorem server_closed_before_release `{FloatText} (E : env)
    fps host tcp_port ticks i cs :
  let loop := while_true ticks (broadcast_tick E fps) (i + 8) ∅ in
  (∀ k, (k < 8)%nat → raises E (i + k) = None) →
  features_at E (i + 7) ≠ [] →
  out loop ≠ StillRunning →
  ∃ goodbye tail,
    calls (teleop_websocket E fps host tcp_port ticks i cs) =
    websocket_startup ++ session_startup fps host tcp_port ++ calls loop
    ++ [EServeClose] ++ goodbye ++ EDisconnect :: tail
    ∧ prints_only goodbye ∧ prints_only tail.
Proof.
  intros loop Hstartup Hfeatures Hloop.
  rewrite teleop_websocket_run by (intros k Hk; apply Hstartup; lia).
  assert (Hmain : main E fps host tcp_port ticks (i + 3) ∅ =
    match while_true ticks (broadcast_tick E fps) (i + 3 + 5) ∅ with
    | Run o tr cs' =>
        serve_exit E o (session_startup fps host tcp_port ++ tr) cs'
                   (i + 3 + 5 + List.length tr)
    end).
  { apply main_run.
    - intros k Hk. rewrite <- Nat.add_assoc. apply Hstartup. lia.
    - by replace (i + 3 + 4)%nat with (i + 7)%nat by lia. }
  replace (i + 3 + 5)%nat with (i + 8)%nat in Hmain by lia. fold loop in Hmain.
  pose proof (shutdown_calls E (main E fps host tcp_port ticks) websocket_goodbye
                (i + 3) ∅) as Hshutdown.
  rewrite Hmain in Hshutdown.
  destruct loop as [o tr cs'] eqn:Hrun. cbn [out calls] in *.
  set (closing := mapM handle_client (Closed <$> elements cs')
                    (i + 8 + List.length tr + 1) cs').
  assert (Hexit : ∃ o', o' ≠ StillRunning ∧
    serve_exit E o (session_startup fps host tcp_port ++ tr) cs' (i + 8 + List.length tr)
    = Run o' ((session_startup fps host tcp_port ++ tr) ++ EServeClose :: calls closing)
          (clients closing)).
  { unfold serve_exit. destruct o as [u|e|]; [| |done]; cbv zeta; fold closing.
    - destruct (raises E _); eexists; (split; [|reflexivity]); done.
    - destruct (raises E _); eexists; (split; [|reflexivity]); done. }
  destruct Hexit as (o' & Ho' & Hexit). rewrite Hexit in Hshutdown.
  cbn [out calls] in Hshutdown.
  assert (Hclosing : prints_only (calls closing)) by apply closing_prints.
  destruct o'; [| |done].
  - destruct Hshutdown as (_ & goodbye & tail & Hcalls & Hgoodbye & Htail).
    exists (calls closing ++ goodbye), tail.
    split; [|split; [by apply Forall_app|done]].
    destruct (shutdown E _ _ _ _) as [o'' tr'' cs'']. cbn [calls] in *.
    rewrite Hcalls. rewrite <- !app_assoc. cbn [app]. by rewrite <- ?app_assoc.
  - destruct Hshutdown as (_ & goodbye & tail & Hcalls & Hgoodbye & Htail).
    exists (calls closing ++ goodbye), tail.
    split; [|split; [by apply Forall_app|done]].
    destruct (shutdown E _ _ _ _) as [o'' tr'' cs'']. cbn [calls] in *.
    rewrite Hcalls. rewrite <- !app_assoc. cbn [app]. by rewrite <- ?app_assoc.
Qed.

(** Ctrl+C in the second pause, with one client connected since the
    first. *)
Lemma server_closed_before_release_witness :
  let E := arriving_at 12 [Opened 1%positive] (interrupted_at 23 (calm arm_action)) in
  (∃ goodbye tail,
     calls (teleop_websocket E 10 "localhost" 8765 3 0 ∅) =
     websocket_startup ++ session_startup 10 "localhost" 8765
     ++ calls (while_true 3 (broadcast_tick E 10) 8 ∅)
     ++ [EServeClose] ++ goodbye ++ EDisconnect :: tail
     ∧ prints_only goodbye ∧ prints_only tail)
  ∧ drop 24 (calls (teleop_websocket E 10 "localhost" 8765 3 0 ∅)) =
    [EServeClose; EPrint "Client disconnected. Total clients: 0";
     EPrint websocket_goodbye; EDisconnect; EPrint "Leader device disconnected"].
Proof.
  intros E. split; [|vm_compute; reflexivity].
  apply (server_closed_before_release E 10 "localhost" 8765 3 0 ∅).
  - intros k Hk. do 8 (destruct k as [|k]; [reflexivity|]). lia.
  - done.
  - vm_compute. discriminate.
Defined.

(** X14: What [json.dumps] writes reads back as the value it was given, whatever
    the keys and strings hold (quotes, backslashes, control and non-ASCII
    characters are escaped and come back as they were); so two values with
    the same text have the same tree. *)
Theorem dumps_reads_back `{FloatJson} (j j' : json) (s : string) :
  loads (dumps j) = Some (tree_of j)
  ∧ loads (encode_string s) = Some (TString s)
  ∧ (dumps j = dumps j' → tree_of j = tree_of j').
Proof.
  split; [apply loads_dumps|]. split; [apply (loads_dumps (JString s))|].
  intros Hsame. pose proof (loads_dumps j) as Hj. rewrite Hsame, loads_dumps in Hj.
  congruence.
Qed.

(** A key with a quote, a backslash and a line feed in it. *)
Lemma dumps_reads_back_witness :
  let key := String quote (String backslash (String "010" "k")) in
  loads (dumps (JObject [(key, JFloat 1.5%float); ("note"%string, JString key)]))
  = Some (TObject [(key, TNumber "1.5"); ("note"%string, TString key)])
  ∧ loads (dumps (JObject [("a"%string, JFloat nan); ("b"%string, JFloat neg_infinity)]))
    = Some (TObject [("a"%string, TNumber "NaN"); ("b"%string, TNumber "-Infinity")]).
Proof.
  intros key. split.
  - exact (proj1 (dumps_reads_back
                    (JObject [(key, JFloat 1.5%float); ("note"%string, JString key)])
                    (JFloat 0) EmptyString)).
  - exact (proj1 (dumps_reads_back
                    (JObject [("a"%string, JFloat nan); ("b"%string, JFloat neg_infinity)])
                    (JFloat 0) EmptyString)).
Defined.

Section Plain.
Lemma plain_text_app a b : plain_text (a +:+ b) = plain_text a && plain_text b.
Proof. induction a as [|c a IH]; [done|]. cbn. by rewrite IH, andb_assoc. Qed.

Lemma digit_printable c : is_digit c = true → printable c = true.
Proof.
  unfold is_digit, printable. intros [H1 H2]%andb_prop.
  apply N.leb_le in H1, H2. apply andb_true_intro.
  split; apply N.leb_le; lia.
Qed.

Lemma span_digits_plain s : plain_text (span_digits s).1 = true.
Proof.
  induction s as [|c s IH]; [done|]. cbn.
  destruct (is_digit c) eqn:Hc; [|done]. cbn. by rewrite (digit_printable c Hc).
Qed.

Lemma scan_int_plain s ip r : scan_int s = Some (ip, r) → plain_text ip = true.
Proof.
  destruct s as [|c s]; [done|]. cbn.
  destruct (c =? "0")%char; [by intros [= <- _]|].
  destruct (is_digit c) eqn:Hc; [|done]. intros [= <- _]. cbn.
  by rewrite (digit_printable c Hc), span_digits_plain.
Qed.

Lemma scan_frac_plain s : plain_text (scan_frac s).1 = true.
Proof.
  destruct s as [|c s]; [done|]. cbn.
  destruct (Ascii.eqb_spec c ".") as [->|_]; [|done].
  pose proof (span_digits_plain s) as Hs.
  destruct (span_digits s).1; [done|]. cbn in *. done.
Qed.

Lemma scan_sign_plain s : plain_text (scan_sign s).1 = true.
Proof.
  destruct s as [|c s]; [done|]. cbn.
  destruct (Ascii.eqb_spec c "+") as [->|_]; [done|].
  by destruct (Ascii.eqb_spec c "-") as [->|_].
Qed.

Lemma scan_exp_plain s : plain_text (scan_exp s).1 = true.
Proof.
  destruct s as [|c s]; [done|]. cbn.
  pose proof (scan_sign_plain s) as Hsign.
  pose proof (span_digits_plain (scan_sign s).2) as Hdigits.
  destruct (Ascii.eqb_spec c "e") as [->|_]; cbn.
  - destruct (span_digits (scan_sign s).2).1 eqn:Hd; [done|].
    cbn [fst plain_text]. rewrite plain_text_app, Hsign. exact Hdigits.
  - destruct (Ascii.eqb_spec c "E") as [->|_]; [|done].
    destruct (span_digits (scan_sign s).2).1 eqn:Hd; [done|].
    cbn [fst plain_text]. rewrite plain_text_app, Hsign. exact Hdigits.
Qed.

Lemma number_plain s : is_number s = true → plain_text s = true.
Proof.
  unfold is_number. destruct (scan_number s) as [[l [|c r]]|] eqn:Hscan; [|done..].
  intros _. pose proof (scan_number_split _ _ _ Hscan) as Hs.
  rewrite str_app_nil_r in Hs. subst l.
  unfold scan_number in Hscan.
  destruct (scan_int _) as [[ip s2]|] eqn:Hint; [|done].
  injection Hscan as Hl _. rewrite <- Hl, !plain_text_app.
  rewrite (scan_int_plain _ _ _ Hint), scan_frac_plain, scan_exp_plain.
  destruct s as [|c s]; [done|]. cbn.
  by destruct (Ascii.eqb_spec c "-") as [->|_].
Qed.

Lemma escape_char_plain c : plain_text (escape_char c) = true.
Proof.
  destruct c as [[] [] [] [] [] [] [] []]; reflexivity.
Qed.

Lemma escape_plain s : plain_text (escape s) = true.
Proof.
  induction s as [|c s IH]; [done|]. cbn.
  by rewrite plain_text_app, escape_char_plain, IH.
Qed.

Lemma encode_string_plain s : plain_text (encode_string s) = true.
Proof.
  unfold encode_string. cbn. by rewrite plain_text_app, escape_plain.
Qed.

Lemma str_join_plain sep texts :
  plain_text sep = true → Forall (λ t, plain_text t = true) texts →
  plain_text (str_join sep texts) = true.
Proof.
  intros Hsep. induction 1 as [|t texts Ht Htexts IH]; [done|].
  destruct texts as [|t' texts]; [done|].
  change (str_join sep (t :: t' :: texts))
    with (t +:+ sep +:+ str_join sep (t' :: texts)).
  by rewrite !plain_text_app, Ht, Hsep, IH.
Qed.
End Plain.

(** X15: The message is one line of ASCII: every character of what
    [json.dumps] writes is printable ASCII, whatever the keys hold, so a
    message has no line break and no byte above [0x7e] in it. *)
Theorem dumps_is_plain_text `{FloatJson} (j : json) :
  plain_text (dumps j) = true
  ∧ (∀ now a, plain_text (dumps (action_data now a)) = true).
Proof.
  assert (Hplain : ∀ v, plain_text (dumps v) = true).
  { induction v as [x|s|members IH] using json_ind'.
    - cbn [dumps].
      destruct (float_json_cases x) as [-> | [-> | [-> | [Hx ->]]]]; [done..|].
      by apply number_plain, float_repr_number.
    - apply encode_string_plain.
    - rewrite dumps_object, !plain_text_app. cbn [plain_text andb printable].
      rewrite str_join_plain; [done..|].
      apply Forall_fmap. eapply Forall_impl; [exact IH|]. intros [k v] Hv.
      unfold compose, member_text. cbn [fst snd] in *.
      by rewrite !plain_text_app, encode_string_plain, Hv. }
  split; [apply Hplain | intros now a; apply Hplain].
Qed.

Lemma dumps_is_plain_text_witness :
  let key := String "233" (String "010" "k") in
  plain_text key = false
  ∧ plain_text (dumps (JObject [(key, JFloat 1.5%float)])) = true.
Proof.
  intros key. split; [reflexivity|].
  exact (proj1 (dumps_is_plain_text (JObject [(key, JFloat 1.5%float)]))).
Defined.

Section Kinds.
Context `{FloatText} (E : env).

Lemma test_tick_local fps :
  emits (λ ev, negb (network_event ev)) (test_tick E fps).
Proof.
  intros i cs. unfold_test_tick.
  exec; unfold only; repeat first [ done | apply Forall_nil | apply Forall_cons; split ].
Qed.

Lemma broadcast_tick_async fps :
  emits (λ ev, negb (blocking_event ev)) (broadcast_tick E fps).
Proof.
  intros i cs. unfold broadcast_tick. rewrite broadcast_tick_run.
  destruct (raises E i); [by repeat constructor|].
  destruct (raises E (i + 1)); [by repeat constructor|].
  destruct (raises E (i + 2)); [by repeat constructor|].
  pose proof (only_impl broadcast_event (λ ev, negb (blocking_event ev)) _
                (λ ev, ltac:(by destruct ev))
                (broadcast_events E dumps
                   (action_data (time_at E (i + 2)) (action_at E (i + 1))) (i + 3) cs))
    as Hb.
  destruct (broadcast E dumps _ (i + 3) cs) as [[u|e|] tr cs']; cbn [calls] in Hb |- *;
    try by repeat (apply Forall_cons; split; [done|]).
  pose proof (pace_and_display_events E fps (clock_at E i) (action_at E (i + 1))
                (i + 3 + List.length tr) cs') as Ht.
  destruct (pace_and_display E fps _ _ _ cs') as [o tr' cs'']. cbn [calls] in Ht |- *.
  repeat (apply Forall_cons; split; [done|]).
  apply only_app; [done|]. eapply only_impl; [|exact Ht]. by intros [].
Qed.

Ltac kinds_tac :=
  repeat first
    [ apply emits_call; done | apply emits_print; done
    | apply emits_ret | apply emits_lift | apply emits_set_clients
    | apply emits_while_true
    | apply test_tick_local | apply broadcast_tick_async
    | apply emits_serve_close; done
    | apply emits_try_finally | apply emits_try_except
    | apply emits_bind; [|intros ?] ].

Lemma emits_test_leader fps ticks :
  emits (λ ev, negb (network_event ev)) (test_leader E fps ticks).
Proof.
  unfold test_leader. kinds_tac.
Qed.

Lemma emits_calibrate_leader :
  emits (λ ev, negb (network_event ev) && negb (tick_event ev)) (calibrate_leader E).
Proof. unfold calibrate_leader. kinds_tac. Qed.

Lemma emits_teleop_websocket fps host tcp_port ticks :
  emits (λ ev, negb (blocking_event ev)) (teleop_websocket E fps host tcp_port ticks).
Proof.
  unfold teleop_websocket, asyncio_run, main, with_serve, broadcast_actions,
    action_features.
  kinds_tac.
Qed.
End Kinds.

(** X16: Each mode keeps to its own calls.  Calibration and the display loop
    never touch the network: no server, no send, no pause of [asyncio];
    calibration does not poll, print or sleep either.  The broadcast runs in
    the event loop and never blocks it: it pauses with [asyncio.sleep], never
    with [time.sleep], and it never recalibrates the arm. *)
Theorem modes_keep_to_their_calls `{FloatText} (E : env) fps host tcp_port ticks i cs :
  count network_event (calls (calibrate_leader E i cs)) = 0%nat
  ∧ count tick_event (calls (calibrate_leader E i cs)) = 0%nat
  ∧ count network_event (calls (test_leader E fps ticks i cs)) = 0%nat
  ∧ sends_of (calls (test_leader E fps ticks i cs)) = []
  ∧ count blocking_event (calls (teleop_websocket E fps host tcp_port ticks i cs)) = 0%nat.
Proof.
  pose proof (emits_calibrate_leader E i cs) as Hcalibrate.
  pose proof (emits_test_leader E fps ticks i cs) as Htest.
  pose proof (emits_teleop_websocket E fps host tcp_port ticks i cs) as Hwebsocket.
  split; [|split; [|split; [|split]]].
  - eapply only_count; [|exact Hcalibrate]. by intros [].
  - eapply only_count; [|exact Hcalibrate]. by intros [].
  - eapply only_count; [|exact Htest]. by intros [].
  - eapply only_omap; [|exact Htest]. by intros [].
  - eapply only_count; [|exact Hwebsocket]. by intros [].
Qed.

Lemma str_replace_id (c : ascii) (old new s : string) :
  str_contains (String c old) s = false → str_replace (String c old) new s = s.
Proof.
  unfold str_replace. induction s as [|d s IH]; [done|].
  cbn [str_contains]. intros [Hp Hs]%orb_false_elim.
  cbn [replace_from]. rewrite Hp. f_equal. auto.
Qed.

(** X17: A motor name with none of the fragments the script rewrites in it
    ([.pos], [shoulder_], [elbow_], [wrist_]) is shown on the display line
    and sent in the broadcast under its own name. *)
Theorem unknown_names_pass_through (motor : string) :
  str_contains ".pos" motor = false →
  str_contains "shoulder_" motor = false →
  str_contains "elbow_" motor = false →
  str_contains "wrist_" motor = false →
  short_name motor = motor ∧ joint_name motor = motor.
Proof.
  intros Hpos Hshoulder Helbow Hwrist. unfold short_name, joint_name.
  rewrite (str_replace_id _ _ _ motor Hpos), (str_replace_id _ _ _ motor Hshoulder).
  by rewrite (str_replace_id _ _ _ motor Helbow), (str_replace_id _ _ _ motor Hwrist).
Qed.

Lemma unknown_names_pass_through_witness :
  short_name "gripper" = "gripper"%string ∧ joint_name "gripper" = "gripper"%string.
Proof. by apply unknown_names_pass_through. Defined.

Section Running.
Context `{FloatText} (E : env).

Lemma timing_str_ok d : (d =? 0)%float = false → ∃ timing, timing_str d = Ok timing.
Proof.
  intros Hd. unfold timing_str, float_truediv. rewrite Hd. by eexists.
Qed.

Lemma advancing_part lo hi lo' hi' :
  (lo ≤ lo')%nat → (hi' ≤ hi)%nat → advancing E lo hi → advancing E lo' hi'.
Proof. intros Hlo Hhi Hadv j k Hj Hjk Hk. apply Hadv; lia. Qed.

Lemma test_tick_returns fps i cs :
  (∀ k, raises E k = None) → fps ≠ 0%Z →
  advancing E i (i + List.length (calls (test_tick E fps i cs))) →
  out (test_tick E fps i cs) = Returned tt.
Proof.
  intros Hcalm Hfps.
  unfold_test_tick.
  exec; rewrite <- ?Nat.add_assoc in *; cbn [Nat.add] in *; intros Hadv;
    repeat match goal with
           | Hx : raises E _ = Some _ |- _ => by rewrite Hcalm in Hx
           | Hx : sleep_time fps _ = Raise _ |- _ => by rewrite sleep_time_ok in Hx
           | Hx : timing_str _ = Raise _ |- _ =>
               destruct (timing_str_ok (clock_at E (i + 2) - clock_at E i)) as [t Ht];
               [apply Hadv; lia | by rewrite Ht in Hx]
           end; done.
Qed.

Lemma pace_and_display_returns fps loop_start a j cs :
  (∀ k, raises E k = None) → fps ≠ 0%Z →
  (∀ k, (j ≤ k)%nat →
        (k < j + List.length (calls (pace_and_display E fps loop_start a j cs)))%nat →
        (clock_at E k - loop_start =? 0)%float = false) →
  out (pace_and_display E fps loop_start a j cs) = Returned tt.
Proof.
  intros Hcalm Hfps.
  unfold_pace.
  exec; intros Hclock;
    repeat match goal with
           | Hx : raises E _ = Some _ |- _ => by rewrite Hcalm in Hx
           | Hx : sleep_time fps _ = Raise _ |- _ => by rewrite sleep_time_ok in Hx
           | Hx : timing_str (clock_at E ?k - _) = Raise _ |- _ =>
               destruct (timing_str_ok (clock_at E k - loop_start)) as [t Ht];
               [apply Hclock; rewrite ?length_app; cbn [List.length]; lia
               | by rewrite Ht in Hx]
           end; done.
Qed.

Lemma broadcast_tick_returns fps i cs :
  (∀ k, raises E k = None) → fps ≠ 0%Z →
  advancing E i (i + List.length (calls (broadcast_tick E fps i cs))) →
  out (broadcast_tick E fps i cs) = Returned tt.
Proof.
  intros Hcalm Hfps. unfold broadcast_tick.
  rewrite broadcast_tick_run, !Hcalm.
  assert (Hb : out (broadcast E dumps
                      (action_data (time_at E (i + 2)) (action_at E (i + 1))) (i + 3) cs)
               = Returned tt).
  { destruct (decide (cs = ∅)) as [->|Hne].
    - by rewrite broadcast_idle.
    - rewrite broadcast_run by done. cbn. by rewrite Hcalm. }
  destruct (broadcast E dumps _ (i + 3) cs) as [o tr cs']. cbn in Hb. subst o.
  pose proof (pace_and_display_returns fps (clock_at E i) (action_at E (i + 1))
                (i + 3 + List.length tr) cs' Hcalm Hfps) as Ht.
  destruct (pace_and_display E fps _ _ _ cs') as [o tr' cs'']. cbn [out calls] in *.
  intros Hadv. apply Ht. intros k Hk Hk'. apply Hadv; [lia..|].
  cbn [List.length]. rewrite length_app. lia.
Qed.

Lemma while_true_running n (body : M unit) i cs :
  (∀ j c, advancing E j (j + List.length (calls (body j c))) →
          out (body j c) = Returned tt) →
  advancing E i (i + List.length (calls (while_true n body i cs))) →
  out (while_true n body i cs) = StillRunning.
Proof.
  intros Hb. revert i cs. induction n as [|n IH]; intros i cs; [done|].
  rewrite while_true_step. specialize (Hb i cs).
  destruct (body i cs) as [o tr cs']. cbn [out calls] in Hb.
  specialize (IH (i + List.length tr)%nat cs').
  destruct o as [[]|e|].
  - destruct (while_true n body _ cs') as [o' tr' cs'']. cbn [out calls] in *.
    intros Hadv. apply IH. eapply advancing_part; [| |exact Hadv]; [lia|].
    rewrite length_app. lia.
  - cbn [out calls]. intros Hadv. by specialize (Hb Hadv).
  - cbn [out calls]. intros Hadv. by specialize (Hb Hadv).
Qed.

(** The readings below [hi] are told apart when a check of them, pair by
    pair, says so. *)
Lemma advancing_check lo hi :
  forallb (λ j, forallb (λ k, (k <=? j)%nat
                              || negb (clock_at E k - clock_at E j =? 0)%float)
                        (seq 0 hi)) (seq 0 hi) = true →
  advancing E lo hi.
Proof.
  intros Hall j k Hj Hjk Hk.
  pose proof (pairs_below _ hi Hall j k ltac:(lia) Hk) as Hcheck. cbv beta in Hcheck.
  destruct (Nat.leb_spec k j) as [Hle|_]; [lia|].
  by apply negb_true_iff in Hcheck.
Qed.
End Running.

(** X18: With a device that does not fail, a frame rate that is not zero
    and a [time.perf_counter] that tells the calls of the loop apart, neither
    loop ends on its own: after any number of iterations test mode and
    websocket mode are still running, the device has been polled once per
    iteration, and [disconnect] has not been called. *)
Theorem loops_keep_running `{FloatText} (E : env) fps host tcp_port ticks i cs :
  (∀ k, raises E k = None) →
  fps ≠ 0%Z →
  let test := test_leader E fps ticks i cs in
  let loop := while_true ticks (test_tick E fps) (i + 5) cs in
  let websocket := teleop_websocket E fps host tcp_port ticks i cs in
  let stream := while_true ticks (broadcast_tick E fps) (i + 8) ∅ in
  (advancing E (i + 5) (i + 5 + List.length (calls loop)) →
   test = Run StillRunning (test_startup fps ++ calls loop) (clients loop)
   ∧ count is_get_action (calls test) = ticks
   ∧ count is_disconnect (calls test) = 0%nat)
  ∧ (features_at E (i + 7) ≠ [] →
     advancing E (i + 8) (i + 8 + List.length (calls stream)) →
     websocket = Run StillRunning
                   (websocket_startup ++ session_startup fps host tcp_port ++ calls stream)
                   (clients stream)
     ∧ count is_get_action (calls websocket) = ticks
     ∧ count is_disconnect (calls websocket) = 0%nat).
Proof.
  intros Hcalm Hfps test loop websocket stream.
  assert (Hpolls : ∀ j c,
    out (while_true ticks (test_tick E fps) j c) = StillRunning →
    count is_get_action (calls (while_true ticks (test_tick E fps) j c)) = ticks).
  { intros j c. apply while_true_count.
    - intros j' c'. apply test_tick_get_action.
    - intros j' c'. apply test_tick_get_action.
    - intros j' c'. apply test_tick_not_running. }
  assert (Hpolls' : ∀ j c,
    out (while_true ticks (broadcast_tick E fps) j c) = StillRunning →
    count is_get_action (calls (while_true ticks (broadcast_tick E fps) j c)) = ticks).
  { intros j c. apply while_true_count.
    - intros j' c'. apply broadcast_tick_get_action.
    - intros j' c'. apply broadcast_tick_get_action.
    - intros j' c'. apply broadcast_tick_not_running. }
  assert (Hnone : ∀ j c,
    count is_disconnect (calls (while_true ticks (test_tick E fps) j c)) = 0%nat).
  { intros j c. apply (only_count tick_event); [by intros []|].
    apply while_true_events. intros j' c'. apply test_tick_events. }
  assert (Hnone' : ∀ j c,
    count is_disconnect (calls (while_true ticks (broadcast_tick E fps) j c)) = 0%nat).
  { intros j c. apply (only_count tick_event); [by intros []|].
    apply while_true_events. intros j' c'. apply broadcast_tick_events. }
  split.
  - intros Hadv.
    assert (Hloop : out loop = StillRunning).
    { apply (while_true_running E); [|exact Hadv]. intros j' c'.
      by apply test_tick_returns. }
    assert (Htest : test = Run StillRunning (test_startup fps ++ calls loop) (clients loop)).
    { unfold test. rewrite test_leader_run by (intros; apply Hcalm).
      rewrite shutdown_run. fold loop.
      destruct loop as [o tr cs']. cbn in Hloop. by subst o. }
    split; [exact Htest|]. rewrite Htest. cbn [calls].
    rewrite !count_app. unfold loop. by rewrite (Hpolls _ _ Hloop), Hnone.
  - intros Hfeatures Hadv.
    assert (Hloop : out stream = StillRunning).
    { apply (while_true_running E); [|exact Hadv]. intros j' c'.
      by apply broadcast_tick_returns. }
    assert (Hwebsocket :
      websocket = Run StillRunning
                    (websocket_startup ++ session_startup fps host tcp_port ++ calls stream)
                    (clients stream)).
    { unfold websocket. rewrite teleop_websocket_run by (intros; apply Hcalm).
      rewrite shutdown_run, main_run; [|intros; apply Hcalm|].
      - replace (i + 3 + 5)%nat with (i + 8)%nat by lia. fold stream.
        destruct stream as [o tr cs']. cbn in Hloop. by subst o.
      - by replace (i + 3 + 4)%nat with (i + 7)%nat by lia. }
    split; [exact Hwebsocket|]. rewrite Hwebsocket. cbn [calls].
    rewrite !count_app. unfold stream. by rewrite (Hpolls' _ _ Hloop), Hnone'.
Qed.

Lemma loops_keep_running_witness :
  let test := test_leader (calm arm_action) 30 4 0 ∅ in
  let websocket := teleop_websocket (calm arm_action) 30 "localhost" 8765 4 0 ∅ in
  out test = StillRunning ∧ count is_get_action (calls test) = 4%nat
  ∧ out websocket = StillRunning ∧ count is_get_action (calls websocket) = 4%nat.
Proof.
  assert (Hfeatures : features_at (calm arm_action) (0 + 7) ≠ []) by discriminate.
  assert (Hfps : 30%Z ≠ 0%Z) by discriminate.
  destruct (loops_keep_running (calm arm_action) 30 "localhost" 8765 4 0 ∅
              (λ k, eq_refl) Hfps) as [Htest Hwebsocket].
  destruct Htest as (Htest & Hpolls & _).
  { apply advancing_check. by vm_compute. }
  destruct (Hwebsocket Hfeatures) as (Hwebsocket' & Hpolls' & _).
  { apply advancing_check. by vm_compute. }
  split; [by rewrite Htest|]. split; [exact Hpolls|].
  split; [by rewrite Hwebsocket' | exact Hpolls'].
Defined.

(** X19: When the three polls of an iteration succeed, the one message of
    the iteration, sent to every connected client, is the
    serialization of an object of two members, [timestamp], the float
    [time.time()] returned, and [actions], an object with one member per
    joint name, distinct, each the angle of the last motor with that joint
    name; [json.loads] reads the message back as that object.  A finite
    float is written by its [repr], a JSON number (which [FloatJson] says of
    the runtime); a float that is infinite or not a number is written as one
    of the constants [Infinity], [-Infinity] and [NaN], which Python reads
    back and RFC 8259 does not have.  The joint name is the motor name with
    every occurrence of [.pos] removed, which is the name without its [.pos]
    suffix when the suffix is the only occurrence. *)
Theorem broadcast_message `{FloatJson} (E : env) fps i cs :
  raises E i = None → raises E (i + 1) = None → raises E (i + 2) = None →
  let a := action_at E (i + 1) in
  let now := time_at E (i + 2) in
  let message := dumps (action_data now a) in
  let number (x : float) := TNumber (float_json x) in
  let written (x : float) :=
    float_json x = float_repr x ∧ is_number (float_repr x) = true in
  sends_of (calls (broadcast_tick E fps i cs)) = map (λ ws, (ws, message)) (elements cs)
  ∧ action_data now a =
    JObject [("timestamp"%string, JFloat now);
             ("actions"%string, JObject (map (λ kv, (kv.1, JFloat kv.2)) (actions_of a)))]
  ∧ loads message =
    Some (TObject [("timestamp"%string, number now);
                   ("actions"%string,
                    TObject (map (λ kv, (kv.1, number kv.2)) (actions_of a)))])
  ∧ (is_finite now = true → written now)
  ∧ (Forall (λ mv, is_finite mv.2 = true) a → Forall (λ kv, written kv.2) (actions_of a))
  ∧ NoDup (dict_keys (actions_of a))
  ∧ (∀ k, k ∈ dict_keys (actions_of a) ↔ ∃ mv, mv ∈ a ∧ joint_name mv.1 = k)
  ∧ (∀ k, dict_get k (actions_of a) = last_value (λ mv, joint_name mv.1) (λ mv, mv.2) k a)
  ∧ (∀ head tail, joint_name (head +:+ ".pos" +:+ tail) = joint_name head +:+ joint_name tail)
  ∧ (∀ base, str_contains ".pos" base = false →
             joint_name (base +:+ ".pos") = base ∧ suffix_name (base +:+ ".pos") = base).
Proof.
  intros Hperf Hpoll Htime a now message number written.
  assert (Hwritten : ∀ x, is_finite x = true → written x).
  { intros x Hx. split; [by apply float_json_finite | by apply float_repr_number]. }
  split; [|split; [|split; [|split; [|split; [|split; [|split; [|split; [|split]]]]]]]].
  - unfold broadcast_tick. by rewrite broadcast_tick_sends, Hperf, Hpoll, Htime.
  - done.
  - unfold message. by rewrite loads_dumps, tree_of_action_data.
  - apply Hwritten.
  - intros Hangles.
    eapply Forall_impl;
      [exact (actions_of_values (λ x, is_finite x = true) a Hangles)|].
    intros kv Hkv. by apply Hwritten.
  - apply dict_comp_NoDup.
  - apply actions_of_keys.
  - intros k. unfold actions_of. by rewrite dict_get_comp.
  - apply joint_name_app_pos.
  - intros base Hbase. split; [by apply joint_name_suffix|].
    apply str_removesuffix_app.
Qed.

Lemma broadcast_message_witness :
  let E := calm arm_action in
  let message := dumps (action_data (time_at E 2) (action_at E 1)) in
  sends_of (calls (broadcast_tick E 30 0 {[1%positive; 2%positive]}))
  = [(2%positive, message); (1%positive, message)]
  ∧ loads message =
    Some (TObject [("timestamp"%string, TNumber "1700000000.02");
                   ("actions"%string,
                    TObject [("shoulder_pan"%string, TNumber "12.5");
                             ("elbow_flex"%string, TNumber "-30.0");
                             ("gripper"%string, TNumber "0.25")])]).
Proof.
  pose proof (broadcast_message (calm arm_action) 30 0 {[1%positive; 2%positive]}
                eq_refl eq_refl eq_refl) as (Hsent & _ & Hloads & _).
  split; [exact Hsent | exact Hloads].
Defined.
